(** * Fault-tree dataset generator: a shallow embedding of [src/generator.py]

    The class [FaultTreeDatasetGenerator] is embedded as a state-and-exception
    monad over a record holding the mutable attributes of the object
    ([graph], [node_counter], [model_counter]) together with the part of the
    outside world the methods touch (the random source, the counters file, the
    exported models, the standard output).

    Modelling decisions:
    - Python [int] is [Z], unbounded.  A finite Python [float] is the rational
      it denotes ([Q]).  The arithmetic that decides the shape of the tree
      (the division and the subtraction of line 100) is rounded to binary64,
      nearest with ties to even, as the interpreter does it; the power of the
      probability sampler is kept exact.
    - The limits an interpreter can be configured with (the depth of the call
      stack, the number of digits [int] and [str] convert) are not part of the
      model; a statement that depends on one carries it as a hypothesis.
    - The module [random] is an oracle: an infinite tape of raw draws and a
      read position.  Each library call reduces the next raw draw into the
      range it is asked for, so every outcome the library can return is the
      outcome of some tape.
    - A [networkx.DiGraph] keeps its nodes in insertion order with a dictionary
      of attributes each, and its edges without repetition.
    - Text files hold ASCII strings.
    - The recursion of [create_tree] runs on fuel; [generate_subgraph] gives
      it [max_depth + 1] units, which is shown to be enough.
    - The configuration is read-only after [__init__]: it is a parameter of
      the methods that read it rather than a part of the state. *)

From Stdlib Require Import ZArith QArith Qpower List Sorted String Ascii Bool Lia Lqa.
From Stdlib Require Import DecimalString DecimalZ DecimalPos.
Import ListNotations.

Local Open Scope Z_scope.

(** ** Configuration (the read-only attributes set by [__init__]) *)

Record Config := {
  max_num_children : Z;
  min_children : Z;
  max_depth : Z;
  num_graphs : Z;
  visualization : bool;
  print_out : bool
}.

(** ** The graph store *)

(** Attribute dictionary of a node; [None] is an absent key. *)
Record Attrs := {
  node_type : option Z;
  gate_type : option Z;
  node_probability : option Q;
  in_degree : option Z;
  out_degree : option Z
}.

Definition no_attrs : Attrs :=
  {| node_type := None; gate_type := None; node_probability := None;
     in_degree := None; out_degree := None |}.

(** The dictionary [graph.graph]. *)
Record Meta := {
  model_id : option Z;
  creation_date : option string;
  num_nodes : option Z;
  num_top_nodes : option Z;
  num_intermediate_nodes : option Z;
  num_leaf_nodes : option Z;
  num_and_gates : option Z;
  num_or_gates : option Z
}.

Definition no_meta : Meta :=
  {| model_id := None; creation_date := None; num_nodes := None;
     num_top_nodes := None; num_intermediate_nodes := None;
     num_leaf_nodes := None; num_and_gates := None; num_or_gates := None |}.

Record Graph := {
  nodes : list (Z * Attrs);
  edges : list (Z * Z);
  meta : Meta
}.

Definition empty_graph : Graph := {| nodes := []; edges := []; meta := no_meta |}.

Definition node_ids (g : Graph) : list Z := map fst (nodes g).

Definition has_node (g : Graph) (n : Z) : bool :=
  existsb (Z.eqb n) (node_ids g).

Fixpoint update_attrs (n : Z) (f : Attrs -> Attrs) (l : list (Z * Attrs)) : list (Z * Attrs) :=
  match l with
  | [] => []
  | (m, a) :: l' => if m =? n then (m, f a) :: l' else (m, a) :: update_attrs n f l'
  end.

(** [G.add_node(n, node_type=.., gate_type=.., node_probability=..)]: a new
    node goes last; an existing one has the three attributes overwritten. *)
Definition add_node (n : Z) (nt gt : Z) (p : Q) (g : Graph) : Graph :=
  let set a := {| node_type := Some nt; gate_type := Some gt; node_probability := Some p;
                  in_degree := in_degree a; out_degree := out_degree a |} in
  {| nodes := if has_node g n then update_attrs n set (nodes g)
              else nodes g ++ [(n, set no_attrs)];
     edges := edges g; meta := meta g |}.

Definition ensure_node (n : Z) (l : list (Z * Attrs)) : list (Z * Attrs) :=
  if existsb (Z.eqb n) (map fst l) then l else l ++ [(n, no_attrs)].

Definition edge_eqb (e f : Z * Z) : bool := (fst e =? fst f) && (snd e =? snd f).

(** [G.add_edge(u, v)]: missing end points are added, a present edge is kept. *)
Definition add_edge (u v : Z) (g : Graph) : Graph :=
  {| nodes := ensure_node v (ensure_node u (nodes g));
     edges := if existsb (edge_eqb (u, v)) (edges g) then edges g else edges g ++ [(u, v)];
     meta := meta g |}.

Definition count_in (n : Z) (es : list (Z * Z)) : Z :=
  Z.of_nat (List.length (filter (fun e => snd e =? n) es)).

Definition count_out (n : Z) (es : list (Z * Z)) : Z :=
  Z.of_nat (List.length (filter (fun e => fst e =? n) es)).

Definition graph_in_degree (g : Graph) (n : Z) : Z := count_in n (edges g).
Definition graph_out_degree (g : Graph) (n : Z) : Z := count_out n (edges g).

(** ** The random source *)

Record Rng := { tape : nat -> N; pos : nat }.

Definition next_raw (r : Rng) : N * Rng :=
  (tape r (pos r), {| tape := tape r; pos := S (pos r) |}).

(** ** The outside world and the generator object *)

Inductive Output :=
| PrintValueError (pair : string)
| PrintUnexpectedError (pair : string)
| PrintFileNotFound
| PrintNode (n : Z) (a : Attrs).

Record State := {
  (* attributes of the object *)
  graph : Graph;
  node_counter : Z;
  model_counter : Z;
  (* the world *)
  rng : Rng;
  data_config : option string;
  model_files : list (Z * Graph);
  visualizations : list Z;
  stdout : list Output;
  today : string
}.

Definition set_graph (g : Graph) (s : State) : State :=
  {| graph := g; node_counter := node_counter s; model_counter := model_counter s;
     rng := rng s; data_config := data_config s; model_files := model_files s;
     visualizations := visualizations s; stdout := stdout s; today := today s |}.

Definition set_node_counter (n : Z) (s : State) : State :=
  {| graph := graph s; node_counter := n; model_counter := model_counter s;
     rng := rng s; data_config := data_config s; model_files := model_files s;
     visualizations := visualizations s; stdout := stdout s; today := today s |}.

Definition set_model_counter (n : Z) (s : State) : State :=
  {| graph := graph s; node_counter := node_counter s; model_counter := n;
     rng := rng s; data_config := data_config s; model_files := model_files s;
     visualizations := visualizations s; stdout := stdout s; today := today s |}.

Definition set_rng (r : Rng) (s : State) : State :=
  {| graph := graph s; node_counter := node_counter s; model_counter := model_counter s;
     rng := r; data_config := data_config s; model_files := model_files s;
     visualizations := visualizations s; stdout := stdout s; today := today s |}.

Definition set_data_config (c : option string) (s : State) : State :=
  {| graph := graph s; node_counter := node_counter s; model_counter := model_counter s;
     rng := rng s; data_config := c; model_files := model_files s;
     visualizations := visualizations s; stdout := stdout s; today := today s |}.

Definition set_model_files (m : list (Z * Graph)) (s : State) : State :=
  {| graph := graph s; node_counter := node_counter s; model_counter := model_counter s;
     rng := rng s; data_config := data_config s; model_files := m;
     visualizations := visualizations s; stdout := stdout s; today := today s |}.

Definition set_visualizations (v : list Z) (s : State) : State :=
  {| graph := graph s; node_counter := node_counter s; model_counter := model_counter s;
     rng := rng s; data_config := data_config s; model_files := model_files s;
     visualizations := v; stdout := stdout s; today := today s |}.

Definition set_stdout (o : list Output) (s : State) : State :=
  {| graph := graph s; node_counter := node_counter s; model_counter := model_counter s;
     rng := rng s; data_config := data_config s; model_files := model_files s;
     visualizations := visualizations s; stdout := o; today := today s |}.

(** ** The monad: state, Python exceptions, and fuel for the recursion *)

Inductive Exn := ValueError | ZeroDivisionError | OverflowError | KeyError | IndexError.

(** An exception leaves the mutations done so far in place, so [Raise]
    carries the state it was raised in. *)
Inductive Result (A : Type) :=
| Ok (a : A) (s : State)
| Raise (e : Exn) (s : State)
| OutOfFuel.

Arguments Ok {A} a s.
Arguments Raise {A} e s.
Arguments OutOfFuel {A}.

Definition M (A : Type) := State -> Result A.

Definition ret {A} (a : A) : M A := fun s => Ok a s.

Definition bind {A B} (m : M A) (k : A -> M B) : M B :=
  fun s => match m s with
           | Ok a s' => k a s'
           | Raise e s' => Raise e s'
           | OutOfFuel => OutOfFuel
           end.

Definition raise {A} (e : Exn) : M A := fun s => Raise e s.
Definition get : M State := fun s => Ok s s.
Definition modify (f : State -> State) : M unit := fun s => Ok tt (f s).
Definition out_of_fuel {A} : M A := fun _ => OutOfFuel.

Declare Scope gen_scope.
Delimit Scope gen_scope with gen.
Notation "x <- m ;; k" := (bind m (fun x => k))
  (at level 100, m at next level, right associativity) : gen_scope.
Notation "m ;;; k" := (bind m (fun _ => k))
  (at level 100, right associativity) : gen_scope.
Local Open Scope gen_scope.

(** [for _ in range(n): body] *)
Fixpoint repeat_body (n : nat) (body : M unit) : M unit :=
  match n with
  | O => ret tt
  | S n' => body ;;; repeat_body n' body
  end.

Definition for_range (n : Z) (body : M unit) : M unit :=
  repeat_body (Z.to_nat n) body.

Definition print (o : Output) : M unit :=
  modify (fun s => set_stdout (stdout s ++ [o]) s).

(** ** The module [random] *)

Definition two53 : positive := 9007199254740992.
Definition two54 : positive := 18014398509481984.

Definition draw : M N :=
  fun s => let (k, r) := next_raw (rng s) in Ok k (set_rng r s).

(** [random.random()]: a multiple of 2^-53 in [0, 1). *)
Definition random_random : M Q :=
  k <- draw ;; ret (Z.of_N k mod Zpos two53 # two53).

(** [random.randint(a, b)]: [ValueError] on an empty range. *)
Definition random_randint (a b : Z) : M Z :=
  if b <? a then raise ValueError
  else k <- draw ;; ret (a + Z.of_N k mod (b - a + 1)).

(** [random.choice(seq)]: [IndexError] on an empty sequence. *)
Definition random_choice (seq : list Z) : M Z :=
  match seq with
  | [] => raise IndexError
  | x :: _ => k <- draw ;; ret (nth (N.to_nat (k mod N.of_nat (List.length seq))) seq x)
  end.

(** [random.uniform(a, b)] is [a + (b - a) * random()]. *)
Definition random_uniform (a b : Q) : M Q :=
  r <- random_random ;; ret (a + (b - a) * r)%Q.

(** ** Binary64 arithmetic

    An operation on floats returns the binary64 number nearest to the exact
    result, ties going to the even significand (IEEE 754 round to nearest
    even, the mode the interpreter runs in). *)

(** The integer nearest to [a / b], for [0 < b], ties to even. *)
Definition round_half_even (a b : Z) : Z :=
  let q := a / b in
  let r := a mod b in
  match 2 * r ?= b with
  | Lt => q
  | Gt => q + 1
  | Eq => if Z.even q then q else q + 1
  end.

(** The binary64 number nearest to the positive rational [a / b], as a
    significand [m] and the exponent [u] of its unit in the last place (the
    value is [m * 2^u]): 53 bits counted from the leading bit of [a / b],
    or units of 2^-1074 in the subnormal range. *)
Definition fl_pos (a b : positive) : Z * Z :=
  let e0 := Z.log2 (Zpos a) - Z.log2 (Zpos b) in
  let e := if Zpos a * 2 ^ Z.max 0 (- e0) <? Zpos b * 2 ^ Z.max 0 e0 then e0 - 1 else e0 in
  let u := Z.max e (-1022) - 52 in
  (round_half_even (Zpos a * 2 ^ Z.max 0 (- u)) (Zpos b * 2 ^ Z.max 0 u), u).

Definition float_of (m u : Z) : Q :=
  if 0 <=? u then inject_Z (m * 2 ^ u) else m # Z.to_pos (2 ^ (- u)).

(** Rounding to binary64 (the exponent is not bounded above here; see
    [overflows]). *)
Definition fl (q : Q) : Q :=
  match Qnum q with
  | 0 => 0%Q
  | Zpos a => let (m, u) := fl_pos a (Qden q) in float_of m u
  | Zneg a => let (m, u) := fl_pos a (Qden q) in (- float_of m u)%Q
  end.

(** The finite binary64 numbers lie strictly between -2^1024 and 2^1024. *)
Definition overflows (q : Q) : bool :=
  Qle_bool (inject_Z (2 ^ 1024)) (fl q) || Qle_bool (fl q) (inject_Z (- 2 ^ 1024)).

(** [x - y] on two floats; a difference of 1 and a finite float is finite. *)
Definition float_sub (x y : Q) : Q := fl (x - y).

(** ** The generator *)

Definition Qltb (x y : Q) : bool := negb (Qle_bool y x).

(** [a / b] on two [int]s: the correctly rounded quotient, [OverflowError]
    when it is too large for a float. *)
Definition true_div (a b : Z) : M Q :=
  if b =? 0 then raise ZeroDivisionError
  else
    let q := (inject_Z a / inject_Z b)%Q in
    if overflows q then raise OverflowError else ret (fl q).

Definition biased_random_low_number : M Q :=
  number <- random_uniform 0 1 ;;
  let power := 10 in
  ret (number ^ power)%Q.

Definition create_node (node_type : Z) (gate_type : option Z) (node_probability : Q) : M Z :=
  gate_type <- match gate_type with
               | None => if node_type =? 2 then ret 0 else random_choice [1; 2]
               | Some g => ret g
               end ;;
  node_probability <- (if node_type =? 2 then biased_random_low_number
                       else ret node_probability) ;;
  s <- get ;;
  let node_id := node_counter s + 1 in
  modify (fun s => set_graph (add_node node_id node_type gate_type node_probability (graph s)) s) ;;;
  modify (fun s => set_node_counter (node_counter s + 1) s) ;;;
  ret node_id.

Definition create_edge (child_node_id parent_node_id : Z) : M unit :=
  modify (fun s => set_graph (add_edge child_node_id parent_node_id (graph s)) s).

Section Generator.

Variable cfg : Config.

(** The decision of lines 97-100: is the next child an intermediate node? *)
Definition decide_is_intermediate (current_depth : Z) : M bool :=
  if current_depth =? max_depth cfg - 1 then ret false
  else
    r <- random_random ;;
    q <- true_div current_depth (max_depth cfg) ;;
    ret (Qltb r (float_sub 1 q)).

(** One turn of the loop of [create_tree]; [recurse] is the recursive call. *)
Definition create_child (recurse : Z -> Z -> M unit) (parent_node_id current_depth : Z) : M unit :=
  is_intermediate <- decide_is_intermediate current_depth ;;
  let node_type := if is_intermediate : bool then 1 else 2 in
  child_node_id <- create_node node_type (Some (current_depth + 1)) (-1) ;;
  create_edge child_node_id parent_node_id ;;;
  if node_type =? 1 then recurse child_node_id (current_depth + 1) else ret tt.

Fixpoint create_tree (fuel : nat) (parent_node_id current_depth : Z) : M unit :=
  match fuel with
  | O => out_of_fuel
  | S fuel' =>
      if current_depth >=? max_depth cfg then ret tt
      else
        num_children <- random_randint (min_children cfg) (max_num_children cfg) ;;
        for_range num_children
          (create_child (create_tree fuel') parent_node_id current_depth)
  end.

End Generator.

(** ** Strings: the fragment of [str] the counters file needs *)

Local Open Scope string_scope.

(** [str.isspace] on ASCII: tab to carriage return, the four separators
    FS, GS, RS, US, and the space. *)
Definition is_space (c : ascii) : bool :=
  let n := N_of_ascii c in
  ((9 <=? n)%N && (n <=? 13)%N) || ((28 <=? n)%N && (n <=? 32)%N).

Fixpoint lstrip (s : string) : string :=
  match s with
  | EmptyString => EmptyString
  | String c s' => if is_space c then lstrip s' else s
  end.

Fixpoint rstrip (s : string) : string :=
  match s with
  | EmptyString => EmptyString
  | String c s' =>
      match rstrip s' with
      | EmptyString => if is_space c then EmptyString else String c EmptyString
      | r => String c r
      end
  end.

Definition strip (s : string) : string := rstrip (lstrip s).

(** [s.split(sep)] for a one-character separator: never the empty list. *)
Fixpoint split_on (sep : ascii) (s : string) : list string :=
  match s with
  | EmptyString => [EmptyString]
  | String c s' =>
      if (c =? sep)%char then EmptyString :: split_on sep s'
      else match split_on sep s' with
           | [] => [String c EmptyString]
           | h :: t => String c h :: t
           end
  end.

(** [sep.join(parts)] *)
Fixpoint join (sep : string) (parts : list string) : string :=
  match parts with
  | [] => EmptyString
  | [p] => p
  | p :: rest => p ++ sep ++ join sep rest
  end.

Definition digit_of (c : ascii) : option Z :=
  let n := N_of_ascii c in
  if ((48 <=? n)%N && (n <=? 57)%N) then Some (Z.of_N n - 48) else None.

(** The digits of an [int] literal: single underscores may separate digits. *)
Fixpoint parse_digits (s : string) (acc : Z) (after_digit : bool) : option Z :=
  match s with
  | EmptyString => if after_digit then Some acc else None
  | String c s' =>
      if (c =? "_")%char then
        if after_digit then parse_digits s' acc false else None
      else
        match digit_of c with
        | Some d => parse_digits s' (10 * acc + d) true
        | None => None
        end
  end.

(** [int(s)] in base ten; [None] is [ValueError]. *)
Definition py_int (s : string) : option Z :=
  match strip s with
  | String "+" r => parse_digits r 0 false
  | String "-" r => option_map Z.opp (parse_digits r 0 false)
  | r => parse_digits r 0 false
  end.

(** [str(n)] for an [int]. *)
Definition py_str (n : Z) : string := NilZero.string_of_int (Z.to_int n).

(** A [dict] with string keys, in insertion order. *)
Definition Dict := list (string * Z).

Fixpoint dict_set (k : string) (v : Z) (d : Dict) : Dict :=
  match d with
  | [] => [(k, v)]
  | (k', v') :: d' => if String.eqb k' k then (k', v) :: d' else (k', v') :: dict_set k v d'
  end.

Fixpoint dict_get (k : string) (d : Dict) : option Z :=
  match d with
  | [] => None
  | (k', v') :: d' => if String.eqb k' k then Some v' else dict_get k d'
  end.

(** ** Exceptions handlers and loops over a list *)

(** [try: m  except Exception: h]; the mutations of [m] stay. *)
Definition try_except {A} (m : M A) (h : Exn -> M A) : M A :=
  fun s => match m s with
           | Raise e s' => h e s'
           | r => r
           end.

Fixpoint for_each {A B} (l : list A) (body : A -> B -> M B) (acc : B) : M B :=
  match l with
  | [] => ret acc
  | x :: l' => acc' <- body x acc ;; for_each l' body acc'
  end.

(** ** The counters file *)

(** [key, value = parts] *)
Definition unpack2 (parts : list string) : M (string * string) :=
  match parts with
  | [key; value] => ret (key, value)
  | _ => raise ValueError
  end.

Definition int_of_str (s : string) : M Z :=
  match py_int s with
  | Some n => ret n
  | None => raise ValueError
  end.

(** The body of the loop of [read_data_config], lines 156-162. *)
Definition read_pair (pair : string) (data : Dict) : M Dict :=
  try_except
    (kv <- unpack2 (split_on "=" pair) ;;
     n <- int_of_str (strip (snd kv)) ;;
     ret (dict_set (strip (fst kv)) n data))
    (fun e => match e with
              | ValueError => print (PrintValueError pair) ;;; ret data
              | _ => print (PrintUnexpectedError pair) ;;; ret data
              end).

Definition default_content : string := "num_models=0;num_nodes=0".

Definition read_data_config : M Dict :=
  s <- get ;;
  match data_config s with
  | Some raw =>
      let content := strip raw in
      for_each (split_on ";" content) read_pair []
  | None =>
      print PrintFileNotFound ;;;
      modify (set_data_config (Some default_content)) ;;;
      ret [("num_models", 0); ("num_nodes", 0)]
  end.

Definition write_data_config : M unit :=
  s <- get ;;
  let data := [("num_models", model_counter s + 1); ("num_nodes", node_counter s)] in
  let content := join ";" (map (fun kv => fst kv ++ "=" ++ py_str (snd kv)) data) in
  modify (set_data_config (Some content)).

Definition subscript (data : Dict) (k : string) : M Z :=
  match dict_get k data with
  | Some v => ret v
  | None => raise KeyError
  end.

Definition reset : M unit :=
  modify (set_graph empty_graph) ;;;
  data <- read_data_config ;;
  n <- subscript data "num_nodes" ;;
  modify (set_node_counter n) ;;;
  m <- subscript data "num_models" ;;
  modify (set_model_counter m).

(** ** Metadata and node features *)

Local Open Scope Z_scope.

Definition Counts := (Z * Z * Z)%type.

Definition count0 (c : Counts) : Z := fst (fst c).
Definition count1 (c : Counts) : Z := snd (fst c).
Definition count2 (c : Counts) : Z := snd c.

(** [if k in counts: counts[k] += 1] on a dictionary with keys 0, 1, 2. *)
Definition bump (k : option Z) (c : Counts) : Counts :=
  match k with
  | Some 0 => (count0 c + 1, count1 c, count2 c)
  | Some 1 => (count0 c, count1 c + 1, count2 c)
  | Some 2 => (count0 c, count1 c, count2 c + 1)
  | _ => c
  end.

Fixpoint count_loop (l : list (Z * Attrs)) (node_counts gate_counts : Counts) : Counts * Counts :=
  match l with
  | [] => (node_counts, gate_counts)
  | (_, attributes) :: l' =>
      count_loop l' (bump (node_type attributes) node_counts)
                    (bump (gate_type attributes) gate_counts)
  end.

Definition count_nodes_and_gates (g : Graph) : Counts * Counts :=
  count_loop (nodes g) (0, 0, 0) (0, 0, 0).

Definition add_meta_data : M unit :=
  modify (fun s =>
    let counts := count_nodes_and_gates (graph s) in
    let node_counts := fst counts in
    let gate_counts := snd counts in
    set_graph {| nodes := nodes (graph s); edges := edges (graph s);
                 meta := {| model_id := Some (model_counter s + 1);
                            creation_date := Some (today s);
                            num_nodes := Some (node_counter s);
                            num_top_nodes := Some (count0 node_counts);
                            num_intermediate_nodes := Some (count1 node_counts);
                            num_leaf_nodes := Some (count2 node_counts);
                            num_and_gates := Some (count1 gate_counts);
                            num_or_gates := Some (count2 gate_counts) |} |} s).

Definition set_degrees (g : Graph) (na : Z * Attrs) : Z * Attrs :=
  let (node, a) := na in
  (node, {| node_type := node_type a; gate_type := gate_type a;
            node_probability := node_probability a;
            in_degree := Some (graph_in_degree g node);
            out_degree := Some (graph_out_degree g node) |}).

Definition calculate_in_and_out_degrees : M unit :=
  modify (fun s =>
    let g := graph s in
    set_graph {| nodes := map (set_degrees g) (nodes g); edges := edges g; meta := meta g |} s).

Definition calculate_node_features : M unit := calculate_in_and_out_degrees.

(** ** Export *)

Definition print_nodes : M unit :=
  s <- get ;;
  for_each (nodes (graph s)) (fun node _ => print (PrintNode (fst node) (snd node))) tt.

(** The colours of [visualize_graph]: [color_map = {0: 'red', 1: 'orange',
    2: 'green'}]. *)
Inductive Color := red | orange | green.

Definition color_map (k : Z) : option Color :=
  match k with
  | 0 => Some red
  | 1 => Some orange
  | 2 => Some green
  | _ => None
  end.

(** [color_map[attrs['node_type']]]: [KeyError] when the attribute is
    missing or is no key of the map. *)
Definition node_color (attrs : Attrs) : M Color :=
  match node_type attrs with
  | Some t => match color_map t with
              | Some c => ret c
              | None => raise KeyError
              end
  | None => raise KeyError
  end.

(** The colouring loop of [visualize_graph], lines 215-217: the colour of
    every node, in node order. *)
Definition node_colors : M (list (Z * Color)) :=
  s <- get ;;
  for_each (nodes (graph s))
    (fun na acc => c <- node_color (snd na) ;; ret (acc ++ [(fst na, c)])%list) [].

(** The drawing itself belongs to matplotlib and graphviz; what is kept is
    the colour lookup for every node, which can fail before anything is
    saved, and which model numbers were drawn and saved. *)
Definition visualize_graph (model_number : Z) : M unit :=
  node_colors ;;;
  modify (fun s => set_visualizations (visualizations s ++ [model_number]) s).

Section Run.

Variable cfg : Config.

Definition save_model : M unit :=
  write_data_config ;;;
  s <- get ;;
  let model_number := model_counter s + 1 in
  modify (fun s => set_model_files (model_files s ++ [(model_number, graph s)]) s) ;;;
  (if visualization cfg then visualize_graph model_number else ret tt) ;;;
  (if print_out cfg then print_nodes else ret tt).

Definition generate_subgraph : M unit :=
  top_event_node_id <- create_node 0 None (-1) ;;
  create_tree cfg (S (Z.to_nat (max_depth cfg))) top_event_node_id 0 ;;;
  add_meta_data ;;;
  calculate_node_features ;;;
  save_model.

(** [__init__] *)
Definition init : M unit :=
  for_range (num_graphs cfg) (reset ;;; generate_subgraph).

End Run.

(** A process that has not built anything yet. *)
Definition fresh_state (r : Rng) (file : option string) (date : string) : State :=
  {| graph := empty_graph; node_counter := 0; model_counter := 0;
     rng := r; data_config := file; model_files := []; visualizations := [];
     stdout := []; today := date |}.

(** ** Sample inputs *)

(** The parameters of [main.py]. *)
Definition main_config : Config :=
  {| max_num_children := 3; min_children := 2; max_depth := 4; num_graphs := 1;
     visualization := true; print_out := false |}.

(** A tape whose draws, reduced modulo 2^53, are spread over the range. *)
Definition sample_tape (i : nat) : N :=
  (N.of_nat i * 2862933555777941757 + 3037000493)%N.

Definition sample_rng : Rng := {| tape := sample_tape; pos := 0 |}.

(** A first run: no counters file yet. *)
Definition first_run : State := fresh_state sample_rng None "2024-10-08".

(** A later run: the counters file records 5 nodes in 2 models. *)
Definition later_run : State :=
  fresh_state sample_rng (Some "num_models=2;num_nodes=5") "2024-10-08".

(** The state a computation returned in ([d] if it did not return). *)
Definition state_of {A} (r : Result A) (d : State) : State :=
  match r with
  | Ok _ s => s
  | _ => d
  end.

(** The graph [main.py] generates on the sample tape, first run. *)
Definition first_generated : State :=
  state_of (generate_subgraph main_config first_run) first_run.

(** The scenario of the specification: two children, depth one. *)
Definition scenario_config : Config :=
  {| max_num_children := 2; min_children := 2; max_depth := 1; num_graphs := 1;
     visualization := false; print_out := false |}.

(** What a node shows of itself: identifier, type and gate. *)
Definition node_summary (na : Z * Attrs) : Z * option Z * option Z :=
  (fst na, node_type (snd na), gate_type (snd na)).

(** A tape of zeros: every uniform variate drawn from it is 0. *)
Definition zero_rng : Rng := {| tape := fun _ => 0%N; pos := 0 |}.

Definition zero_run : State := fresh_state zero_rng None "2024-10-08".

(** Two configurations outside the documented ranges. *)
Definition negative_depth_config : Config :=
  {| max_num_children := 3; min_children := 2; max_depth := -1; num_graphs := 1;
     visualization := false; print_out := false |}.

Definition empty_range_config : Config :=
  {| max_num_children := 1; min_children := 2; max_depth := 4; num_graphs := 1;
     visualization := false; print_out := false |}.

(** The state the run on the empty fan-out range fails in. *)
Definition failed_run : State :=
  match init empty_range_config first_run with
  | Raise _ s => s
  | _ => first_run
  end.

(** ** Vocabulary of the specification *)

(** Outcomes of a computation: [Q] on return, [R] on an exception; running
    out of fuel is excluded. *)
Definition triple {A} (P : State -> Prop) (m : M A)
    (Q : A -> State -> Prop) (R : Exn -> State -> Prop) : Prop :=
  forall s, P s ->
    match m s with
    | Ok a s' => Q a s'
    | Raise e s' => R e s'
    | OutOfFuel => False
    end.

(** The consecutive integers [a, a+1, ..., a+n-1]. *)
Fixpoint zseq (a : Z) (n : nat) : list Z :=
  match n with
  | O => []
  | S n' => a :: zseq (a + 1) n'
  end.

(** [has_depth es root n d]: following the child-to-parent edges [es] from
    [n] reaches [root] in [d] steps. *)
Inductive has_depth (es : list (Z * Z)) (root : Z) : Z -> Z -> Prop :=
| depth_root : has_depth es root root 0
| depth_child c p d :
    In (c, p) es -> has_depth es root p d -> has_depth es root c (d + 1).

(** The uniform variate and the probability obtained from a raw draw [k]. *)
Definition uniform_of (k : N) : Q := Z.of_N k mod Zpos two53 # two53.
Definition sample_of (k : N) : Q := ((0 + (1 - 0) * uniform_of k) ^ 10)%Q.

(** The number of children [randint] makes of a raw draw [k]. *)
Definition fan_out_of (cfg : Config) (k : N) : Z :=
  min_children cfg + Z.of_N k mod (max_num_children cfg - min_children cfg + 1).

(** The threshold of line 100 at depth [d], as the floats compute it. *)
Definition threshold (cfg : Config) (d : Z) : Q :=
  float_sub 1 (fl (inject_Z d / inject_Z (max_depth cfg))).



(** What [create_node] stores as probability, given its arguments. *)
Definition stored_probability (node_type : Z) (given stored : Q) : Prop :=
  if node_type =? 2 then exists k, stored = sample_of k else stored = given.

(** The fields of the state that tree construction leaves alone. *)
Definition same_world (s0 s : State) : Prop :=
  model_counter s = model_counter s0 /\ data_config s = data_config s0 /\
  model_files s = model_files s0 /\ visualizations s = visualizations s0 /\
  stdout s = stdout s0 /\ today s = today s0.

(** Shape of a graph under construction whose identifiers started after [N]
    and whose counter stands at [K]. *)
Record graph_ok (cfg : Config) (N K : Z) (g : Graph) : Prop := {
  ok_count : N < K;
  ok_ids : node_ids g = zseq (N + 1) (Z.to_nat (K - N));
  ok_src : map fst (edges g) = tl (node_ids g);
  ok_edge : forall c p, In (c, p) (edges g) -> N < p < c;
  ok_top : forall a, In (N + 1, a) (nodes g) ->
      node_type a = Some 0 /\ (gate_type a = Some 1 \/ gate_type a = Some 2) /\
      node_probability a = Some (-1)%Q;
  ok_child : forall n a, In (n, a) (nodes g) -> n <> N + 1 ->
      exists d, 1 <= d <= max_depth cfg /\ has_depth (edges g) (N + 1) n d /\
        gate_type a = Some d /\
        ((node_type a = Some 1 /\ node_probability a = Some (-1)%Q /\ d < max_depth cfg) \/
         (node_type a = Some 2 /\ exists k, node_probability a = Some (sample_of k)))
}.

Definition wf (cfg : Config) (s0 s : State) : Prop :=
  same_world s0 s /\ graph_ok cfg (node_counter s0) (node_counter s) (graph s).

(** The random source after one draw. *)
Definition advance (r : Rng) : Rng := snd (next_raw r).
Definition peek (r : Rng) : N := fst (next_raw r).

(** The state [create_node] leaves: one node more, the counter advanced. *)
Definition node_added (nt gt : Z) (q : Q) (r : Rng) (s : State) : State :=
  set_node_counter (node_counter s + 1)
    (set_graph (add_node (node_counter s + 1) nt gt q (graph s)) (set_rng r s)).

(** The only failure of tree construction: the empty fan-out range. *)
Definition empty_range (cfg : Config) (e : Exn) (s : State) : Prop :=
  e = ValueError /\ max_num_children cfg < min_children cfg.

(** Invariant of the loop of [create_tree] below parent [p]: the shape is
    kept, the edges [es0] present at some earlier point are still there, and
    the nodes up to [K0] other than [p] keep the in-degree [f] records. *)
Definition below (cfg : Config) (s0 : State) (p : Z) (es0 : list (Z * Z))
    (K0 : Z) (f : Z -> Z) (s : State) : Prop :=
  wf cfg s0 s /\ incl es0 (edges (graph s)) /\ node_counter s0 < p <= node_counter s /\
  K0 <= node_counter s /\
  (forall x, x <> p -> x <= K0 -> count_in x (edges (graph s)) = f x).

(** The text [write_data_config] stores for the two counters. *)
Definition counters_text (models nodes : Z) : string :=
  ("num_models=" ++ py_str models ++ ";" ++ "num_nodes=" ++ py_str nodes)%string.

(** What finalisation and export make of the state [s2] tree construction
    left: the graph gets its metadata and degrees, the counters file and
    the model file are written. *)
Record finished (s2 s' : State) : Prop := {
  fin_nodes : nodes (graph s') = map (set_degrees (graph s2)) (nodes (graph s2));
  fin_edges : edges (graph s') = edges (graph s2);
  fin_meta : meta (graph s') =
    {| model_id := Some (model_counter s2 + 1);
       creation_date := Some (today s2);
       num_nodes := Some (node_counter s2);
       num_top_nodes := Some (count0 (fst (count_nodes_and_gates (graph s2))));
       num_intermediate_nodes := Some (count1 (fst (count_nodes_and_gates (graph s2))));
       num_leaf_nodes := Some (count2 (fst (count_nodes_and_gates (graph s2))));
       num_and_gates := Some (count1 (snd (count_nodes_and_gates (graph s2))));
       num_or_gates := Some (count2 (snd (count_nodes_and_gates (graph s2)))) |};
  fin_node_counter : node_counter s' = node_counter s2;
  fin_model_counter : model_counter s' = model_counter s2;
  fin_data_config :
    data_config s' = Some (counters_text (model_counter s2 + 1) (node_counter s2));
  fin_model_files :
    model_files s' = (model_files s2 ++ [(model_counter s2 + 1, graph s')])%list
}.

Definition zsum (l : list Z) : Z := fold_right Z.add 0 l.

(** The two equations of the specification on the metadata. *)
Definition meta_consistent (m : Meta) : Prop :=
  exists nn ni nl na no,
    num_nodes m = Some nn /\ num_intermediate_nodes m = Some ni /\
    num_leaf_nodes m = Some nl /\ num_and_gates m = Some na /\ num_or_gates m = Some no /\
    ni + nl + 1 = nn /\ na + no = ni + 1.

(** 1 when the attribute [k] is present with value [t], else 0. *)
Definition indicator (k : option Z) (t : Z) : Z :=
  match k with
  | Some u => if u =? t then 1 else 0
  | None => 0
  end.

(** A computation that can fail with [ValueError] only. *)
Definition only_value_error {A} (m : M A) : Prop :=
  forall s e s', m s = Raise e s' -> e = ValueError.

(** ** Vocabulary for the counters file *)

(** What a [key=value] entry means when it is well formed: exactly one
    [=], and a value that reads as an integer; [None] for a malformed one. *)
Definition parse_pair (pair : string) : option (string * Z) :=
  match split_on "=" pair with
  | [key; value] =>
      match py_int (strip value) with
      | Some n => Some (strip key, n)
      | None => None
      end
  | _ => None
  end.

Definition well_formed (pairs : list string) : list (string * Z) :=
  flat_map (fun p => match parse_pair p with Some kv => [kv] | None => [] end) pairs.

Definition malformed (pairs : list string) : list string :=
  filter (fun p => match parse_pair p with Some _ => false | None => true end) pairs.

Definition dict_of (kvs : list (string * Z)) (d : Dict) : Dict :=
  fold_left (fun d kv => dict_set (fst kv) (snd kv) d) kvs d.

(** The value of the last entry for key [k], if any. *)
Definition last_value (k : string) (kvs : list (string * Z)) (init : option Z) : option Z :=
  fold_left (fun acc kv => if String.eqb (fst kv) k then Some (snd kv) else acc) kvs init.

(** A counters file with debris between and around the two counters. *)
Definition damaged_file : string :=
  " num_models = 3 ;junk;num_nodes=+1_0;x=1=2;y=z ".

Definition damaged_run : State := fresh_state sample_rng (Some damaged_file) "2024-10-08".

Fixpoint all_chars (P : ascii -> bool) (s : string) : bool :=
  match s with
  | EmptyString => true
  | String c s' => P c && all_chars P s'
  end.

Definition is_digit (c : ascii) : bool :=
  match digit_of c with Some _ => true | None => false end.

(** The characters [str] uses for an [int]. *)
Definition num_char (c : ascii) : bool := is_digit c || (c =? "-")%char.

Definition not_char (sep c : ascii) : bool := negb (c =? sep)%char.
Definition not_space (c : ascii) : bool := negb (is_space c).

(** [reset] finds the counters [models] and [nodes] on file. *)
Definition counters_on_file (models nodes : Z) (s : State) : Prop :=
  exists s1, reset s = Ok tt s1 /\ model_counter s1 = models /\ node_counter s1 = nodes /\
             graph s1 = empty_graph /\ model_files s1 = model_files s.

(** The states at the end of each completed turn of a loop
    [for _ in range(n): body] started in [s]. *)
Fixpoint iterations (n : nat) (body : M unit) (s : State) : list State :=
  match n with
  | O => []
  | S n' => match body s with
            | Ok _ s1 => s1 :: iterations n' body s1
            | _ => []
            end
  end.

(** The object at the end of each turn of the loop of [__init__]: its
    [graph] is the graph that turn built. *)
Definition run_states (cfg : Config) (s0 : State) : list State :=
  iterations (Z.to_nat (num_graphs cfg)) (bind reset (fun _ => generate_subgraph cfg)) s0.

(** The identifiers [create_node] gave out across a run: the nodes of the
    graph of each turn, in creation order. *)
Definition run_ids (cfg : Config) (s0 : State) : list Z :=
  List.concat (map (fun s => node_ids (graph s)) (run_states cfg s0)).

(** The integers the interpreter converts to and from text under its
    default limit: at most 4300 digits, the sign not counted. *)
Definition within_digit_limit (n : Z) : Prop :=
  (String.length (py_str (Z.abs n)) <= 4300)%nat.

(** The integers an export of the graph turns into text: identifiers,
    integer attributes, end points of edges, metadata. *)
Definition opt_int (o : option Z) : list Z :=
  match o with Some z => [z] | None => [] end.

Definition attrs_ints (a : Attrs) : list Z :=
  opt_int (node_type a) ++ opt_int (gate_type a)
  ++ opt_int (in_degree a) ++ opt_int (out_degree a).

Definition meta_ints (m : Meta) : list Z :=
  opt_int (model_id m) ++ opt_int (num_nodes m) ++ opt_int (num_top_nodes m)
  ++ opt_int (num_intermediate_nodes m) ++ opt_int (num_leaf_nodes m)
  ++ opt_int (num_and_gates m) ++ opt_int (num_or_gates m).

Definition graph_ints (g : Graph) : list Z :=
  flat_map (fun na => fst na :: attrs_ints (snd na)) (nodes g)
  ++ flat_map (fun e => [fst e; snd e]) (edges g)
  ++ meta_ints (meta g).

(** A state whose export stays within the digit limit: the two counters
    [save_model] writes and every integer of the graph. *)
Definition exportable (s : State) : Prop :=
  Forall within_digit_limit (model_counter s + 1 :: node_counter s :: graph_ints (graph s)).

(** A run of two graphs continuing from the counters of [later_run]. *)
Definition two_graphs_config : Config :=
  {| max_num_children := 3; min_children := 2; max_depth := 2; num_graphs := 2;
     visualization := false; print_out := false |}.

Definition later_finished : State := state_of (init two_graphs_config later_run) later_run.

(** Tallies read off a node list. *)
Definition count_type (t : Z) (l : list (Z * Attrs)) : Z :=
  Z.of_nat (List.length (filter (fun na => match node_type (snd na) with
                                           | Some u => u =? t
                                           | None => false
                                           end) l)).

Definition count_gate (t : Z) (l : list (Z * Attrs)) : Z :=
  Z.of_nat (List.length (filter (fun na => match gate_type (snd na) with
                                           | Some u => u =? t
                                           | None => false
                                           end) l)).

Definition attr_or_zero (o : option Z) : Z := match o with Some z => z | None => 0 end.

Definition sum_in_degree (g : Graph) : Z :=
  fold_right Z.add 0 (map (fun na => attr_or_zero (in_degree (snd na))) (nodes g)).

Definition sum_out_degree (g : Graph) : Z :=
  fold_right Z.add 0 (map (fun na => attr_or_zero (out_degree (snd na))) (nodes g)).

(** The sample first run once its TOP node exists (gate 2 on the sample
    tape): the state in which [generate_subgraph] calls [create_tree]. *)
Definition top_created : State :=
  node_added 0 2 (-1) (advance sample_rng) first_run.

(** A generated graph: what [generate_subgraph] leaves in [self.graph] when
    it starts, as it does after [reset], from the empty graph with the
    counter at [N]. *)
Definition generated (cfg : Config) (N : Z) (s' : State) : Prop :=
  exists s, graph s = empty_graph /\ node_counter s = N /\
            generate_subgraph cfg s = Ok tt s'.

(** The configurations the generator is meant for. *)
Definition valid_config (cfg : Config) : Prop :=
  1 <= min_children cfg /\ min_children cfg <= max_num_children cfg /\
  0 <= max_depth cfg /\ 1 <= num_graphs cfg.

(** ** Further vocabulary: finalisation, colours, degrees of gates *)

(** The finalisation pass of [generate_subgraph]: metadata, then features. *)
Definition finalize : M unit := bind add_meta_data (fun _ => calculate_node_features).

(** The colour a node type stands for. *)
Definition color_of_type (t : option Z) : Color :=
  match t with
  | Some 0 => red
  | Some 1 => orange
  | _ => green
  end.

(** Does the colour map have an entry for the type of this node? *)
Definition has_color (a : Attrs) : bool :=
  match node_type a with
  | Some t => match color_map t with Some _ => true | None => false end
  | None => false
  end.

(** A number of children [range(n)] produces for a draw [n] of the
    configured range. *)
Definition fan_out_ok (cfg : Config) (k : Z) : Prop :=
  exists n, min_children cfg <= n <= max_num_children cfg /\ k = Z.max 0 n.

(** What holds of a node whose subtree is complete: a LEAF has no child,
    an INTERMEDIATE node has a number of children within the fan-out, and
    a node of depth 1 (the depth is what children carry as gate) is
    INTERMEDIATE as soon as [max_depth] allows a second level. *)
Definition node_degree_ok (cfg : Config) (es : list (Z * Z)) (x : Z) (a : Attrs) : Prop :=
  (node_type a = Some 2 -> count_in x es = 0) /\
  (node_type a = Some 1 -> fan_out_ok cfg (count_in x es)) /\
  (gate_type a = Some 1 -> 2 <= max_depth cfg -> node_type a = Some 1).

Definition built (cfg : Config) (lo : Z) (s : State) : Prop :=
  forall x a, In (x, a) (nodes (graph s)) -> lo < x ->
    node_degree_ok cfg (edges (graph s)) x a.

(** The loop invariant [below], the nodes [ns0] present earlier still in
    place, and every node created after [lo] complete. *)
Definition growing (cfg : Config) (s0 : State) (p : Z) (es0 : list (Z * Z))
    (K0 : Z) (f : Z -> Z) (ns0 : list (Z * Attrs)) (lo : Z) (s : State) : Prop :=
  below cfg s0 p es0 K0 f s /\ incl ns0 (nodes (graph s)) /\ built cfg lo s.

(** A run on an empty counters file, and one on a file without [num_models]. *)
Definition empty_file_run : State := fresh_state sample_rng (Some "") "2024-10-08".
Definition half_file_run : State :=
  fresh_state sample_rng (Some "num_nodes=7") "2024-10-08".

(** Invariant of the run loop on the model counter: after [i] graphs of a
    run that started at model counter [m0], the file holds [m0 + i] and the
    exported models are numbered [m0 + 1, ..., m0 + i], each carrying its
    number as [model_id]. *)
Definition models_inv (m0 : Z) (i : Z) (s : State) : Prop :=
  0 <= i /\ (exists K, counters_on_file (m0 + i) K s) /\
  map fst (model_files s) = zseq (m0 + 1) (Z.to_nat i) /\
  (forall n g, In (n, g) (model_files s) -> model_id (meta g) = Some n).

(** The exceptions a run can end in. *)
Definition run_failure (cfg : Config) (e : Exn) (s : State) : Prop :=
  e = KeyError \/ (e = ValueError /\ max_num_children cfg < min_children cfg).

(** * Proofs *)

Local Open Scope list_scope.

(** ** Rules for [triple] *)

Lemma triple_ret {A} (a : A) (P : State -> Prop) Q R :
  (forall s, P s -> Q a s) -> triple P (ret a) Q R.
Proof. intros H s Hs; simpl; auto. Qed.

Lemma triple_bind {A B} (m : M A) (k : A -> M B) P Q Q' R :
  triple P m Q' R ->
  (forall a, triple (Q' a) (k a) Q R) ->
  triple P (bind m k) Q R.
Proof.
  intros Hm Hk s Hs. unfold bind. specialize (Hm s Hs).
  destruct (m s) as [a s'| |]; auto. apply (Hk a s' Hm).
Qed.

Lemma triple_weaken {A} (m : M A) (P P' : State -> Prop) (Q Q' : A -> State -> Prop)
    (R R' : Exn -> State -> Prop) :
  triple P' m Q' R' ->
  (forall s, P s -> P' s) ->
  (forall a s, Q' a s -> Q a s) ->
  (forall e s, R' e s -> R e s) ->
  triple P m Q R.
Proof.
  intros Hm HP HQ HR s Hs. specialize (Hm s (HP s Hs)).
  destruct (m s); auto.
Qed.



Lemma triple_repeat (n : nat) (body : M unit) (I : State -> Prop) R :
  triple I body (fun _ => I) R ->
  triple I (repeat_body n body) (fun _ => I) R.
Proof.
  intros Hb. induction n as [|n IH]; simpl.
  - apply triple_ret; auto.
  - eapply triple_bind; [exact Hb | intros []; exact IH].
Qed.

(** ** Consecutive integers *)

Lemma zseq_length a n : List.length (zseq a n) = n.
Proof. revert a; induction n; simpl; intros; auto. Qed.

Lemma zseq_In a n x : In x (zseq a n) <-> a <= x < a + Z.of_nat n.
Proof.
  revert a; induction n as [|n IH]; intros a; simpl.
  - split; [tauto | lia].
  - rewrite IH. lia.
Qed.

Lemma zseq_snoc a n : zseq a (S n) = zseq a n ++ [a + Z.of_nat n].
Proof.
  revert a; induction n as [|n IH]; intros a.
  - simpl. f_equal. lia.
  - change (zseq a (S (S n))) with (a :: zseq (a + 1) (S n)).
    rewrite IH. simpl. do 3 f_equal. lia.
Qed.

Lemma zseq_app a n m : zseq a (n + m) = zseq a n ++ zseq (a + Z.of_nat n) m.
Proof.
  revert a; induction n as [|n IH]; intros a.
  - simpl. f_equal. lia.
  - simpl zseq at 1 2. simpl app. rewrite IH. do 3 f_equal. lia.
Qed.

Lemma zseq_NoDup a n : NoDup (zseq a n).
Proof.
  revert a; induction n as [|n IH]; intros a; simpl; constructor; auto.
  rewrite zseq_In. lia.
Qed.

Lemma zseq_sorted a n : Sorted.StronglySorted Z.lt (zseq a n).
Proof.
  revert a; induction n as [|n IH]; intros a; simpl; constructor; auto.
  apply Forall_forall. intros x Hx. apply zseq_In in Hx. lia.
Qed.

Lemma zseq_tl a n : tl (zseq a (S n)) = zseq (a + 1) n.
Proof. reflexivity. Qed.

(** ** The graph store *)

Lemma existsb_eqb_false n l : ~ In n l -> existsb (Z.eqb n) l = false.
Proof.
  intros H. destruct (existsb (Z.eqb n) l) eqn:E; auto.
  apply existsb_exists in E. destruct E as [x [Hx Hn]].
  apply Z.eqb_eq in Hn. subst. contradiction.
Qed.

Lemma existsb_eqb_true n l : In n l -> existsb (Z.eqb n) l = true.
Proof.
  intros H. apply existsb_exists. exists n. split; auto. apply Z.eqb_refl.
Qed.

Lemma existsb_edge_false u v es : ~ In u (map fst es) -> existsb (edge_eqb (u, v)) es = false.
Proof.
  intros H. destruct (existsb (edge_eqb (u, v)) es) eqn:E; auto.
  apply existsb_exists in E. destruct E as [[c p] [Hx Hn]].
  unfold edge_eqb in Hn. simpl in Hn. apply andb_true_iff in Hn.
  destruct Hn as [Hn _]. apply Z.eqb_eq in Hn. subst.
  exfalso. apply H. apply in_map_iff. exists (c, p). auto.
Qed.

Lemma add_node_fresh n nt gt q g :
  ~ In n (node_ids g) ->
  add_node n nt gt q g =
  {| nodes := nodes g ++ [(n, {| node_type := Some nt; gate_type := Some gt;
                                 node_probability := Some q;
                                 in_degree := None; out_degree := None |})];
     edges := edges g; meta := meta g |}.
Proof.
  intros H. unfold add_node, has_node. rewrite existsb_eqb_false by assumption.
  reflexivity.
Qed.

Lemma add_edge_fresh u v g :
  In u (node_ids g) -> In v (node_ids g) -> ~ In u (map fst (edges g)) ->
  add_edge u v g =
  {| nodes := nodes g; edges := edges g ++ [(u, v)]; meta := meta g |}.
Proof.
  intros Hu Hv He. unfold add_edge, ensure_node. unfold node_ids in *.
  rewrite (existsb_eqb_true u) by assumption.
  rewrite (existsb_eqb_true v) by assumption.
  rewrite existsb_edge_false by assumption. reflexivity.
Qed.

Lemma has_depth_incl es es' root n d :
  incl es es' -> has_depth es root n d -> has_depth es' root n d.
Proof.
  intros Hi H. induction H.
  - constructor.
  - econstructor; eauto.
Qed.


Lemma graph_ok_ids_range cfg N K g n :
  graph_ok cfg N K g -> In n (node_ids g) <-> N < n <= K.
Proof.
  intros H. rewrite (ok_ids _ _ _ _ H), zseq_In.
  pose proof (ok_count _ _ _ _ H). lia.
Qed.

Lemma graph_ok_src_range cfg N K g c :
  graph_ok cfg N K g -> In c (map fst (edges g)) <-> N + 1 < c <= K.
Proof.
  intros H. rewrite (ok_src _ _ _ _ H), (ok_ids _ _ _ _ H).
  pose proof (ok_count _ _ _ _ H) as Hc.
  destruct (Z.to_nat (K - N)) as [|m] eqn:E; [lia|].
  rewrite zseq_tl, zseq_In. lia.
Qed.

Lemma child_added_edges cfg N K g nt gt q p :
  graph_ok cfg N K g -> N < p <= K ->
  edges (add_edge (K + 1) p (add_node (K + 1) nt gt q g)) = edges g ++ [(K + 1, p)].
Proof.
  intros H Hp. pose proof (ok_count _ _ _ _ H) as Hc.
  rewrite add_node_fresh by (rewrite (graph_ok_ids_range _ _ _ _ _ H); lia).
  rewrite add_edge_fresh; simpl; auto.
  - unfold node_ids; simpl. rewrite map_app, in_app_iff. right; simpl; auto.
  - unfold node_ids; simpl. rewrite map_app, in_app_iff. left.
    apply (graph_ok_ids_range _ _ _ _ _ H). lia.
  - rewrite (graph_ok_src_range _ _ _ _ _ H). lia.
Qed.

(** Attaching a fresh child below an existing node keeps the shape. *)
Lemma graph_ok_add_child cfg N K g p d nt q :
  graph_ok cfg N K g ->
  N < p <= K ->
  has_depth (edges g) (N + 1) p d ->
  0 <= d < max_depth cfg ->
  (nt = 1 /\ q = (-1)%Q /\ d + 1 < max_depth cfg) \/ (nt = 2 /\ exists k, q = sample_of k) ->
  graph_ok cfg N (K + 1) (add_edge (K + 1) p (add_node (K + 1) nt (d + 1) q g)).
Proof.
  intros H Hp Hd Hdr Hnt.
  pose proof (ok_count _ _ _ _ H) as Hc.
  assert (Hfresh : ~ In (K + 1) (node_ids g)).
  { rewrite (graph_ok_ids_range _ _ _ _ _ H). lia. }
  rewrite add_node_fresh by assumption.
  rewrite add_edge_fresh; simpl.
  2:{ unfold node_ids; simpl. rewrite map_app, in_app_iff. right; simpl; auto. }
  2:{ unfold node_ids; simpl. rewrite map_app, in_app_iff. left.
      apply (graph_ok_ids_range _ _ _ _ _ H). lia. }
  2:{ rewrite (graph_ok_src_range _ _ _ _ _ H). lia. }
  assert (Hincl : incl (edges g) (edges g ++ [(K + 1, p)])) by (apply incl_appl, incl_refl).
  constructor; simpl.
  - lia.
  - unfold node_ids; simpl. rewrite map_app. simpl.
    fold (node_ids g). rewrite (ok_ids _ _ _ _ H).
    replace (Z.to_nat (K + 1 - N)) with (S (Z.to_nat (K - N))) by lia.
    rewrite zseq_snoc. do 2 f_equal. lia.
  - unfold node_ids; simpl. rewrite !map_app. simpl.
    fold (node_ids g). rewrite (ok_src _ _ _ _ H), (ok_ids _ _ _ _ H).
    destruct (Z.to_nat (K - N)) as [|m] eqn:E; [lia|]. reflexivity.
  - intros c p' Hin. apply in_app_iff in Hin. destruct Hin as [Hin|Hin].
    + apply (ok_edge _ _ _ _ H _ _ Hin).
    + simpl in Hin. destruct Hin as [Hin|[]]. inversion Hin; subst. lia.
  - intros a Hin. apply in_app_iff in Hin. destruct Hin as [Hin|Hin].
    + apply (ok_top _ _ _ _ H _ Hin).
    + simpl in Hin. destruct Hin as [Hin|[]]. inversion Hin; lia.
  - intros n a Hin Hn. apply in_app_iff in Hin. destruct Hin as [Hin|Hin].
    + destruct (ok_child _ _ _ _ H _ _ Hin Hn) as [d' [H1 [H2 [H3 H4]]]].
      exists d'. repeat split; try lia; auto.
      eapply has_depth_incl; eauto.
    + simpl in Hin. destruct Hin as [Hin|[]]. inversion Hin; subst; clear Hin. simpl.
      exists (d + 1). repeat split; try lia.
      * econstructor; [apply in_app_iff; right; simpl; eauto|].
        eapply has_depth_incl; eauto.
      * destruct Hnt as [[-> [-> Hlt]]|[-> Hk]];
          [left; repeat split; auto; lia | right; split; auto].
        destruct Hk as [k ->]. exists k. reflexivity.
Qed.

(** ** Binary64 rounding *)

Lemma round_half_even_near a b :
  0 < b -> - b <= 2 * (round_half_even a b * b - a) <= b.
Proof.
  intros Hb. unfold round_half_even.
  pose proof (Z.div_mod a b ltac:(lia)) as E.
  pose proof (Z.mod_pos_bound a b Hb) as Hr.
  set (q := a / b) in *. set (r := a mod b) in *. clearbody q r. subst a.
  replace (q * b - (b * q + r)) with (- r) by ring.
  replace ((q + 1) * b - (b * q + r)) with (b - r) by ring.
  destruct (2 * r ?= b) eqn:C.
  - apply Z.compare_eq in C. destruct (Z.even q); lia.
  - change (2 * r < b) in C. lia.
  - change (2 * r > b) in C. lia.
Qed.

Lemma round_half_even_range a b n :
  0 < b -> 0 <= a <= n * b -> 0 <= round_half_even a b <= n.
Proof.
  intros Hb [Ha Hn]. unfold round_half_even.
  pose proof (Z.div_mod a b ltac:(lia)) as E.
  pose proof (Z.mod_pos_bound a b Hb) as Hr.
  assert (0 <= a / b) by (apply Z.div_pos; lia).
  assert (a / b <= n) by (apply Z.div_le_upper_bound; nia).
  assert (a / b = n -> a mod b = 0) by nia.
  destruct (2 * (a mod b) ?= b) eqn:C.
  - destruct (Z.even (a / b)); [lia|]. apply Z.compare_eq in C. lia.
  - lia.
  - change (2 * (a mod b) > b) in C. lia.
Qed.

(** The exponent [fl_pos] settles on does not exceed that of the leading bit. *)
Lemma fl_pos_exponent a b :
  let e0 := Z.log2 (Zpos a) - Z.log2 (Zpos b) in
  let e := if Zpos a * 2 ^ Z.max 0 (- e0) <? Zpos b * 2 ^ Z.max 0 e0 then e0 - 1 else e0 in
  Zpos b * 2 ^ Z.max 0 e <= Zpos a * 2 ^ Z.max 0 (- e).
Proof.
  intros e0 e.
  destruct (Z.log2_spec (Zpos a) ltac:(lia)) as [La Ua].
  destruct (Z.log2_spec (Zpos b) ltac:(lia)) as [Lb Ub].
  pose proof (Z.log2_nonneg (Zpos a)) as Na.
  pose proof (Z.log2_nonneg (Zpos b)) as Nb.
  subst e. destruct (Z.ltb_spec (Zpos a * 2 ^ Z.max 0 (- e0)) (Zpos b * 2 ^ Z.max 0 e0)) as [C|C];
    [|exact C].
  subst e0. set (la := Z.log2 (Zpos a)) in *. set (lb := Z.log2 (Zpos b)) in *.
  rewrite <- Z.add_1_r in Ua, Ub.
  destruct (Z.le_gt_cases 1 (la - lb)) as [G|G].
  - rewrite (Z.max_r 0 (la - lb - 1)), (Z.max_l 0 (- (la - lb - 1))) by lia.
    rewrite Z.pow_0_r, Z.mul_1_r.
    assert (Zpos b * 2 ^ (la - lb - 1) < 2 ^ (lb + 1) * 2 ^ (la - lb - 1)).
    { apply Z.mul_lt_mono_pos_r; [apply Z.pow_pos_nonneg; lia | exact Ub]. }
    rewrite <- Z.pow_add_r in H by lia.
    replace (lb + 1 + (la - lb - 1)) with la in H by lia. lia.
  - rewrite (Z.max_l 0 (la - lb - 1)), (Z.max_r 0 (- (la - lb - 1))) by lia.
    rewrite Z.pow_0_r, Z.mul_1_r.
    assert (2 ^ la * 2 ^ (- (la - lb - 1)) <= Zpos a * 2 ^ (- (la - lb - 1))).
    { apply Z.mul_le_mono_nonneg_r; [apply Z.pow_nonneg; lia | exact La]. }
    rewrite <- Z.pow_add_r in H by lia.
    replace (la + - (la - lb - 1)) with (lb + 1) in H by lia. lia.
Qed.

(** Rounding a rational of (0, 1]: the result is a multiple [m] of
    [2^-k] with [52 <= k], within [2^-54] of the rational, and in [0, 1]. *)
Lemma fl_pos_unit a b :
  (a <= b)%positive ->
  exists m k, fl_pos a b = (m, - k) /\ 52 <= k /\
    0 <= m <= 2 ^ k /\
    - (Zpos b * 2 ^ k) <= 2 ^ 54 * (m * Zpos b - Zpos a * 2 ^ k) <= Zpos b * 2 ^ k.
Proof.
  intros Hab. unfold fl_pos.
  pose proof (fl_pos_exponent a b) as He. cbv zeta in He.
  set (e0 := Z.log2 (Zpos a) - Z.log2 (Zpos b)) in *.
  set (e := if Zpos a * 2 ^ Z.max 0 (- e0) <? Zpos b * 2 ^ Z.max 0 e0 then e0 - 1 else e0) in *.
  clearbody e. clear e0.
  assert (Hab' : Zpos a <= Zpos b) by lia.
  assert (He0 : e <= 0).
  { destruct (Z.le_gt_cases e 0) as [G|G]; [exact G|exfalso].
    rewrite (Z.max_r 0 e), (Z.max_l 0 (- e)), Z.pow_0_r, Z.mul_1_r in He by lia.
    assert (2 <= 2 ^ e).
    { change 2 with (2 ^ 1) at 1. apply Z.pow_le_mono_r; lia. }
    nia. }
  assert (He1 : Zpos a < Zpos b -> e <= -1).
  { intros Hlt. destruct (Z.eq_dec e 0) as [->|]; [|lia]. cbn in He. lia. }
  set (u := Z.max e (-1022) - 52).
  assert (Hu : u <= -52) by lia.
  exists (round_half_even (Zpos a * 2 ^ Z.max 0 (- u)) (Zpos b * 2 ^ Z.max 0 u)), (- u).
  rewrite Z.opp_involutive. split; [reflexivity|]. split; [lia|].
  rewrite (Z.max_r 0 (- u)), (Z.max_l 0 u), Z.pow_0_r, Z.mul_1_r by lia.
  set (K := 2 ^ (- u)).
  assert (HK : 0 < K) by (apply Z.pow_pos_nonneg; lia).
  pose proof (round_half_even_near (Zpos a * K) (Zpos b) ltac:(lia)) as Hn.
  pose proof (round_half_even_range (Zpos a * K) (Zpos b) K ltac:(lia) ltac:(nia)) as Hr.
  set (m := round_half_even (Zpos a * K) (Zpos b)) in *. clearbody m.
  split; [exact Hr|].
  destruct (Z.eq_dec (Zpos a) (Zpos b)) as [E|E].
  - rewrite E in *. assert (m = K) by nia. subst m.
    replace (K * Zpos b - Zpos b * K) with 0 by lia. nia.
  - assert (Hu' : u <= -53) by lia.
    assert (HK2 : 2 ^ 53 <= K) by (apply Z.pow_le_mono_r; lia).
    change (2 ^ 54) with (2 * 2 ^ 53).
    assert (HT : 0 < 2 ^ 53) by (apply Z.pow_pos_nonneg; lia).
    set (T := 2 ^ 53) in *. clearbody T.
    set (D := m * Zpos b - Zpos a * K) in *. clearbody D.
    split; nia.
Qed.

Lemma fl_unit q :
  (0 <= q)%Q -> (q <= 1)%Q ->
  (0 <= fl q)%Q /\ (fl q <= 1)%Q /\
  (q - (1 # two54) <= fl q)%Q /\ (fl q <= q + (1 # two54))%Q.
Proof.
  destruct q as [n b]. unfold Qle at 1 2. cbn [Qnum Qden]. intros H0 H1.
  unfold fl. cbn [Qnum Qden]. destruct n as [|a|a]; [| |lia].
  - repeat split; unfold Qle; cbn; lia.
  - destruct (fl_pos_unit a b ltac:(lia)) as (m & k & E & Hk & Hm & Hd).
    rewrite E. unfold float_of. destruct (Z.leb_spec 0 (- k)) as [?|_]; [lia|].
    rewrite Z.opp_involutive.
    assert (HK : 0 < 2 ^ k) by (apply Z.pow_pos_nonneg; lia).
    unfold Qle, Qminus, Qplus, Qopp, two54. cbn [Qnum Qden].
    rewrite !Pos2Z.inj_mul, !Z2Pos.id by lia.
    change (Z.pos 18014398509481984) with (2 ^ 54).
    set (K := 2 ^ k) in *. clearbody K.
    assert (HT : 0 < 2 ^ 54) by (apply Z.pow_pos_nonneg; lia).
    set (T := 2 ^ 54) in *. clearbody T.
    repeat split; nia.
Qed.

(** ** Running the primitives *)

Lemma bind_ok {A B} (m : M A) (k : A -> M B) s a s' :
  m s = Ok a s' -> bind m k s = k a s'.
Proof. intros E. unfold bind. rewrite E. reflexivity. Qed.

Lemma bind_raise {A B} (m : M A) (k : A -> M B) s e s' :
  m s = Raise e s' -> bind m k s = Raise e s'.
Proof. intros E. unfold bind. rewrite E. reflexivity. Qed.

Lemma random_random_eq s :
  random_random s = Ok (uniform_of (peek (rng s))) (set_rng (advance (rng s)) s).
Proof. reflexivity. Qed.

Lemma biased_random_low_number_eq s :
  biased_random_low_number s = Ok (sample_of (peek (rng s))) (set_rng (advance (rng s)) s).
Proof. reflexivity. Qed.

Lemma random_randint_cases a b s :
  (b < a /\ random_randint a b s = Raise ValueError s) \/
  (a <= b /\ exists n, a <= n <= b /\
     n = a + Z.of_N (peek (rng s)) mod (b - a + 1) /\
     random_randint a b s = Ok n (set_rng (advance (rng s)) s)).
Proof.
  unfold random_randint. destruct (b <? a) eqn:E.
  - left. apply Z.ltb_lt in E. auto.
  - right. apply Z.ltb_ge in E. split; auto.
    eexists. split; [|split; reflexivity].
    pose proof (Z.mod_pos_bound (Z.of_N (peek (rng s))) (b - a + 1)). lia.
Qed.

Lemma nth_gate i : nth i [1; 2] 1 = 1 \/ nth i [1; 2] 1 = 2.
Proof. destruct i as [|[|[|i]]]; simpl; auto. Qed.

Lemma choice_gate_cases s :
  exists g, (g = 1 \/ g = 2) /\
    random_choice [1; 2] s = Ok g (set_rng (advance (rng s)) s).
Proof.
  exists (nth (N.to_nat (peek (rng s) mod N.of_nat (List.length [1; 2]))) [1; 2] 1).
  split; [apply nth_gate | reflexivity].
Qed.

Lemma create_node_some nt g p s :
  exists r q, create_node nt (Some g) p s = Ok (node_counter s + 1) (node_added nt g q r s) /\
              stored_probability nt p q.
Proof.
  unfold create_node, stored_probability. destruct (nt =? 2).
  - exists (advance (rng s)), (sample_of (peek (rng s))). split; [reflexivity|].
    exists (peek (rng s)). reflexivity.
  - exists (rng s), p. split; reflexivity.
Qed.

Lemma create_node_none nt p s :
  exists r q g, create_node nt None p s = Ok (node_counter s + 1) (node_added nt g q r s) /\
                stored_probability nt p q /\
                (if nt =? 2 then g = 0 else g = 1 \/ g = 2).
Proof.
  unfold create_node, stored_probability. destruct (nt =? 2).
  - exists (advance (rng s)), (sample_of (peek (rng s))), 0. split; [reflexivity|].
    split; [exists (peek (rng s))|]; reflexivity.
  - destruct (choice_gate_cases s) as [g [Hg E]].
    exists (advance (rng s)), p, g. split; [|split; auto].
    rewrite (bind_ok _ _ _ _ _ E). reflexivity.
Qed.

Lemma quotient_unit a b :
  0 <= a < b -> (0 <= inject_Z a / inject_Z b)%Q /\ (inject_Z a / inject_Z b <= 1)%Q.
Proof.
  intros H. destruct b as [|p|p]; try lia.
  unfold Qdiv, Qmult, Qinv, Qle. cbn [Qnum Qden inject_Z]. lia.
Qed.

Lemma overflows_unit q : (0 <= q)%Q -> (q <= 1)%Q -> overflows q = false.
Proof.
  intros H0 H1. destruct (fl_unit q H0 H1) as [Hf0 [Hf1 _]].
  unfold overflows. apply orb_false_iff. split.
  - destruct (Qle_bool (inject_Z (2 ^ 1024)) (fl q)) eqn:E; [|reflexivity].
    apply Qle_bool_iff in E. pose proof (Qle_trans _ _ _ E Hf1) as C.
    vm_compute in C. contradiction C. reflexivity.
  - destruct (Qle_bool (fl q) (inject_Z (- 2 ^ 1024))) eqn:E; [|reflexivity].
    apply Qle_bool_iff in E. pose proof (Qle_trans _ _ _ Hf0 E) as C.
    vm_compute in C. contradiction C. reflexivity.
Qed.

Lemma true_div_in_range a b s :
  0 <= a < b -> true_div a b s = Ok (fl (inject_Z a / inject_Z b)) s.
Proof.
  intros H. unfold true_div. destruct (b =? 0) eqn:E; [apply Z.eqb_eq in E; lia|].
  cbv zeta. destruct (quotient_unit a b H) as [H0 H1].
  rewrite (overflows_unit _ H0 H1). reflexivity.
Qed.

(** The threshold line 100 compares the draw with. *)
Lemma decide_at_cap cfg d s :
  d = max_depth cfg - 1 -> decide_is_intermediate cfg d s = Ok false s.
Proof.
  intros ->. unfold decide_is_intermediate. rewrite Z.eqb_refl. reflexivity.
Qed.

Lemma decide_is_intermediate_cases cfg d s :
  0 <= d < max_depth cfg ->
  (d = max_depth cfg - 1 /\ decide_is_intermediate cfg d s = Ok false s) \/
  (d <> max_depth cfg - 1 /\
   decide_is_intermediate cfg d s =
     Ok (Qltb (uniform_of (peek (rng s)))
              (float_sub 1 (fl (inject_Z d / inject_Z (max_depth cfg)))))
        (set_rng (advance (rng s)) s)).
Proof.
  intros Hd. destruct (Z.eq_dec d (max_depth cfg - 1)) as [E|E].
  - left. split; [exact E | apply decide_at_cap; exact E].
  - right. split; [exact E|]. unfold decide_is_intermediate.
    destruct (d =? max_depth cfg - 1) eqn:E'; [apply Z.eqb_eq in E'; contradiction|].
    rewrite (bind_ok _ _ _ _ _ (random_random_eq s)).
    rewrite (bind_ok _ _ _ _ _ (true_div_in_range d (max_depth cfg) _ Hd)).
    reflexivity.
Qed.

(** ** Tree construction keeps the shape *)


Lemma wf_child_added cfg s0 s r p d nt q :
  wf cfg s0 s ->
  node_counter s0 < p <= node_counter s ->
  has_depth (edges (graph s)) (node_counter s0 + 1) p d ->
  0 <= d < max_depth cfg ->
  (nt = 1 /\ q = (-1)%Q /\ d + 1 < max_depth cfg) \/ (nt = 2 /\ exists k, q = sample_of k) ->
  wf cfg s0 (set_graph (add_edge (node_counter s + 1) p
                          (graph (node_added nt (d + 1) q r s)))
                       (node_added nt (d + 1) q r s)).
Proof.
  intros [Hw Hg] Hp Hd Hdr Hnt. split.
  - exact Hw.
  - simpl. eapply graph_ok_add_child; eauto.
Qed.

Lemma count_in_snoc x es c p :
  count_in x (es ++ [(c, p)]) = count_in x es + (if p =? x then 1 else 0).
Proof.
  unfold count_in. rewrite filter_app, length_app. simpl.
  destruct (p =? x); cbn [List.length]; lia.
Qed.

Lemma create_child_below cfg s0 recurse p d es0 K0 f m :
  (forall c es1 K1 f1, has_depth es1 (node_counter s0 + 1) c (d + 1) ->
     triple (below cfg s0 c es1 K1 f1) (recurse c (d + 1))
            (fun _ => below cfg s0 c es1 K1 f1) (empty_range cfg)) ->
  has_depth es0 (node_counter s0 + 1) p d ->
  0 <= d < max_depth cfg ->
  triple (fun s => below cfg s0 p es0 K0 f s /\ count_in p (edges (graph s)) = m)
         (create_child cfg recurse p d)
         (fun _ s' => below cfg s0 p es0 K0 f s' /\ count_in p (edges (graph s')) = m + 1)
         (empty_range cfg).
Proof.
  intros IH Hd Hdr.
  assert (Hstep : forall b s, below cfg s0 p es0 K0 f s ->
            count_in p (edges (graph s)) = m ->
            (b = true -> d + 1 < max_depth cfg) ->
            match
              (let node_type := if b : bool then 1 else 2 in
               bind (create_node node_type (Some (d + 1)) (-1))
                 (fun child_node_id =>
                    bind (create_edge child_node_id p)
                      (fun _ => if node_type =? 1 then recurse child_node_id (d + 1)
                                else ret tt))) s
            with
            | Ok _ s' => below cfg s0 p es0 K0 f s' /\ count_in p (edges (graph s')) = m + 1
            | Raise e s' => empty_range cfg e s'
            | OutOfFuel => False
            end).
  { intros b s [Hwf [Hincl [Hp [HK Hfr]]]] Hm Hb. cbv zeta.
    destruct (create_node_some (if b then 1 else 2) (d + 1) (-1) s)
      as [r' [q [E Hq]]].
    rewrite (bind_ok _ _ _ _ _ E). unfold create_edge.
    erewrite bind_ok by reflexivity.
    set (s2 := node_added (if b then 1 else 2) (d + 1) q r' s) in *.
    set (s3 := set_graph (add_edge (node_counter s + 1) p (graph s2)) s2).
    assert (Hwf3 : wf cfg s0 s3).
    { apply wf_child_added; auto.
      - eapply has_depth_incl; eauto.
      - unfold stored_probability in Hq. destruct b; simpl in Hq.
        + left. auto.
        + right. auto. }
    assert (He3 : edges (graph s3) = edges (graph s) ++ [(node_counter s + 1, p)]).
    { destruct Hwf as [_ Hg].
      exact (child_added_edges cfg _ _ _ (if b then 1 else 2) (d + 1) q p Hg Hp). }
    assert (Hin3 : In (node_counter s + 1, p) (edges (graph s3))).
    { rewrite He3. apply in_app_iff. right. simpl. auto. }
    assert (Hincl3 : incl (edges (graph s)) (edges (graph s3))).
    { rewrite He3. apply incl_appl, incl_refl. }
    assert (Hc3 : node_counter s3 = node_counter s + 1) by reflexivity.
    assert (Hfr3 : forall x, x <> p -> x <= K0 -> count_in x (edges (graph s3)) = f x).
    { intros x Hx HxK. rewrite He3, count_in_snoc.
      destruct (p =? x) eqn:Ex; [apply Z.eqb_eq in Ex; congruence|].
      rewrite (Hfr x Hx HxK). lia. }
    assert (Hm3 : count_in p (edges (graph s3)) = m + 1).
    { rewrite He3, count_in_snoc, Z.eqb_refl, Hm. reflexivity. }
    destruct b; simpl.
    - assert (Hd3 : has_depth (edges (graph s3)) (node_counter s0 + 1)
                      (node_counter s + 1) (d + 1)).
      { econstructor; eauto. eapply has_depth_incl; [|exact Hd].
        eapply incl_tran; eauto. }
      assert (Hb3 : below cfg s0 (node_counter s + 1) (edges (graph s3))
                      (node_counter s + 1) (fun x => count_in x (edges (graph s3))) s3).
      { split; [exact Hwf3|]. split; [apply incl_refl|]. rewrite Hc3.
        split; [lia|]. split; [lia|]. reflexivity. }
      specialize (IH _ _ _ _ Hd3 s3 Hb3).
      destruct (recurse (node_counter s + 1) (d + 1) s3) as [a s4|e s4|]; auto.
      destruct IH as [Hwf4 [Hincl4 [Hp4 [HK4 Hfr4]]]].
      split.
      + split; [exact Hwf4|]. split.
        { eapply incl_tran; [exact Hincl|]. eapply incl_tran; eauto. }
        split; [lia|]. split; [lia|].
        intros x Hx HxK. rewrite Hfr4 by lia. apply Hfr3; assumption.
      + rewrite Hfr4 by lia. exact Hm3.
    - split; [|exact Hm3].
      split; [exact Hwf3|]. split; [eapply incl_tran; eauto|].
      rewrite Hc3. split; [lia|]. split; [lia|]. exact Hfr3. }
  intros s [HI Hm]. unfold create_child.
  destruct (decide_is_intermediate_cases cfg d s Hdr) as [[Hd1 E]|[Hd1 E]].
  - rewrite (bind_ok _ _ _ _ _ E).
    refine (Hstep false s HI Hm _). discriminate.
  - rewrite (bind_ok _ _ _ _ _ E).
    refine (Hstep _ (set_rng (advance (rng s)) s) HI Hm _). intros _; lia.
Qed.

(** The loop body keeps the invariant, whatever the number of children so far. *)
Lemma create_child_keeps cfg s0 recurse p d es0 K0 f :
  (forall c es1 K1 f1, has_depth es1 (node_counter s0 + 1) c (d + 1) ->
     triple (below cfg s0 c es1 K1 f1) (recurse c (d + 1))
            (fun _ => below cfg s0 c es1 K1 f1) (empty_range cfg)) ->
  has_depth es0 (node_counter s0 + 1) p d ->
  0 <= d < max_depth cfg ->
  triple (below cfg s0 p es0 K0 f) (create_child cfg recurse p d)
         (fun _ => below cfg s0 p es0 K0 f) (empty_range cfg).
Proof.
  intros IH Hd Hdr s HI.
  pose proof (create_child_below cfg s0 recurse p d es0 K0 f
                (count_in p (edges (graph s))) IH Hd Hdr s (conj HI eq_refl)) as H.
  destruct (create_child cfg recurse p d s); auto. apply H.
Qed.

Lemma create_tree_below cfg s0 fuel : forall p d es0 K0 f,
  Z.max 0 (max_depth cfg - d) < Z.of_nat fuel ->
  0 <= d ->
  has_depth es0 (node_counter s0 + 1) p d ->
  triple (below cfg s0 p es0 K0 f) (create_tree cfg fuel p d)
         (fun _ => below cfg s0 p es0 K0 f) (empty_range cfg).
Proof.
  induction fuel as [|fuel IH]; intros p d es0 K0 f Hf Hd0 Hd; [lia|].
  intros s HI. simpl. destruct (d >=? max_depth cfg) eqn:E.
  - exact HI.
  - rewrite Z.geb_leb in E. apply Z.leb_gt in E.
    destruct (random_randint_cases (min_children cfg) (max_num_children cfg) s)
      as [[Hlt Er]|[Hle [n [Hn [_ Er]]]]].
    + rewrite (bind_raise _ _ _ _ _ Er). split; auto.
    + rewrite (bind_ok _ _ _ _ _ Er). unfold for_range.
      refine (triple_repeat _ _ (below cfg s0 p es0 K0 f) (empty_range cfg) _
                (set_rng (advance (rng s)) s) HI).
      apply create_child_keeps; [|exact Hd|lia].
      intros c es1 K1 f1 Hc. apply IH; [lia|lia|exact Hc].
Qed.

(** ** Finalisation and export *)

Lemma graph_ok_child_type cfg N K g n a :
  graph_ok cfg N K g -> In (n, a) (nodes g) -> n <> N + 1 ->
  node_type a = Some 1 \/ node_type a = Some 2.
Proof.
  intros H Hin Hn. destruct (ok_child _ _ _ _ H _ _ Hin Hn) as [d [_ [_ [_ Ht]]]].
  destruct Ht as [[Ht _]|[Ht _]]; auto.
Qed.

Lemma graph_ok_types cfg N K g n a :
  graph_ok cfg N K g -> In (n, a) (nodes g) ->
  node_type a = Some 0 \/ node_type a = Some 1 \/ node_type a = Some 2.
Proof.
  intros H Hin. destruct (Z.eq_dec n (N + 1)) as [->|Hn].
  - left. apply (ok_top _ _ _ _ H _ Hin).
  - right. eapply graph_ok_child_type; eauto.
Qed.

(** The colouring loop of [visualize_graph]. *)

Lemma node_color_ok a s :
  has_color a = true -> node_color a s = Ok (color_of_type (node_type a)) s.
Proof.
  unfold has_color, node_color, color_of_type. destruct (node_type a) as [t|]; [|discriminate].
  destruct t as [|[[p|p|]|[p|p|]|]|p]; simpl; intros H; try discriminate H; reflexivity.
Qed.

Lemma node_color_error a s : has_color a = false -> node_color a s = Raise KeyError s.
Proof.
  unfold has_color, node_color. destruct (node_type a) as [t|]; [|reflexivity].
  destruct (color_map t); [discriminate | reflexivity].
Qed.

Lemma node_colors_loop l : forall acc s,
  for_each l (fun (na : Z * Attrs) (acc : list (Z * Color)) =>
                bind (node_color (snd na)) (fun c => ret (acc ++ [(fst na, c)]))) acc s
  = if forallb has_color (map snd l)
    then Ok (acc ++ map (fun na => (fst na, color_of_type (node_type (snd na)))) l) s
    else Raise KeyError s.
Proof.
  induction l as [|[n a] l IH]; intros acc s.
  - simpl. rewrite List.app_nil_r. reflexivity.
  - cbn [for_each map forallb fst snd]. destruct (has_color a) eqn:E.
    + assert (Eb : bind (node_color a) (fun c => ret (acc ++ [(n, c)])) s
                   = Ok (acc ++ [(n, color_of_type (node_type a))]) s).
      { rewrite (bind_ok _ _ _ _ _ (node_color_ok a s E)). reflexivity. }
      rewrite (bind_ok _ _ _ _ _ Eb), IH. cbn [andb].
      destruct (forallb has_color (map snd l)); [|reflexivity].
      rewrite <- List.app_assoc. reflexivity.
    + assert (Eb : bind (node_color a) (fun c => ret (acc ++ [(n, c)])) s
                   = Raise KeyError s).
      { rewrite (bind_raise _ _ _ _ _ (node_color_error a s E)). reflexivity. }
      rewrite (bind_raise _ _ _ _ _ Eb). reflexivity.
Qed.

Lemma generated_has_color cfg N K g :
  graph_ok cfg N K g -> forallb has_color (map snd (nodes g)) = true.
Proof.
  intros H. apply forallb_forall. intros a Ha. apply in_map_iff in Ha.
  destruct Ha as [[n a'] [E Hin]]. simpl in E. subst a'.
  unfold has_color.
  destruct (graph_ok_types _ _ _ _ _ _ H Hin) as [E|[E|E]]; rewrite E; reflexivity.
Qed.

Lemma node_colors_outcome t :
  node_colors t =
  if forallb has_color (map snd (nodes (graph t)))
  then Ok (map (fun na => (fst na, color_of_type (node_type (snd na)))) (nodes (graph t))) t
  else Raise KeyError t.
Proof.
  unfold node_colors. erewrite bind_ok by reflexivity.
  rewrite node_colors_loop. reflexivity.
Qed.

Lemma has_color_set_degrees g l :
  forallb has_color (map snd (map (set_degrees g) l)) = forallb has_color (map snd l).
Proof.
  induction l as [|[n a] l IH]; [reflexivity|].
  cbn [map forallb snd set_degrees]. rewrite IH. reflexivity.
Qed.


Lemma print_nodes_loop (l : list (Z * Attrs)) : forall s,
  exists o, for_each l (fun node (_ : unit) => print (PrintNode (fst node) (snd node))) tt s
            = Ok tt (set_stdout o s).
Proof.
  induction l as [|x l IH]; intros s.
  - exists (stdout s). destruct s; reflexivity.
  - simpl. unfold print at 1. erewrite bind_ok by reflexivity.
    destruct (IH (set_stdout (stdout s ++ [PrintNode (fst x) (snd x)]) s)) as [o E].
    exists o. rewrite E. reflexivity.
Qed.

Lemma print_nodes_eq s : exists o, print_nodes s = Ok tt (set_stdout o s).
Proof. unfold print_nodes. erewrite bind_ok by reflexivity. apply print_nodes_loop. Qed.

(** The drawing: saved when every node has a colour, [KeyError] before
    anything is saved otherwise. *)
Lemma visualize_graph_outcome n t :
  visualize_graph n t =
  if forallb has_color (map snd (nodes (graph t)))
  then Ok tt (set_visualizations (visualizations t ++ [n]) t)
  else Raise KeyError t.
Proof.
  unfold visualize_graph, bind at 1. rewrite node_colors_outcome.
  destruct (forallb has_color (map snd (nodes (graph t)))); reflexivity.
Qed.

Lemma visualize_graph_ok n t :
  forallb has_color (map snd (nodes (graph t))) = true ->
  visualize_graph n t = Ok tt (set_visualizations (visualizations t ++ [n]) t).
Proof. intros H. rewrite visualize_graph_outcome, H. reflexivity. Qed.

Lemma finalise_finished cfg s2 :
  forallb has_color (map snd (nodes (graph s2))) = true ->
  exists s', bind add_meta_data (fun _ => bind calculate_node_features
                                            (fun _ => save_model cfg)) s2 = Ok tt s' /\
             finished s2 s'.
Proof.
  intros Hcol.
  unfold add_meta_data. erewrite bind_ok by reflexivity.
  unfold calculate_node_features, calculate_in_and_out_degrees.
  erewrite bind_ok by reflexivity.
  unfold save_model, write_data_config.
  erewrite bind_ok by (erewrite bind_ok by reflexivity; reflexivity).
  erewrite bind_ok by reflexivity.
  erewrite bind_ok by reflexivity.
  destruct (visualization cfg), (print_out cfg).
  - erewrite bind_ok
      by (apply visualize_graph_ok; cbn; rewrite has_color_set_degrees; exact Hcol).
    match goal with |- context [print_nodes ?s] => destruct (print_nodes_eq s) as [o E] end.
    eexists. split; [exact E|]. constructor; reflexivity.
  - erewrite bind_ok
      by (apply visualize_graph_ok; cbn; rewrite has_color_set_degrees; exact Hcol).
    eexists. split; [reflexivity|]. constructor; reflexivity.
  - erewrite bind_ok by reflexivity.
    match goal with |- context [print_nodes ?s] => destruct (print_nodes_eq s) as [o E] end.
    eexists. split; [exact E|]. constructor; reflexivity.
  - erewrite bind_ok by reflexivity.
    eexists. split; [reflexivity|]. constructor; reflexivity.
Qed.

(** ** One graph *)

Lemma top_created_wf cfg s g q r :
  graph s = empty_graph -> (g = 1 \/ g = 2) -> q = (-1)%Q ->
  wf cfg s (node_added 0 g q r s).
Proof.
  intros He Hg Hq. split.
  - repeat split.
  - simpl. rewrite He. unfold add_node. simpl.
    constructor; simpl.
    + lia.
    + replace (node_counter s + 1 - node_counter s) with 1 by lia. reflexivity.
    + reflexivity.
    + intros c p [].
    + intros a [Ha|[]]. inversion Ha; subst. simpl.
      repeat split; auto. destruct Hg as [-> | ->]; auto.
    + intros n a [Ha|[]] Hn. inversion Ha; subst. contradiction.
Qed.

Lemma generate_subgraph_outcome cfg s :
  graph s = empty_graph ->
  match generate_subgraph cfg s with
  | Ok _ s' => exists s2, wf cfg s s2 /\ finished s2 s'
  | Raise e s' => empty_range cfg e s'
  | OutOfFuel => False
  end.
Proof.
  intros He. unfold generate_subgraph.
  destruct (create_node_none 0 (-1) s) as [r [q [g [E [Hq Hg]]]]].
  simpl in Hq, Hg. rewrite (bind_ok _ _ _ _ _ E).
  pose proof (top_created_wf cfg s g q r He Hg Hq) as Hwf.
  assert (Hb : below cfg s (node_counter s + 1) [] (node_counter s) (fun _ => 0)
                 (node_added 0 g q r s)).
  { split; [exact Hwf|]. split; [intros x []|]. simpl. split; [lia|]. split; [lia|].
    intros x _ _. rewrite He. reflexivity. }
  pose proof (create_tree_below cfg s (S (Z.to_nat (max_depth cfg)))
                (node_counter s + 1) 0 [] (node_counter s) (fun _ => 0)
                ltac:(lia) ltac:(lia) (depth_root _ _) _ Hb) as Ht.
  unfold bind at 1.
  destruct (create_tree cfg (S (Z.to_nat (max_depth cfg))) (node_counter s + 1) 0
              (node_added 0 g q r s)) as [[] s2|e s2|]; auto.
  destruct (finalise_finished cfg s2 (generated_has_color _ _ _ _ (proj2 (proj1 Ht))))
    as [s' [Ef Hf]].
  rewrite Ef. exists s2. split; [apply Ht | exact Hf].
Qed.

Lemma set_degrees_fst g na : fst (set_degrees g na) = fst na.
Proof. destruct na; reflexivity. Qed.

Lemma in_set_degrees g l n a' :
  In (n, a') (map (set_degrees g) l) ->
  exists a, In (n, a) l /\ node_type a' = node_type a /\ gate_type a' = gate_type a /\
            node_probability a' = node_probability a /\
            in_degree a' = Some (graph_in_degree g n) /\
            out_degree a' = Some (graph_out_degree g n).
Proof.
  intros H. apply in_map_iff in H. destruct H as [[m a] [E Hin]].
  simpl in E. inversion E; subst. exists a. repeat split; auto.
Qed.

Lemma map_fst_set_degrees g l : map fst (map (set_degrees g) l) = map fst l.
Proof.
  rewrite map_map. apply map_ext. intros a. apply set_degrees_fst.
Qed.

(** Degrees are attributes only: the shape survives finalisation. *)
Lemma graph_ok_finished cfg N K g2 g' :
  graph_ok cfg N K g2 ->
  nodes g' = map (set_degrees g2) (nodes g2) ->
  edges g' = edges g2 ->
  graph_ok cfg N K g'.
Proof.
  intros H Hn He.
  assert (Hids : node_ids g' = node_ids g2).
  { unfold node_ids. rewrite Hn. apply map_fst_set_degrees. }
  constructor.
  - apply (ok_count _ _ _ _ H).
  - rewrite Hids. apply (ok_ids _ _ _ _ H).
  - rewrite Hids, He. apply (ok_src _ _ _ _ H).
  - rewrite He. apply (ok_edge _ _ _ _ H).
  - intros a Ha. rewrite Hn in Ha. apply in_set_degrees in Ha.
    destruct Ha as [a0 [Hin [-> [-> [-> _]]]]]. apply (ok_top _ _ _ _ H _ Hin).
  - intros n a Ha Hne. rewrite Hn in Ha. apply in_set_degrees in Ha.
    destruct Ha as [a0 [Hin [-> [-> [-> _]]]]]. rewrite He.
    apply (ok_child _ _ _ _ H _ _ Hin Hne).
Qed.

(** The facts every statement about a generated graph starts from. *)
Lemma generated_shape cfg N s' :
  generated cfg N s' ->
  exists s s2, graph s = empty_graph /\ node_counter s = N /\
    generate_subgraph cfg s = Ok tt s' /\
    same_world s s2 /\ finished s2 s' /\
    graph_ok cfg N (node_counter s') (graph s').
Proof.
  intros [s [He [HN E]]]. pose proof (generate_subgraph_outcome cfg s He) as H.
  rewrite E in H. destruct H as [s2 [[Hw Hg] Hf]].
  exists s, s2. split; [exact He|]. split; [exact HN|]. split; [exact E|].
  split; [exact Hw|]. split; [exact Hf|].
  rewrite (fin_node_counter _ _ Hf). subst N.
  eapply graph_ok_finished; eauto; apply Hf.
Qed.

(** With a non-empty fan-out range generation cannot fail. *)
Lemma generate_subgraph_returns cfg s :
  graph s = empty_graph ->
  min_children cfg <= max_num_children cfg ->
  exists s', generate_subgraph cfg s = Ok tt s'.
Proof.
  intros He Hr. pose proof (generate_subgraph_outcome cfg s He) as H.
  destruct (generate_subgraph cfg s) as [[] s'|e s'|].
  - exists s'. reflexivity.
  - destruct H as [_ H]. lia.
  - contradiction.
Qed.

(** ** Counting *)

Lemma graph_ok_length cfg N K g :
  graph_ok cfg N K g -> Z.of_nat (List.length (nodes g)) = K - N.
Proof.
  intros H. pose proof (ok_count _ _ _ _ H).
  rewrite <- (length_map fst). fold (node_ids g).
  rewrite (ok_ids _ _ _ _ H), zseq_length. lia.
Qed.

Lemma graph_ok_edges_length cfg N K g :
  graph_ok cfg N K g -> Z.of_nat (List.length (edges g)) = K - N - 1.
Proof.
  intros H. pose proof (ok_count _ _ _ _ H).
  rewrite <- (length_map fst), (ok_src _ _ _ _ H), (ok_ids _ _ _ _ H).
  destruct (Z.to_nat (K - N)) as [|m] eqn:E; [lia|].
  rewrite zseq_tl, zseq_length. lia.
Qed.

Lemma graph_ok_head cfg N K g :
  graph_ok cfg N K g ->
  exists a rest, nodes g = (N + 1, a) :: rest /\ node_type a = Some 0 /\
    (forall n b, In (n, b) rest -> n <> N + 1).
Proof.
  intros H. pose proof (ok_count _ _ _ _ H) as Hc.
  pose proof (ok_ids _ _ _ _ H) as Hi. unfold node_ids in Hi.
  destruct (Z.to_nat (K - N)) as [|m] eqn:E; [lia|].
  destruct (nodes g) as [|[n a] rest] eqn:En; [discriminate|].
  simpl in Hi. injection Hi as Hn Hrest. subst n. exists a, rest.
  split; [reflexivity|]. split.
  - apply (ok_top _ _ _ _ H). rewrite En. left. reflexivity.
  - intros n b Hin. assert (Hz : In n (zseq (N + 1 + 1) m)).
    { rewrite <- Hrest. apply in_map_iff. exists (n, b). auto. }
    apply zseq_In in Hz. lia.
Qed.

Lemma count_type_cons t n a l :
  count_type t ((n, a) :: l) =
  (match node_type a with Some u => if u =? t then 1 else 0 | None => 0 end) + count_type t l.
Proof.
  unfold count_type. simpl. destruct (node_type a) as [u|]; [|lia].
  destruct (u =? t); cbn [List.length]; lia.
Qed.

Lemma count_gate_cons t n a l :
  count_gate t ((n, a) :: l) =
  (match gate_type a with Some u => if u =? t then 1 else 0 | None => 0 end) + count_gate t l.
Proof.
  unfold count_gate. simpl. destruct (gate_type a) as [u|]; [|lia].
  destruct (u =? t); cbn [List.length]; lia.
Qed.

Lemma count_type_none t l :
  (forall n a, In (n, a) l -> node_type a <> Some t) -> count_type t l = 0.
Proof.
  induction l as [|[n a] l IH]; intros H; [reflexivity|].
  rewrite count_type_cons, IH by (intros; eapply H; right; eauto).
  pose proof (H n a (or_introl eq_refl)) as Ha.
  destruct (node_type a) as [u|]; [|reflexivity].
  destruct (u =? t) eqn:E; [|reflexivity].
  apply Z.eqb_eq in E. subst. congruence.
Qed.


Lemma graph_ok_one_top cfg N K g : graph_ok cfg N K g -> count_type 0 (nodes g) = 1.
Proof.
  intros H. destruct (graph_ok_head _ _ _ _ H) as [a [rest [En [Ha Hrest]]]].
  rewrite En, count_type_cons, Ha. simpl.
  rewrite count_type_none; [reflexivity|].
  intros n b Hin. assert (Hn : n <> N + 1) by (eapply Hrest; eauto).
  assert (Hin' : In (n, b) (nodes g)) by (rewrite En; right; exact Hin).
  destruct (graph_ok_child_type _ _ _ _ _ _ H Hin' Hn) as [E|E]; rewrite E; discriminate.
Qed.

(** ** Depth *)

Lemma edges_functional (es : list (Z * Z)) c p p' :
  NoDup (map fst es) -> In (c, p) es -> In (c, p') es -> p = p'.
Proof.
  induction es as [|[c0 p0] es IH]; intros Hnd H1 H2; [destruct H1|].
  simpl in Hnd. inversion Hnd as [|x l Hnotin Hnd']; subst.
  destruct H1 as [H1|H1], H2 as [H2|H2].
  - congruence.
  - inversion H1; subst. exfalso. apply Hnotin. apply in_map_iff. exists (c, p'). auto.
  - inversion H2; subst. exfalso. apply Hnotin. apply in_map_iff. exists (c, p). auto.
  - eauto.
Qed.

Lemma graph_ok_src_NoDup cfg N K g : graph_ok cfg N K g -> NoDup (map fst (edges g)).
Proof.
  intros H. rewrite (ok_src _ _ _ _ H), (ok_ids _ _ _ _ H).
  destruct (Z.to_nat (K - N)) as [|m]; simpl; [constructor | apply zseq_NoDup].
Qed.

Lemma graph_ok_root_no_parent cfg N K g p :
  graph_ok cfg N K g -> ~ In (N + 1, p) (edges g).
Proof.
  intros H Hin. apply (ok_edge _ _ _ _ H) in Hin. lia.
Qed.

Lemma graph_ok_depth_unique cfg N K g n d d' :
  graph_ok cfg N K g ->
  has_depth (edges g) (N + 1) n d -> has_depth (edges g) (N + 1) n d' -> d = d'.
Proof.
  intros H H1. revert d'. induction H1 as [|c p d Hin H1 IH]; intros d' H2.
  - inversion H2 as [|c p d0 Hin _]; subst; [reflexivity|].
    exfalso. eapply graph_ok_root_no_parent; eauto.
  - inversion H2 as [|c0 p' d0 Hin' H2']; subst.
    + exfalso. eapply graph_ok_root_no_parent; eauto.
    + assert (p = p') by (eapply edges_functional; eauto using graph_ok_src_NoDup).
      subst p'. rewrite (IH _ H2'). reflexivity.
Qed.

Lemma graph_ok_depth cfg N K g n :
  graph_ok cfg N K g -> 0 <= max_depth cfg -> In n (node_ids g) ->
  exists d, has_depth (edges g) (N + 1) n d /\ 0 <= d <= max_depth cfg.
Proof.
  intros H Hm Hin. destruct (Z.eq_dec n (N + 1)) as [->|Hn].
  - exists 0. split; [constructor | lia].
  - unfold node_ids in Hin. apply in_map_iff in Hin. destruct Hin as [[n' a] [E Hin]].
    simpl in E. subst n'.
    destruct (ok_child _ _ _ _ H _ _ Hin Hn) as [d [Hd [Hh _]]].
    exists d. split; [exact Hh | lia].
Qed.

Lemma graph_ok_depth_zero cfg N K g :
  graph_ok cfg N K g -> max_depth cfg <= 0 ->
  List.length (nodes g) = 1%nat /\ edges g = [].
Proof.
  intros H Hm. destruct (graph_ok_head _ _ _ _ H) as [a [rest [En [Ha Hrest]]]].
  assert (Hr : rest = []).
  { destruct rest as [|[n b] rest']; [reflexivity|]. exfalso.
    assert (Hin : In (n, b) (nodes g)) by (rewrite En; right; left; reflexivity).
    assert (Hn : n <> N + 1) by (eapply Hrest; left; reflexivity).
    destruct (ok_child _ _ _ _ H _ _ Hin Hn) as [d [Hd _]]. lia. }
  subst rest. split; [rewrite En; reflexivity|].
  pose proof (ok_src _ _ _ _ H) as Hs. unfold node_ids in Hs. rewrite En in Hs.
  simpl in Hs. destruct (edges g); [reflexivity | discriminate].
Qed.

(** * Properties of the specification *)

(** C5. For every valid configuration, generation from the empty graph
    returns, and the tree it leaves has exactly one TOP node, which is the
    first node created; every node has a depth (the length of its path of
    parent edges to the TOP node), that depth is unique and at most
    [max_depth]; there is at least one node; and with [max_depth = 0] the
    tree is the TOP node alone, without edges. *)
Theorem C5_one_top_depth_bounded cfg s :
  valid_config cfg ->
  graph s = empty_graph ->
  exists s', generate_subgraph cfg s = Ok tt s' /\
    count_type 0 (nodes (graph s')) = 1 /\
    (exists a rest, nodes (graph s') = (node_counter s + 1, a) :: rest /\
                    node_type a = Some 0) /\
    (forall n, In n (node_ids (graph s')) ->
       exists d, has_depth (edges (graph s')) (node_counter s + 1) n d /\
                 0 <= d <= max_depth cfg /\
                 forall d', has_depth (edges (graph s')) (node_counter s + 1) n d' -> d' = d) /\
    1 <= Z.of_nat (List.length (nodes (graph s'))) /\
    (max_depth cfg = 0 ->
       List.length (nodes (graph s')) = 1%nat /\ edges (graph s') = []).
Proof.
  intros [Hmin [Hrange [Hdepth Hnum]]] He.
  destruct (generate_subgraph_returns cfg s He Hrange) as [s' E].
  exists s'. split; [exact E|].
  destruct (generated_shape cfg (node_counter s) s') as [s1 [s2 [_ [_ [_ [_ [_ Hok]]]]]]].
  { exists s. auto. }
  split; [eapply graph_ok_one_top; eauto|].
  split.
  { destruct (graph_ok_head _ _ _ _ Hok) as [a [rest [En [Ha _]]]]. eauto. }
  split.
  { intros n Hin. destruct (graph_ok_depth _ _ _ _ n Hok Hdepth Hin) as [d [Hd Hr]].
    exists d. split; [exact Hd|]. split; [exact Hr|].
    intros d' Hd'. eapply graph_ok_depth_unique; eauto. }
  split.
  { rewrite (graph_ok_length _ _ _ _ Hok). pose proof (ok_count _ _ _ _ Hok). lia. }
  intros H0. apply (graph_ok_depth_zero _ _ _ _ Hok). lia.
Qed.

Lemma C5_witness :
  exists s', generate_subgraph main_config first_run = Ok tt s' /\
    count_type 0 (nodes (graph s')) = 1 /\
    (exists a rest, nodes (graph s') = (node_counter first_run + 1, a) :: rest /\
                    node_type a = Some 0) /\
    (forall n, In n (node_ids (graph s')) ->
       exists d, has_depth (edges (graph s')) (node_counter first_run + 1) n d /\
                 0 <= d <= max_depth main_config /\
                 forall d', has_depth (edges (graph s')) (node_counter first_run + 1) n d' ->
                            d' = d) /\
    1 <= Z.of_nat (List.length (nodes (graph s'))) /\
    (max_depth main_config = 0 ->
       List.length (nodes (graph s')) = 1%nat /\ edges (graph s') = []).
Proof.
  apply (C5_one_top_depth_bounded main_config first_run).
  - unfold valid_config; simpl; lia.
  - reflexivity.
Defined.

Lemma first_generated_eq : generate_subgraph main_config first_run = Ok tt first_generated.
Proof. vm_compute. reflexivity. Qed.

(** ** Degrees *)

Lemma count_out_map n es :
  count_out n es = Z.of_nat (List.length (filter (fun x => x =? n) (map fst es))).
Proof.
  unfold count_out. f_equal. induction es as [|e es IH]; simpl; auto.
  destruct (fst e =? n); simpl; auto.
Qed.

Lemma filter_eqb_NoDup n (l : list Z) :
  NoDup l ->
  List.length (filter (fun x => x =? n) l) = if existsb (Z.eqb n) l then 1%nat else 0%nat.
Proof.
  induction 1 as [|x l Hx Hnd IH]; simpl; [reflexivity|].
  rewrite (Z.eqb_sym n x). destruct (x =? n) eqn:E; simpl.
  - apply Z.eqb_eq in E. subst x. rewrite IH.
    rewrite existsb_eqb_false by assumption. reflexivity.
  - exact IH.
Qed.

Lemma graph_ok_out_degree cfg N K g n :
  graph_ok cfg N K g -> In n (node_ids g) ->
  graph_out_degree g n = if n =? N + 1 then 0 else 1.
Proof.
  intros H Hin. unfold graph_out_degree. rewrite count_out_map.
  rewrite filter_eqb_NoDup by (eapply graph_ok_src_NoDup; eauto).
  apply (graph_ok_ids_range _ _ _ _ _ H) in Hin.
  destruct (n =? N + 1) eqn:E.
  - apply Z.eqb_eq in E. rewrite existsb_eqb_false; [reflexivity|].
    rewrite (graph_ok_src_range _ _ _ _ _ H). lia.
  - apply Z.eqb_neq in E. rewrite existsb_eqb_true; [reflexivity|].
    rewrite (graph_ok_src_range _ _ _ _ _ H). lia.
Qed.

Lemma zsum_cons x l : zsum (x :: l) = x + zsum l.
Proof. reflexivity. Qed.

Lemma zsum_indicator_out x (l : list Z) :
  ~ In x l -> zsum (map (fun n => if x =? n then 1 else 0) l) = 0.
Proof.
  induction l as [|z l IH]; intros Hx; [reflexivity|].
  simpl map. rewrite zsum_cons, IH by (intros Hc; apply Hx; right; exact Hc).
  destruct (x =? z) eqn:E; [|reflexivity].
  apply Z.eqb_eq in E. subst. exfalso. apply Hx. left. reflexivity.
Qed.

Lemma zsum_indicator x (l : list Z) :
  NoDup l -> In x l -> zsum (map (fun n => if x =? n then 1 else 0) l) = 1.
Proof.
  induction 1 as [|y l Hy Hnd IH]; intros Hin; [destruct Hin|].
  simpl map. rewrite zsum_cons. destruct Hin as [->|Hin].
  - rewrite Z.eqb_refl, zsum_indicator_out by assumption. reflexivity.
  - destruct (x =? y) eqn:E.
    + apply Z.eqb_eq in E. subst. contradiction.
    + rewrite IH by assumption. reflexivity.
Qed.

Lemma zsum_add (f h : Z -> Z) (l : list Z) :
  zsum (map (fun n => f n + h n) l) = zsum (map f l) + zsum (map h l).
Proof.
  induction l as [|x l IH]; [reflexivity|].
  simpl map. rewrite !zsum_cons, IH. lia.
Qed.

(** Counting every edge once at its end point selected by [sel]. *)
Lemma zsum_count (sel : Z * Z -> Z) (ids : list Z) (es : list (Z * Z)) :
  NoDup ids -> (forall e, In e es -> In (sel e) ids) ->
  zsum (map (fun n => Z.of_nat (List.length (filter (fun e => sel e =? n) es))) ids)
  = Z.of_nat (List.length es).
Proof.
  intros Hnd. induction es as [|e es IH]; intros Hin.
  - clear. simpl. induction ids as [|i ids IHi]; [reflexivity|].
    simpl map. rewrite zsum_cons, IHi. reflexivity.
  - rewrite (map_ext _ (fun n => (if sel e =? n then 1 else 0)
               + Z.of_nat (List.length (filter (fun e0 => sel e0 =? n) es)))).
    + rewrite zsum_add, IH by (intros; apply Hin; right; assumption).
      rewrite zsum_indicator; auto.
      * cbn [List.length]. lia.
      * apply Hin. left. reflexivity.
    + intros n. simpl. destruct (sel e =? n); cbn [List.length]; lia.
Qed.

Lemma sum_degrees_finished (g2 g' : Graph) :
  nodes g' = map (set_degrees g2) (nodes g2) ->
  sum_in_degree g' = zsum (map (fun n => count_in n (edges g2)) (node_ids g2)) /\
  sum_out_degree g' = zsum (map (fun n => count_out n (edges g2)) (node_ids g2)).
Proof.
  intros Hn. unfold sum_in_degree, sum_out_degree, node_ids, zsum. rewrite Hn.
  rewrite !map_map. split; f_equal; apply map_ext; intros [n a]; reflexivity.
Qed.

Lemma generated_intro cfg s s' :
  graph s = empty_graph -> generate_subgraph cfg s = Ok tt s' ->
  generated cfg (node_counter s) s'.
Proof. intros He E. exists s. auto. Qed.

Lemma graph_ok_ids_NoDup cfg N K g : graph_ok cfg N K g -> NoDup (node_ids g).
Proof. intros H. rewrite (ok_ids _ _ _ _ H). apply zseq_NoDup. Qed.

Lemma graph_ok_edge_ends cfg N K g c p :
  graph_ok cfg N K g -> In (c, p) (edges g) ->
  In c (node_ids g) /\ In p (node_ids g) /\ c <> N + 1 /\ p < c.
Proof.
  intros H Hin. pose proof (ok_edge _ _ _ _ H _ _ Hin) as Hp.
  assert (Hc : In c (map fst (edges g))).
  { apply in_map_iff. exists (c, p). auto. }
  apply (graph_ok_src_range _ _ _ _ _ H) in Hc.
  rewrite !(graph_ok_ids_range _ _ _ _ _ H). lia.
Qed.

(** C6. In every generated graph the sources of the edges are exactly the
    non-root nodes, each once and in creation order, and every edge leads
    from a node to an earlier node; hence there are (number of nodes) - 1
    edges, every non-root node has out-degree 1 and the root out-degree 0;
    [calculate_in_and_out_degrees] stores each node's two degrees, and both
    the stored in-degrees and the stored out-degrees sum to the number of
    edges. *)
Theorem C6_edges_and_degrees cfg s s' :
  graph s = empty_graph ->
  generate_subgraph cfg s = Ok tt s' ->
  map fst (edges (graph s')) = tl (node_ids (graph s')) /\
  (forall c p, In (c, p) (edges (graph s')) ->
     In c (node_ids (graph s')) /\ In p (node_ids (graph s')) /\
     c <> node_counter s + 1 /\ p < c) /\
  Z.of_nat (List.length (edges (graph s'))) = Z.of_nat (List.length (nodes (graph s'))) - 1 /\
  (forall n, In n (node_ids (graph s')) -> n <> node_counter s + 1 ->
     graph_out_degree (graph s') n = 1) /\
  graph_out_degree (graph s') (node_counter s + 1) = 0 /\
  (forall n a, In (n, a) (nodes (graph s')) ->
     in_degree a = Some (graph_in_degree (graph s') n) /\
     out_degree a = Some (graph_out_degree (graph s') n)) /\
  sum_in_degree (graph s') = Z.of_nat (List.length (edges (graph s'))) /\
  sum_out_degree (graph s') = Z.of_nat (List.length (edges (graph s'))).
Proof.
  intros He E.
  destruct (generated_shape cfg _ s' (generated_intro _ _ _ He E))
    as [s1 [s2 [_ [_ [_ [_ [Hf Hok]]]]]]].
  pose proof (ok_count _ _ _ _ Hok) as Hc.
  assert (Hids : node_ids (graph s') = node_ids (graph s2)).
  { unfold node_ids. rewrite (fin_nodes _ _ Hf). apply map_fst_set_degrees. }
  split; [apply (ok_src _ _ _ _ Hok)|].
  split; [intros c p Hin; eapply graph_ok_edge_ends; eauto|].
  split.
  { rewrite (graph_ok_edges_length _ _ _ _ Hok), (graph_ok_length _ _ _ _ Hok). lia. }
  split.
  { intros n Hin Hn. rewrite (graph_ok_out_degree _ _ _ _ _ Hok Hin).
    apply Z.eqb_neq in Hn. rewrite Hn. reflexivity. }
  split.
  { rewrite (graph_ok_out_degree _ _ _ _ _ Hok), Z.eqb_refl; [reflexivity|].
    apply (graph_ok_ids_range _ _ _ _ _ Hok). lia. }
  split.
  { intros n a Hin. rewrite (fin_nodes _ _ Hf) in Hin. apply in_set_degrees in Hin.
    destruct Hin as [a0 [_ [_ [_ [_ [Hi Ho]]]]]].
    unfold graph_in_degree, graph_out_degree in *.
    rewrite (fin_edges _ _ Hf). auto. }
  destruct (sum_degrees_finished (graph s2) (graph s') (fin_nodes _ _ Hf)) as [Hi Ho].
  rewrite Hi, Ho, <- Hids, <- (fin_edges _ _ Hf).
  split.
  - apply (zsum_count snd); [eapply graph_ok_ids_NoDup; eauto|].
    intros [c p] Hin. simpl.
    destruct (graph_ok_edge_ends _ _ _ _ _ _ Hok Hin) as [_ [Hp _]]. exact Hp.
  - apply (zsum_count fst); [eapply graph_ok_ids_NoDup; eauto|].
    intros [c p] Hin. simpl.
    destruct (graph_ok_edge_ends _ _ _ _ _ _ Hok Hin) as [Hs _]. exact Hs.
Qed.

Lemma C6_witness :
  map fst (edges (graph first_generated)) = tl (node_ids (graph first_generated)) /\
  (forall c p, In (c, p) (edges (graph first_generated)) ->
     In c (node_ids (graph first_generated)) /\ In p (node_ids (graph first_generated)) /\
     c <> node_counter first_run + 1 /\ p < c) /\
  Z.of_nat (List.length (edges (graph first_generated)))
    = Z.of_nat (List.length (nodes (graph first_generated))) - 1 /\
  (forall n, In n (node_ids (graph first_generated)) -> n <> node_counter first_run + 1 ->
     graph_out_degree (graph first_generated) n = 1) /\
  graph_out_degree (graph first_generated) (node_counter first_run + 1) = 0 /\
  (forall n a, In (n, a) (nodes (graph first_generated)) ->
     in_degree a = Some (graph_in_degree (graph first_generated) n) /\
     out_degree a = Some (graph_out_degree (graph first_generated) n)) /\
  sum_in_degree (graph first_generated)
    = Z.of_nat (List.length (edges (graph first_generated))) /\
  sum_out_degree (graph first_generated)
    = Z.of_nat (List.length (edges (graph first_generated))).
Proof.
  apply (C6_edges_and_degrees main_config first_run first_generated).
  - reflexivity.
  - vm_compute. reflexivity.
Defined.

(** ** Gate types *)

(** In a generated graph the gate attribute of every node but the root is
    the node's depth, whatever its type. *)
Lemma generated_gate_is_depth cfg s s' :
  graph s = empty_graph ->
  generate_subgraph cfg s = Ok tt s' ->
  forall n a, In (n, a) (nodes (graph s')) -> n <> node_counter s + 1 ->
    exists d, 1 <= d /\ has_depth (edges (graph s')) (node_counter s + 1) n d /\
              gate_type a = Some d.
Proof.
  intros He E n a Hin Hn.
  destruct (generated_shape cfg _ s' (generated_intro _ _ _ He E))
    as [s1 [s2 [_ [_ [_ [_ [Hf Hok]]]]]]].
  destruct (ok_child _ _ _ _ Hok _ _ Hin Hn) as [d [Hd [Hh [Hg _]]]].
  exists d. repeat split; auto; lia.
Qed.

(** C1, at the failing input. With [max_num_children = min_children = 2]
    and [max_depth = 1] on a first run, the generated graph has the TOP node
    1 and the two LEAF nodes 2 and 3, and both leaves carry gate type 1 (AND),
    the depth [create_tree] passed in the gate position, instead of the
    dummy value 0. *)
Theorem C1_leaf_gate_is_not_none :
  exists s', generate_subgraph scenario_config first_run = Ok tt s' /\
    map node_summary (nodes (graph s')) =
      [(1, Some 0, Some 2); (2, Some 2, Some 1); (3, Some 2, Some 1)].
Proof. eexists. split; vm_compute; reflexivity. Qed.

(** ** Metadata *)

Lemma bump_indicator k c :
  bump k c = (count0 c + indicator k 0, count1 c + indicator k 1, count2 c + indicator k 2).
Proof.
  destruct c as [[c0 c1] c2]. unfold bump, indicator, count0, count1, count2. simpl.
  destruct k as [[|[p|[p|p|]|]|p]|]; simpl; rewrite ?Z.add_0_r; reflexivity.
Qed.

Lemma count_loop_tallies l : forall nc gc,
  count_loop l nc gc =
  ((count0 nc + count_type 0 l, count1 nc + count_type 1 l, count2 nc + count_type 2 l),
   (count0 gc + count_gate 0 l, count1 gc + count_gate 1 l, count2 gc + count_gate 2 l)).
Proof.
  induction l as [|[n a] l IH]; intros [[n0 n1] n2] [[g0 g1] g2].
  - unfold count_type, count_gate, count0, count1, count2. simpl.
    rewrite !Z.add_0_r. reflexivity.
  - simpl count_loop. rewrite IH, !bump_indicator.
    rewrite !count_type_cons, !count_gate_cons.
    unfold indicator, count0, count1, count2. simpl.
    apply f_equal2; (apply f_equal2; [apply f_equal2|]); lia.
Qed.

Lemma count_type_set_degrees g t l :
  count_type t (map (set_degrees g) l) = count_type t l.
Proof.
  induction l as [|[n a] l IH]; [reflexivity|].
  simpl map. rewrite !count_type_cons, IH. reflexivity.
Qed.

Lemma count_gate_set_degrees g t l :
  count_gate t (map (set_degrees g) l) = count_gate t l.
Proof.
  induction l as [|[n a] l IH]; [reflexivity|].
  simpl map. rewrite !count_gate_cons, IH. reflexivity.
Qed.

Lemma count_type_total l :
  (forall n a, In (n, a) l ->
     node_type a = Some 0 \/ node_type a = Some 1 \/ node_type a = Some 2) ->
  count_type 0 l + count_type 1 l + count_type 2 l = Z.of_nat (List.length l).
Proof.
  induction l as [|[n a] l IH]; intros H; [reflexivity|].
  rewrite !count_type_cons. cbn [List.length]. rewrite Nat2Z.inj_succ.
  rewrite <- IH by (intros; eapply H; right; eauto).
  destruct (H n a (or_introl eq_refl)) as [E|[E|E]]; rewrite E;
    change (0 =? 0) with true; change (0 =? 1) with false; change (0 =? 2) with false;
    change (1 =? 0) with false; change (1 =? 1) with true; change (1 =? 2) with false;
    change (2 =? 0) with false; change (2 =? 1) with false; change (2 =? 2) with true;
    cbv iota; lia.
Qed.


(** C2, as amended. In every generated graph the metadata counts are the
    tallies of the nodes by type and by gate; there is one TOP node, and
    [num_intermediate_nodes + num_leaf_nodes + 1] is the number of nodes of
    the graph; [num_nodes] is the run-wide node counter, that is the counter
    [N] read at reset plus the number of nodes of the graph. *)
Theorem C2_metadata_tallies cfg s s' :
  graph s = empty_graph ->
  generate_subgraph cfg s = Ok tt s' ->
  num_top_nodes (meta (graph s')) = Some 1 /\
  num_intermediate_nodes (meta (graph s')) = Some (count_type 1 (nodes (graph s'))) /\
  num_leaf_nodes (meta (graph s')) = Some (count_type 2 (nodes (graph s'))) /\
  num_and_gates (meta (graph s')) = Some (count_gate 1 (nodes (graph s'))) /\
  num_or_gates (meta (graph s')) = Some (count_gate 2 (nodes (graph s'))) /\
  count_type 1 (nodes (graph s')) + count_type 2 (nodes (graph s')) + 1
    = Z.of_nat (List.length (nodes (graph s'))) /\
  num_nodes (meta (graph s'))
    = Some (node_counter s + Z.of_nat (List.length (nodes (graph s')))).
Proof.
  intros He E.
  destruct (generated_shape cfg _ s' (generated_intro _ _ _ He E))
    as [s1 [s2 [_ [_ [_ [_ [Hf Hok]]]]]]].
  pose proof (graph_ok_one_top _ _ _ _ Hok) as Htop.
  pose proof (count_type_total (nodes (graph s'))
                (fun n a => graph_ok_types _ _ _ _ n a Hok)) as Htot.
  pose proof (graph_ok_length _ _ _ _ Hok) as Hlen.
  pose proof (fin_node_counter _ _ Hf) as Hnc.
  rewrite (fin_meta _ _ Hf). cbn [num_top_nodes num_intermediate_nodes num_leaf_nodes
                                  num_and_gates num_or_gates num_nodes].
  unfold count_nodes_and_gates. rewrite count_loop_tallies.
  cbn [fst snd count0 count1 count2].
  rewrite (fin_nodes _ _ Hf) in *.
  rewrite ?count_type_set_degrees, ?count_gate_set_degrees in *.
  rewrite length_map in *.
  rewrite Htop.
  split; [reflexivity|]. split; [reflexivity|]. split; [reflexivity|].
  split; [reflexivity|]. split; [reflexivity|]. split; [lia|].
  f_equal. lia.
Qed.

Lemma C2_witness :
  num_top_nodes (meta (graph first_generated)) = Some 1 /\
  num_intermediate_nodes (meta (graph first_generated))
    = Some (count_type 1 (nodes (graph first_generated))) /\
  num_leaf_nodes (meta (graph first_generated))
    = Some (count_type 2 (nodes (graph first_generated))) /\
  num_and_gates (meta (graph first_generated))
    = Some (count_gate 1 (nodes (graph first_generated))) /\
  num_or_gates (meta (graph first_generated))
    = Some (count_gate 2 (nodes (graph first_generated))) /\
  count_type 1 (nodes (graph first_generated)) + count_type 2 (nodes (graph first_generated)) + 1
    = Z.of_nat (List.length (nodes (graph first_generated))) /\
  num_nodes (meta (graph first_generated))
    = Some (node_counter first_run + Z.of_nat (List.length (nodes (graph first_generated)))).
Proof.
  apply (C2_metadata_tallies main_config first_run first_generated).
  - reflexivity.
  - vm_compute. reflexivity.
Defined.

(** C2, as stated, fails: on a run whose counters file records 5 nodes, the
    scenario configuration yields a graph of three nodes (one TOP, two LEAF)
    whose metadata has [num_nodes = 8] and [num_and_gates + num_or_gates = 3]
    against [num_intermediate_nodes + 1 = 1]. *)
Lemma C2_counterexample :
  exists s', bind reset (fun _ => generate_subgraph scenario_config) later_run = Ok tt s' /\
    map node_summary (nodes (graph s')) =
      [(6, Some 0, Some 2); (7, Some 2, Some 1); (8, Some 2, Some 1)] /\
    num_nodes (meta (graph s')) = Some 8 /\
    num_intermediate_nodes (meta (graph s')) = Some 0 /\
    num_leaf_nodes (meta (graph s')) = Some 2 /\
    num_and_gates (meta (graph s')) = Some 2 /\
    num_or_gates (meta (graph s')) = Some 1 /\
    ~ meta_consistent (meta (graph s')).
Proof.
  eexists. split; [vm_compute; reflexivity|].
  repeat (split; [vm_compute; reflexivity|]).
  intros [nn [ni [nl [na [no [H1 [H2 [H3 [H4 [H5 [H6 H7]]]]]]]]]]].
  vm_compute in H1, H2, H3, H4, H5.
  inversion H1; inversion H2; inversion H3; inversion H4; inversion H5; subst. lia.
Qed.

(** ** Leaf probabilities *)

Lemma uniform_of_range k : (0 <= uniform_of k)%Q /\ (uniform_of k < 1)%Q.
Proof.
  unfold uniform_of.
  pose proof (Z.mod_pos_bound (Z.of_N k) (Zpos two53) eq_refl) as Hm.
  set (m := Z.of_N k mod Zpos two53) in *.
  unfold Qle, Qlt. cbn [Qnum Qden]. lia.
Qed.

Lemma sample_of_power k : (sample_of k == uniform_of k ^ 10)%Q.
Proof.
  unfold sample_of.
  assert (H : (0 + (1 - 0) * uniform_of k == uniform_of k)%Q) by ring.
  rewrite H. reflexivity.
Qed.

Lemma sample_of_range k : (0 <= sample_of k)%Q /\ (sample_of k < 1)%Q.
Proof.
  destruct (uniform_of_range k) as [H0 H1].
  rewrite sample_of_power. split; [apply Qpower_0_le; exact H0|].
  unfold uniform_of in *.
  pose proof (Z.mod_pos_bound (Z.of_N k) (Zpos two53) eq_refl) as Hm.
  set (m := Z.of_N k mod Zpos two53) in *.
  rewrite Qpower_decomp_pos. unfold Qlt. cbn [Qnum Qden].
  rewrite Pos2Z.inj_pow.
  pose proof (Z.pow_lt_mono_l m (Zpos two53) 10 ltac:(lia) Hm). lia.
Qed.


Lemma create_leaf_eq gt p s :
  create_node 2 gt p s =
  Ok (node_counter s + 1)
     (node_added 2 (match gt with Some g => g | None => 0 end)
        (sample_of (peek (rng s))) (advance (rng s)) s).
Proof. destruct gt; reflexivity. Qed.

(** C8, as amended. The sampler returns [u^10] for the uniform draw [u],
    which lies in [0, 1), and so does the result: it is 0 when [u] is 0. A
    LEAF node created by [create_node] stores the value the sampler returns
    at that moment; in every generated graph each LEAF node stores such a
    sample, in [0, 1), and every other node stores the sentinel -1. *)
Theorem C8_leaf_probability cfg s s' :
  graph s = empty_graph ->
  generate_subgraph cfg s = Ok tt s' ->
  (forall t, exists u,
     biased_random_low_number t = Ok (sample_of (peek (rng t))) (set_rng (advance (rng t)) t) /\
     u = uniform_of (peek (rng t)) /\ (0 <= u)%Q /\ (u < 1)%Q /\
     (sample_of (peek (rng t)) == u ^ 10)%Q /\
     (0 <= sample_of (peek (rng t)))%Q /\ (sample_of (peek (rng t)) < 1)%Q) /\
  (forall gt p t,
     create_node 2 gt p t =
     Ok (node_counter t + 1)
        (node_added 2 (match gt with Some g => g | None => 0 end)
           (sample_of (peek (rng t))) (advance (rng t)) t)) /\
  (forall n a, In (n, a) (nodes (graph s')) ->
     (node_type a = Some 2 ->
        exists k, node_probability a = Some (sample_of k) /\
                  (sample_of k == uniform_of k ^ 10)%Q /\
                  (0 <= sample_of k)%Q /\ (sample_of k < 1)%Q) /\
     (node_type a <> Some 2 -> node_probability a = Some (-1)%Q)).
Proof.
  intros He E. split; [|split].
  - intros t. exists (uniform_of (peek (rng t))).
    destruct (uniform_of_range (peek (rng t))) as [H0 H1].
    destruct (sample_of_range (peek (rng t))) as [H2 H3].
    repeat split; auto. apply sample_of_power.
  - intros gt p t. apply create_leaf_eq.
  - intros n a Hin.
    destruct (generated_shape cfg _ s' (generated_intro _ _ _ He E))
      as [s1 [s2 [_ [_ [_ [_ [Hf Hok]]]]]]].
    destruct (Z.eq_dec n (node_counter s + 1)) as [->|Hn].
    + destruct (ok_top _ _ _ _ Hok _ Hin) as [Ht [_ Hp]].
      split; [rewrite Ht; discriminate | intros _; exact Hp].
    + destruct (ok_child _ _ _ _ Hok _ _ Hin Hn) as [d [_ [_ [_ Hc]]]].
      destruct Hc as [[Ht [Hp _]]|[Ht [k Hp]]].
      * split; [rewrite Ht; discriminate | intros _; exact Hp].
      * split; [|intros Hc; contradiction].
        intros _. exists k. destruct (sample_of_range k).
        repeat split; auto. apply sample_of_power.
Qed.

Lemma C8_witness :
  (forall t, exists u,
     biased_random_low_number t = Ok (sample_of (peek (rng t))) (set_rng (advance (rng t)) t) /\
     u = uniform_of (peek (rng t)) /\ (0 <= u)%Q /\ (u < 1)%Q /\
     (sample_of (peek (rng t)) == u ^ 10)%Q /\
     (0 <= sample_of (peek (rng t)))%Q /\ (sample_of (peek (rng t)) < 1)%Q) /\
  (forall gt p t,
     create_node 2 gt p t =
     Ok (node_counter t + 1)
        (node_added 2 (match gt with Some g => g | None => 0 end)
           (sample_of (peek (rng t))) (advance (rng t)) t)) /\
  (forall n a, In (n, a) (nodes (graph first_generated)) ->
     (node_type a = Some 2 ->
        exists k, node_probability a = Some (sample_of k) /\
                  (sample_of k == uniform_of k ^ 10)%Q /\
                  (0 <= sample_of k)%Q /\ (sample_of k < 1)%Q) /\
     (node_type a <> Some 2 -> node_probability a = Some (-1)%Q)).
Proof.
  apply (C8_leaf_probability main_config first_run first_generated).
  - reflexivity.
  - vm_compute. reflexivity.
Defined.

(** C8, as stated, fails: when the uniform draw is 0 the sampler returns 0,
    and the scenario configuration on a tape of zeros generates LEAF node 2
    with stored probability 0, outside the open interval (0, 1). *)
Lemma C8_counterexample :
  (exists q t, biased_random_low_number zero_run = Ok q t /\ (q == 0)%Q) /\
  exists s' a q,
    generate_subgraph scenario_config zero_run = Ok tt s' /\
    In (2, a) (nodes (graph s')) /\ node_type a = Some 2 /\
    node_probability a = Some q /\ ~ (0 < q /\ q < 1)%Q.
Proof.
  split.
  - eexists. eexists. split; [vm_compute; reflexivity|]. reflexivity.
  - eexists. eexists. eexists.
    split; [vm_compute; reflexivity|].
    split; [right; left; reflexivity|].
    split; [reflexivity|]. split; [reflexivity|].
    intros [H _]. vm_compute in H. discriminate.
Qed.

(** ** One call of [create_tree] *)

Lemma triple_repeat_count (n : nat) (body : M unit) (I : Z -> State -> Prop) R :
  (forall i, triple (I i) body (fun _ => I (i + 1)) R) ->
  forall i, triple (I i) (repeat_body n body) (fun _ => I (i + Z.of_nat n)) R.
Proof.
  intros Hb. induction n as [|n IH]; intros i.
  - simpl. apply triple_ret. intros s Hs. replace (i + 0) with i by lia. exact Hs.
  - cbn [repeat_body]. eapply triple_bind; [apply Hb|]. intros [].
    eapply triple_weaken; [apply (IH (i + 1)) | auto | | auto].
    intros a s Hs. replace (i + Z.of_nat (S n)) with (i + 1 + Z.of_nat n) by lia. exact Hs.
Qed.

Lemma create_tree_children cfg s0 fuel p d es0 K0 f s :
  0 <= d < max_depth cfg ->
  max_depth cfg - d <= Z.of_nat fuel ->
  has_depth es0 (node_counter s0 + 1) p d ->
  below cfg s0 p es0 K0 f s ->
  min_children cfg <= max_num_children cfg ->
  exists n s', min_children cfg <= n <= max_num_children cfg /\
    n = fan_out_of cfg (peek (rng s)) /\
    create_tree cfg (S fuel) p d s = Ok tt s' /\
    below cfg s0 p es0 K0 f s' /\
    count_in p (edges (graph s')) = count_in p (edges (graph s)) + Z.max 0 n.
Proof.
  intros Hdr Hf Hd HI Hr. cbn [create_tree].
  destruct (d >=? max_depth cfg) eqn:E.
  { rewrite Z.geb_leb in E. apply Z.leb_le in E. lia. }
  destruct (random_randint_cases (min_children cfg) (max_num_children cfg) s)
    as [[Hlt _]|[_ [n [Hn [Hnv Er]]]]]; [lia|].
  rewrite (bind_ok _ _ _ _ _ Er). unfold for_range.
  pose (I := fun i t => below cfg s0 p es0 K0 f t /\
                        count_in p (edges (graph t)) = count_in p (edges (graph s)) + i).
  assert (Hbody : forall i, triple (I i)
            (create_child cfg (create_tree cfg fuel) p d)
            (fun _ => I (i + 1)) (empty_range cfg)).
  { intros i. eapply triple_weaken.
    - apply (create_child_below cfg s0 (create_tree cfg fuel) p d es0 K0 f
               (count_in p (edges (graph s)) + i)); [|exact Hd|exact Hdr].
      intros c es1 K1 f1 Hc. apply create_tree_below; [lia|lia|exact Hc].
    - intros t Ht. exact Ht.
    - intros a t [Hb Hc]. split; [exact Hb|]. rewrite Hc. lia.
    - auto. }
  pose proof (triple_repeat_count (Z.to_nat n) _ I _ Hbody 0
                (set_rng (advance (rng s)) s)) as H.
  assert (H0 : I 0 (set_rng (advance (rng s)) s)).
  { split; [exact HI|]. simpl. lia. }
  specialize (H H0).
  destruct (repeat_body (Z.to_nat n) (create_child cfg (create_tree cfg fuel) p d)
              (set_rng (advance (rng s)) s)) as [[] s'|e s'|].
  - exists n, s'. destruct H as [Hb Hc].
    split; [exact Hn|]. split; [exact Hnv|]. split; [reflexivity|].
    split; [exact Hb|]. rewrite Hc. lia.
  - destruct H as [_ H]. lia.
  - contradiction.
Qed.





Lemma Qltb_lt x y : Qltb x y = true <-> (x < y)%Q.
Proof.
  unfold Qltb. rewrite negb_true_iff. split.
  - intros H. apply Qnot_le_lt. intros Hc. apply Qle_bool_iff in Hc. congruence.
  - intros H. destruct (Qle_bool y x) eqn:E; [|reflexivity].
    apply Qle_bool_iff in E. exfalso. apply (Qlt_not_le _ _ H E).
Qed.


(** With [max_depth = 5] at depth 2 the floats compute a threshold just
    below 3/5: the draw 5404319552844595 / 2^53 is below [1 - 2/5] and yet
    makes a LEAF. *)
Lemma threshold_rounds_down :
  forall cfg, max_depth cfg = 5 ->
    (threshold cfg 2 == 5404319552844595 # two53)%Q /\
    (5404319552844595 # two53 < 1 - inject_Z 2 / inject_Z (max_depth cfg))%Q /\
    Qltb (5404319552844595 # two53) (threshold cfg 2) = false.
Proof.
  intros cfg E. unfold threshold. rewrite E. vm_compute. repeat split; discriminate.
Qed.




Lemma top_created_eq : create_node 0 None (-1) first_run = Ok 1 top_created.
Proof. vm_compute. reflexivity. Qed.

(** ** Exceptions of tree construction *)

Lemma only_value_error_ret {A} (a : A) : only_value_error (ret a).
Proof. intros s e s' H. discriminate. Qed.

Lemma only_value_error_bind {A B} (m : M A) (k : A -> M B) :
  only_value_error m -> (forall a, only_value_error (k a)) ->
  only_value_error (bind m k).
Proof.
  intros Hm Hk s e s' H. unfold bind in H.
  destruct (m s) as [a s1|e1 s1|] eqn:E.
  - eapply Hk; eauto.
  - inversion H; subst. eapply Hm; eauto.
  - discriminate.
Qed.

Lemma only_value_error_repeat n (body : M unit) :
  only_value_error body -> only_value_error (repeat_body n body).
Proof.
  intros Hb. induction n as [|n IH]; simpl.
  - apply only_value_error_ret.
  - apply only_value_error_bind; auto.
Qed.

Lemma only_value_error_create_node nt gt p : only_value_error (create_node nt gt p).
Proof.
  intros s e s' H. destruct gt as [g|].
  - destruct (create_node_some nt g p s) as [r [q [E _]]]. congruence.
  - destruct (create_node_none nt p s) as [r [q [g [E _]]]]. congruence.
Qed.

Lemma only_value_error_decide cfg d :
  0 <= d < max_depth cfg -> only_value_error (decide_is_intermediate cfg d).
Proof.
  intros Hd s e s' H.
  destruct (decide_is_intermediate_cases cfg d s Hd) as [[_ E]|[_ E]]; congruence.
Qed.

Lemma only_value_error_create_child cfg recurse p d :
  0 <= d < max_depth cfg ->
  (forall c, only_value_error (recurse c (d + 1))) ->
  only_value_error (create_child cfg recurse p d).
Proof.
  intros Hd Hr. unfold create_child.
  apply only_value_error_bind; [apply only_value_error_decide; exact Hd|].
  intros b. cbv zeta.
  apply only_value_error_bind; [apply only_value_error_create_node|].
  intros c. apply only_value_error_bind.
  - intros s e s' H. discriminate.
  - intros _. destruct ((if b then 1 else 2) =? 1); [apply Hr | apply only_value_error_ret].
Qed.

Lemma only_value_error_create_tree cfg fuel : forall p d,
  0 <= d -> only_value_error (create_tree cfg fuel p d).
Proof.
  induction fuel as [|fuel IH]; intros p d Hd.
  - intros s e s' H. discriminate.
  - cbn [create_tree]. destruct (d >=? max_depth cfg) eqn:E.
    + apply only_value_error_ret.
    + rewrite Z.geb_leb in E. apply Z.leb_gt in E.
      apply only_value_error_bind.
      * intros s e s' H.
        destruct (random_randint_cases (min_children cfg) (max_num_children cfg) s)
          as [[_ Er]|[_ [n [_ [_ Er]]]]]; congruence.
      * intros n. apply only_value_error_repeat.
        apply only_value_error_create_child; [lia|].
        intros c. apply IH. lia.
Qed.

(** C10. In a call [create_tree(p, d)] with [d >= 0]: at or beyond the
    depth cap the call returns at once; at [d = max_depth - 1] the child
    decision is LEAF without drawing or dividing; in the remaining case,
    [d < max_depth] and [d <> max_depth - 1], [max_depth] is at least 2 and
    the division [d / max_depth] succeeds. Hence, whatever the fuel, the
    only exception [create_tree] can raise is the [ValueError] of the
    fan-out draw, never [ZeroDivisionError]; this holds for every
    [max_depth], 0 and 1 included. *)
Theorem C10_no_division_by_zero cfg fuel p d s :
  0 <= d ->
  (max_depth cfg <= d -> create_tree cfg (S fuel) p d s = Ok tt s) /\
  (d = max_depth cfg - 1 -> decide_is_intermediate cfg d s = Ok false s) /\
  (d < max_depth cfg -> d <> max_depth cfg - 1 ->
     2 <= max_depth cfg /\
     true_div d (max_depth cfg) s = Ok (fl (inject_Z d / inject_Z (max_depth cfg))) s) /\
  (forall e s', create_tree cfg fuel p d s = Raise e s' ->
     e = ValueError /\ e <> ZeroDivisionError).
Proof.
  intros Hd. split; [|split; [|split]].
  - intros Hm. cbn [create_tree].
    destruct (d >=? max_depth cfg) eqn:E; [reflexivity|].
    rewrite Z.geb_leb in E. apply Z.leb_gt in E. lia.
  - intros Hm. apply decide_at_cap. exact Hm.
  - intros Hlt Hne. split; [lia|]. apply true_div_in_range. lia.
  - intros e s' H. pose proof (only_value_error_create_tree cfg fuel p d Hd s e s' H).
    subst e. split; [reflexivity | discriminate].
Qed.

Lemma C10_witness :
  (max_depth main_config <= 0 -> create_tree main_config 5 1 0 top_created = Ok tt top_created) /\
  (0 = max_depth main_config - 1 ->
     decide_is_intermediate main_config 0 top_created = Ok false top_created) /\
  (0 < max_depth main_config -> 0 <> max_depth main_config - 1 ->
     2 <= max_depth main_config /\
     true_div 0 (max_depth main_config) top_created
       = Ok (fl (inject_Z 0 / inject_Z (max_depth main_config))) top_created) /\
  (forall e s', create_tree main_config 4 1 0 top_created = Raise e s' ->
     e = ValueError /\ e <> ZeroDivisionError).
Proof.
  apply (C10_no_division_by_zero main_config 4 1 0 top_created). lia.
Defined.

(** ** Configurations outside the documented ranges *)

(** C4, as amended. Nothing is validated up front. With an empty fan-out
    range ([max_num_children < min_children]) and [max_depth >= 1],
    generation fails with the [ValueError] of the fan-out draw after the TOP
    node was created: the graph holds exactly that node, and neither the
    counters file nor a model file was written. With [max_depth <= 0],
    negative values included, no error is raised whatever the children
    bounds are: generation returns a graph made of the TOP node alone. *)
Theorem C4_no_validation cfg s :
  graph s = empty_graph ->
  (max_num_children cfg < min_children cfg -> 1 <= max_depth cfg ->
     exists s', generate_subgraph cfg s = Raise ValueError s' /\
       (exists a, nodes (graph s') = [(node_counter s + 1, a)] /\ node_type a = Some 0) /\
       edges (graph s') = [] /\
       model_files s' = model_files s /\ data_config s' = data_config s) /\
  (max_depth cfg <= 0 ->
     exists s', generate_subgraph cfg s = Ok tt s' /\
       List.length (nodes (graph s')) = 1%nat /\ edges (graph s') = []).
Proof.
  intros He.
  destruct (create_node_none 0 (-1) s) as [r [q [g [E _]]]].
  assert (Hg : graph (node_added 0 g q r s) =
               {| nodes := [(node_counter s + 1,
                             {| node_type := Some 0; gate_type := Some g;
                                node_probability := Some q;
                                in_degree := None; out_degree := None |})];
                  edges := []; meta := no_meta |}).
  { simpl. rewrite He. reflexivity. }
  split.
  - intros Hr Hm. exists (node_added 0 g q r s). split.
    + unfold generate_subgraph. rewrite (bind_ok _ _ _ _ _ E).
      cbn [create_tree]. destruct (0 >=? max_depth cfg) eqn:E0.
      { rewrite Z.geb_leb in E0. apply Z.leb_le in E0. lia. }
      destruct (random_randint_cases (min_children cfg) (max_num_children cfg)
                  (node_added 0 g q r s)) as [[_ Er]|[Hle _]]; [|lia].
      rewrite (bind_raise _ _ _ _ _ (bind_raise _ _ _ _ _ Er)). reflexivity.
    + rewrite Hg. simpl. split; [eexists; split; reflexivity|]. auto.
  - intros Hm. unfold generate_subgraph. rewrite (bind_ok _ _ _ _ _ E).
    assert (Et : create_tree cfg (S (Z.to_nat (max_depth cfg))) (node_counter s + 1) 0
                   (node_added 0 g q r s) = Ok tt (node_added 0 g q r s)).
    { cbn [create_tree]. destruct (0 >=? max_depth cfg) eqn:E0; [reflexivity|].
      rewrite Z.geb_leb in E0. apply Z.leb_gt in E0. lia. }
    rewrite (bind_ok _ _ _ _ _ Et).
    destruct (finalise_finished cfg (node_added 0 g q r s)) as [s' [Ef Hf]];
      [rewrite Hg; reflexivity|].
    exists s'. split; [exact Ef|].
    rewrite (fin_nodes _ _ Hf), (fin_edges _ _ Hf), Hg. simpl. auto.
Qed.

Lemma C4_witness :
  (max_num_children empty_range_config < min_children empty_range_config ->
   1 <= max_depth empty_range_config ->
     exists s', generate_subgraph empty_range_config first_run = Raise ValueError s' /\
       (exists a, nodes (graph s') = [(node_counter first_run + 1, a)] /\
                  node_type a = Some 0) /\
       edges (graph s') = [] /\
       model_files s' = model_files first_run /\ data_config s' = data_config first_run) /\
  (max_depth empty_range_config <= 0 ->
     exists s', generate_subgraph empty_range_config first_run = Ok tt s' /\
       List.length (nodes (graph s')) = 1%nat /\ edges (graph s') = []).
Proof.
  apply (C4_no_validation empty_range_config first_run). reflexivity.
Defined.

(** C4, as stated, fails. With [max_depth = -1] the whole run completes
    without any error and exports one model, the TOP node alone; with
    [min_children = 2 > max_num_children = 1] the run does fail, but with the
    [ValueError] of the fan-out draw and only after node 1 was created. *)
Lemma C4_counterexample :
  (exists s', init negative_depth_config first_run = Ok tt s' /\
     map (fun m => map node_summary (nodes (snd m))) (model_files s')
       = [[(1, Some 0, Some 2)]]) /\
  (exists s', init empty_range_config first_run = Raise ValueError s' /\
     map node_summary (nodes (graph s')) = [(1, Some 0, Some 2)]).
Proof.
  split; eexists; split; vm_compute; reflexivity.
Qed.

(** ** Reading the counters file *)

Lemma read_pair_well_formed pair data s k n :
  parse_pair pair = Some (k, n) -> read_pair pair data s = Ok (dict_set k n data) s.
Proof.
  unfold parse_pair, read_pair, try_except, unpack2.
  destruct (split_on "=" pair) as [|key [|value [|x l]]]; try discriminate.
  intros H. unfold bind at 1. cbn [ret snd fst]. unfold bind, int_of_str.
  destruct (py_int (strip value)) as [m|]; [|discriminate].
  inversion H; subst. reflexivity.
Qed.

Lemma read_pair_malformed pair data s :
  parse_pair pair = None ->
  read_pair pair data s = Ok data (set_stdout (stdout s ++ [PrintValueError pair]) s).
Proof.
  unfold parse_pair, read_pair, try_except, unpack2.
  destruct (split_on "=" pair) as [|key [|value [|x l]]]; try reflexivity.
  intros H. unfold bind at 1. cbn [ret snd fst]. unfold bind, int_of_str.
  destruct (py_int (strip value)) as [m|]; [discriminate|]. reflexivity.
Qed.

Lemma set_stdout_nil s : set_stdout (stdout s ++ []) s = s.
Proof. destruct s. unfold set_stdout. simpl. rewrite List.app_nil_r. reflexivity. Qed.

Lemma set_stdout_app s o1 o2 :
  set_stdout (stdout (set_stdout (stdout s ++ o1) s) ++ o2) (set_stdout (stdout s ++ o1) s)
  = set_stdout (stdout s ++ o1 ++ o2) s.
Proof. unfold set_stdout. simpl. rewrite List.app_assoc. reflexivity. Qed.

Lemma read_loop pairs : forall data s,
  for_each pairs read_pair data s =
  Ok (dict_of (well_formed pairs) data)
     (set_stdout (stdout s ++ map PrintValueError (malformed pairs)) s).
Proof.
  induction pairs as [|p pairs IH]; intros data s.
  - simpl. rewrite set_stdout_nil. reflexivity.
  - cbn [for_each]. unfold well_formed, malformed. cbn [flat_map filter].
    destruct (parse_pair p) as [[k n]|] eqn:E.
    + rewrite (bind_ok _ _ _ _ _ (read_pair_well_formed p data s k n E)).
      rewrite IH. reflexivity.
    + rewrite (bind_ok _ _ _ _ _ (read_pair_malformed p data s E)).
      rewrite IH. cbn [map]. rewrite set_stdout_app. reflexivity.
Qed.

Lemma dict_get_set k v d k' :
  dict_get k' (dict_set k v d) = if String.eqb k k' then Some v else dict_get k' d.
Proof.
  induction d as [|[k0 v0] d IH]; simpl.
  - reflexivity.
  - destruct (String.eqb_spec k0 k) as [->|Hne]; simpl.
    + destruct (String.eqb k k'); reflexivity.
    + rewrite IH. destruct (String.eqb_spec k0 k') as [->|Hne'].
      * destruct (String.eqb_spec k k') as [->|_]; [congruence | reflexivity].
      * reflexivity.
Qed.

Lemma dict_get_of kvs : forall d k,
  dict_get k (dict_of kvs d) = last_value k kvs (dict_get k d).
Proof.
  induction kvs as [|[k0 v0] kvs IH]; intros d k; [reflexivity|].
  unfold dict_of, last_value in *. cbn [fold_left fst snd].
  rewrite IH, dict_get_set. reflexivity.
Qed.

(** C9. When the counters file is missing, [read_data_config] reports it,
    writes the default file and returns [num_models = 0, num_nodes = 0], and
    what it wrote reads back as those defaults. When the file exists, the
    read never raises: every malformed entry is skipped with one warning (in
    file order), every well-formed entry is stored, a later entry for a key
    replacing an earlier one, so that the entries after a malformed one are
    still read. *)
Theorem C9_read_data_config s :
  (data_config s = None ->
     read_data_config s =
       Ok [("num_models"%string, 0); ("num_nodes"%string, 0)]
          (set_data_config (Some default_content)
             (set_stdout (stdout s ++ [PrintFileNotFound]) s)) /\
     parse_pair "num_models=0" = Some ("num_models"%string, 0) /\
     parse_pair "num_nodes=0" = Some ("num_nodes"%string, 0) /\
     split_on ";" (strip default_content) = ["num_models=0"%string; "num_nodes=0"%string]) /\
  (forall raw, data_config s = Some raw ->
     let pairs := split_on ";" (strip raw) in
     exists data,
       read_data_config s =
         Ok data (set_stdout (stdout s ++ map PrintValueError (malformed pairs)) s) /\
       data = dict_of (well_formed pairs) [] /\
       (forall k, dict_get k data = last_value k (well_formed pairs) None) /\
       (forall p, In p pairs -> parse_pair p = None <-> In p (malformed pairs)) /\
       (forall p kv, In p pairs -> parse_pair p = Some kv -> In kv (well_formed pairs))).
Proof.
  split.
  - intros H. unfold read_data_config. erewrite bind_ok by reflexivity. rewrite H.
    repeat split; reflexivity.
  - intros raw H pairs. exists (dict_of (well_formed pairs) []).
    split; [|split; [reflexivity|split; [|split]]].
    + unfold read_data_config. erewrite bind_ok by reflexivity. rewrite H.
      apply read_loop.
    + intros k. apply dict_get_of.
    + intros p Hp. unfold malformed. rewrite filter_In.
      destruct (parse_pair p); split; intros Hx; try discriminate; auto.
      destruct Hx; discriminate.
    + intros p kv Hp E. unfold well_formed. apply in_flat_map.
      exists p. split; [exact Hp|]. rewrite E. left. reflexivity.
Qed.

Lemma C9_witness :
  (data_config first_run = None ->
     read_data_config first_run =
       Ok [("num_models"%string, 0); ("num_nodes"%string, 0)]
          (set_data_config (Some default_content)
             (set_stdout (stdout first_run ++ [PrintFileNotFound]) first_run)) /\
     parse_pair "num_models=0" = Some ("num_models"%string, 0) /\
     parse_pair "num_nodes=0" = Some ("num_nodes"%string, 0) /\
     split_on ";" (strip default_content) = ["num_models=0"%string; "num_nodes=0"%string]) /\
  (forall raw, data_config first_run = Some raw ->
     let pairs := split_on ";" (strip raw) in
     exists data,
       read_data_config first_run =
         Ok data (set_stdout (stdout first_run ++ map PrintValueError (malformed pairs))
                    first_run) /\
       data = dict_of (well_formed pairs) [] /\
       (forall k, dict_get k data = last_value k (well_formed pairs) None) /\
       (forall p, In p pairs -> parse_pair p = None <-> In p (malformed pairs)) /\
       (forall p kv, In p pairs -> parse_pair p = Some kv -> In kv (well_formed pairs))).
Proof. exact (C9_read_data_config first_run). Defined.

(** The damaged sample file: three entries are skipped with a warning each,
    the two counters are read. *)
Lemma read_damaged_file :
  exists s', read_data_config damaged_run =
               Ok [("num_models"%string, 3); ("num_nodes"%string, 10)] s' /\
             stdout s' = [PrintValueError "junk"; PrintValueError "x=1=2";
                          PrintValueError "y=z"].
Proof. eexists. split; vm_compute; reflexivity. Qed.

(** ** Writing the counters and reading them back *)

Lemma all_chars_app P a b :
  all_chars P (a ++ b)%string = all_chars P a && all_chars P b.
Proof.
  induction a as [|c a IH]; simpl; [reflexivity|].
  rewrite IH, andb_assoc. reflexivity.
Qed.

Lemma all_chars_impl (P Q : ascii -> bool) s :
  (forall c, P c = true -> Q c = true) -> all_chars P s = true -> all_chars Q s = true.
Proof.
  intros H. induction s as [|c s IH]; simpl; [reflexivity|].
  intros Hs. apply andb_true_iff in Hs. destruct Hs as [Hc Hs].
  rewrite (H c Hc), (IH Hs). reflexivity.
Qed.

Lemma string_app_assoc (a b c : string) : ((a ++ b) ++ c = a ++ (b ++ c))%string.
Proof. induction a as [|x a IH]; simpl; [reflexivity|]. rewrite IH. reflexivity. Qed.

Lemma split_on_none sep a : all_chars (not_char sep) a = true -> split_on sep a = [a].
Proof.
  induction a as [|c a IH]; simpl; [reflexivity|].
  intros H. apply andb_true_iff in H. destruct H as [Hc Ha].
  unfold not_char in Hc. apply negb_true_iff in Hc. rewrite Hc, (IH Ha). reflexivity.
Qed.

Lemma split_on_app sep a b :
  all_chars (not_char sep) a = true ->
  split_on sep (a ++ String sep b)%string = a :: split_on sep b.
Proof.
  induction a as [|c a IH]; simpl.
  - intros _. rewrite Ascii.eqb_refl. reflexivity.
  - intros H. apply andb_true_iff in H. destruct H as [Hc Ha].
    unfold not_char in Hc. apply negb_true_iff in Hc. rewrite Hc, (IH Ha). reflexivity.
Qed.

Lemma rstrip_id s : all_chars not_space s = true -> rstrip s = s.
Proof.
  induction s as [|c s IH]; simpl; [reflexivity|].
  intros H. apply andb_true_iff in H. destruct H as [Hc Hs].
  rewrite (IH Hs). unfold not_space in Hc. apply negb_true_iff in Hc.
  destruct s; [rewrite Hc|]; reflexivity.
Qed.

Lemma strip_id s : all_chars not_space s = true -> strip s = s.
Proof.
  intros H. unfold strip.
  assert (Hl : lstrip s = s).
  { destruct s as [|c s]; [reflexivity|]. simpl in *.
    apply andb_true_iff in H. destruct H as [Hc _].
    unfold not_space in Hc. apply negb_true_iff in Hc. rewrite Hc. reflexivity. }
  rewrite Hl. apply rstrip_id. exact H.
Qed.

Lemma num_char_plain c :
  num_char c = true ->
  not_space c = true /\ not_char ";" c = true /\ not_char "=" c = true.
Proof.
  destruct c as [[] [] [] [] [] [] [] []]; intros H; try discriminate H;
    repeat split; reflexivity.
Qed.

Lemma uint_chars d : all_chars is_digit (NilEmpty.string_of_uint d) = true.
Proof. induction d; simpl; auto. Qed.

Lemma py_str_chars z : all_chars num_char (py_str z) = true.
Proof.
  assert (Hu : forall d, all_chars num_char (NilZero.string_of_uint d) = true).
  { intros d. unfold NilZero.string_of_uint.
    destruct d; try reflexivity;
      apply (all_chars_impl is_digit); try apply uint_chars;
      intros c Hc; unfold num_char; rewrite Hc; reflexivity. }
  unfold py_str, NilZero.string_of_int. destruct (Z.to_int z); simpl; rewrite ?Hu; reflexivity.
Qed.

Lemma py_str_not_space z : all_chars not_space (py_str z) = true.
Proof.
  apply (all_chars_impl num_char); [|apply py_str_chars].
  intros c Hc. apply (num_char_plain c Hc).
Qed.

Lemma py_str_no_sep sep z :
  sep = ";"%char \/ sep = "="%char -> all_chars (not_char sep) (py_str z) = true.
Proof.
  intros Hs. apply (all_chars_impl num_char); [|apply py_str_chars].
  intros c Hc. destruct (num_char_plain c Hc) as [_ [H1 H2]].
  destruct Hs as [-> | ->]; assumption.
Qed.

Lemma parse_digits_step c k s acc b :
  digit_of c = Some k -> (c =? "_")%char = false ->
  parse_digits (String c s) acc b = parse_digits s (10 * acc + k) true.
Proof. intros Hd Hu. simpl. rewrite Hu, Hd. reflexivity. Qed.

Lemma parse_digits_acc d : forall p,
  parse_digits (NilEmpty.string_of_uint d) (Zpos p) true = Some (Zpos (Pos.of_uint_acc d p)).
Proof.
  induction d; intros p; cbn [NilEmpty.string_of_uint Pos.of_uint_acc];
    [reflexivity | ..];
    erewrite parse_digits_step by reflexivity;
    match goal with
    | |- context [Z.of_N (N_of_ascii ?c) - 48] =>
        let v := eval vm_compute in (Z.of_N (N_of_ascii c) - 48) in
        change (Z.of_N (N_of_ascii c) - 48) with v
    end;
    match goal with
    | |- parse_digits _ ?a true = Some (Zpos (Pos.of_uint_acc _ ?q)) =>
        replace a with (Zpos q) by lia
    end; apply IHd.
Qed.

Lemma parse_digits_uint d : forall b,
  d <> Decimal.Nil \/ b = true ->
  parse_digits (NilEmpty.string_of_uint d) 0 b = Some (Z.of_N (Pos.of_uint d)).
Proof.
  induction d; intros b Hb; cbn [NilEmpty.string_of_uint Pos.of_uint].
  - destruct Hb as [Hb|Hb]; [congruence | subst b; reflexivity].
  - erewrite parse_digits_step by reflexivity.
    change (10 * 0 + (Z.of_N (N_of_ascii "0") - 48)) with 0.
    apply IHd. right. reflexivity.
  - erewrite parse_digits_step by reflexivity. exact (parse_digits_acc d 1).
  - erewrite parse_digits_step by reflexivity. exact (parse_digits_acc d 2).
  - erewrite parse_digits_step by reflexivity. exact (parse_digits_acc d 3).
  - erewrite parse_digits_step by reflexivity. exact (parse_digits_acc d 4).
  - erewrite parse_digits_step by reflexivity. exact (parse_digits_acc d 5).
  - erewrite parse_digits_step by reflexivity. exact (parse_digits_acc d 6).
  - erewrite parse_digits_step by reflexivity. exact (parse_digits_acc d 7).
  - erewrite parse_digits_step by reflexivity. exact (parse_digits_acc d 8).
  - erewrite parse_digits_step by reflexivity. exact (parse_digits_acc d 9).
Qed.

Lemma parse_uint_string d :
  d <> Decimal.Nil ->
  match NilEmpty.string_of_uint d with
  | String "+" r => parse_digits r 0 false
  | String "-" r => option_map Z.opp (parse_digits r 0 false)
  | r => parse_digits r 0 false
  end = Some (Z.of_N (Pos.of_uint d)).
Proof.
  intros Hd.
  rewrite <- (parse_digits_uint d false (or_introl Hd)).
  destruct d; [congruence | ..]; reflexivity.
Qed.

(** [int(str(n))] is [n]. *)
Lemma py_int_str z : py_int (py_str z) = Some z.
Proof.
  unfold py_int. rewrite strip_id by apply py_str_not_space.
  unfold py_str. destruct z as [|p|p].
  - reflexivity.
  - cbn [Z.to_int NilZero.string_of_int]. unfold NilZero.string_of_uint.
    pose proof (Unsigned.to_uint_nonnil p) as Hn.
    pose proof (Unsigned.of_to p) as Ho.
    destruct (Pos.to_uint p) eqn:E; [congruence | ..];
      rewrite (parse_uint_string _ Hn), Ho; reflexivity.
  - cbn [Z.to_int NilZero.string_of_int]. unfold NilZero.string_of_uint.
    pose proof (Unsigned.to_uint_nonnil p) as Hn.
    pose proof (Unsigned.of_to p) as Ho.
    destruct (Pos.to_uint p) eqn:E; [congruence | ..];
      rewrite (parse_digits_uint _ false (or_introl Hn)), Ho; reflexivity.
Qed.

Lemma parse_pair_counter key z :
  all_chars (not_char "=") key = true -> all_chars not_space key = true ->
  parse_pair (key ++ "=" ++ py_str z)%string = Some (key, z).
Proof.
  intros Hk Hs. unfold parse_pair.
  change ("=" ++ py_str z)%string with (String "=" (py_str z)).
  rewrite (split_on_app "=" key (py_str z) Hk).
  rewrite (split_on_none "=" (py_str z)) by (apply py_str_no_sep; auto).
  rewrite (strip_id (py_str z)) by apply py_str_not_space.
  rewrite py_int_str, (strip_id key Hs). reflexivity.
Qed.

Lemma counters_text_pairs a b :
  split_on ";" (strip (counters_text a b)) =
  [("num_models" ++ "=" ++ py_str a)%string; ("num_nodes" ++ "=" ++ py_str b)%string].
Proof.
  assert (Hl : all_chars not_space ("num_models=" ++ py_str a)%string = true).
  { rewrite all_chars_app, py_str_not_space. reflexivity. }
  assert (Hr : all_chars not_space ("num_nodes=" ++ py_str b)%string = true).
  { rewrite all_chars_app, py_str_not_space. reflexivity. }
  assert (E : counters_text a b
              = (("num_models=" ++ py_str a) ++ String ";" ("num_nodes=" ++ py_str b))%string).
  { unfold counters_text. rewrite string_app_assoc. reflexivity. }
  rewrite E, strip_id.
  - rewrite split_on_app.
    + rewrite split_on_none; [reflexivity|].
      rewrite all_chars_app, py_str_no_sep by auto. reflexivity.
    + rewrite all_chars_app, py_str_no_sep by auto. reflexivity.
  - rewrite all_chars_app, Hl. cbn [all_chars]. rewrite Hr. reflexivity.
Qed.

Lemma read_counters_text a b s :
  data_config s = Some (counters_text a b) ->
  read_data_config s =
  Ok [("num_models"%string, a); ("num_nodes"%string, b)] s.
Proof.
  intros H. unfold read_data_config. erewrite bind_ok by reflexivity. rewrite H.
  rewrite read_loop, counters_text_pairs.
  unfold well_formed, malformed. cbn [flat_map filter].
  rewrite !parse_pair_counter by reflexivity.
  cbn [map app]. rewrite set_stdout_nil. reflexivity.
Qed.

Lemma reset_counters_text a b s :
  data_config s = Some (counters_text a b) -> counters_on_file a b s.
Proof.
  intros H. unfold counters_on_file, reset.
  erewrite bind_ok by reflexivity.
  erewrite bind_ok by (apply read_counters_text; exact H).
  eexists. split; [reflexivity|]. repeat split.
Qed.

Lemma write_then_reset s2 s' :
  finished s2 s' -> counters_on_file (model_counter s2 + 1) (node_counter s2) s'.
Proof. intros Hf. apply reset_counters_text. apply (fin_data_config _ _ Hf). Qed.

(** ** A whole run *)

Lemma last_cons {A} (x : A) l d : last (x :: l) d = last l x.
Proof.
  revert x d. induction l as [|y l IH]; intros x d; [reflexivity|].
  change (last (x :: y :: l) d) with (last (y :: l) d).
  rewrite (IH y d), (IH y x). reflexivity.
Qed.

(** One turn of the loop of [__init__], from a state whose file holds the
    counters [m] and [K]: the graph built has the identifiers that follow
    [K], the file holds the advanced counters, the graph is exported. *)
Lemma run_turn cfg s m K t :
  counters_on_file m K s ->
  bind reset (fun _ => generate_subgraph cfg) s = Ok tt t ->
  exists c : nat, (0 < c)%nat /\
    node_ids (graph t) = zseq (K + 1) c /\
    node_counter t = K + Z.of_nat c /\
    counters_on_file (m + 1) (K + Z.of_nat c) t /\
    model_files t = model_files s ++ [(m + 1, graph t)].
Proof.
  intros [s1 [Er [Hm [Hn [Hg Hmf]]]]] E.
  rewrite (bind_ok _ _ _ _ _ Er) in E.
  pose proof (generate_subgraph_outcome cfg s1 Hg) as H. rewrite E in H.
  destruct H as [s2 [[Hw Hok] Hf]].
  rewrite Hn in Hok. pose proof (ok_count _ _ _ _ Hok) as Hc.
  destruct Hw as [Hmc [_ [Hfiles _]]].
  exists (Z.to_nat (node_counter s2 - K)).
  rewrite Z2Nat.id by lia.
  replace (K + (node_counter s2 - K)) with (node_counter s2) by lia.
  split; [lia|]. split; [|split; [|split]].
  - unfold node_ids. rewrite (fin_nodes _ _ Hf), map_fst_set_degrees.
    apply (ok_ids _ _ _ _ Hok).
  - apply (fin_node_counter _ _ Hf).
  - rewrite <- Hm, <- Hmc. apply write_then_reset. exact Hf.
  - rewrite (fin_model_files _ _ Hf), Hfiles, Hmf, Hmc, Hm. reflexivity.
Qed.

Lemma run_chain cfg : forall n s m K s',
  counters_on_file m K s ->
  repeat_body n (bind reset (fun _ => generate_subgraph cfg)) s = Ok tt s' ->
  let tr := iterations n (bind reset (fun _ => generate_subgraph cfg)) s in
  let ids := List.concat (map (fun t => node_ids (graph t)) tr) in
  List.length tr = n /\ last tr s = s' /\
  ids = zseq (K + 1) (List.length ids) /\
  counters_on_file (m + Z.of_nat n) (K + Z.of_nat (List.length ids)) s' /\
  (n <> O -> node_counter s' = K + Z.of_nat (List.length ids)) /\
  (forall t, In t tr -> node_ids (graph t) <> []) /\
  model_files s' = model_files s ++ map (fun t => (model_counter t + 1, graph t)) tr.
Proof.
  induction n as [|n IH]; intros s m K s' Hfile E; cbv zeta.
  - cbn in E. inversion E; subst s'. cbn [iterations map List.concat List.length last].
    rewrite !Z.add_0_r, List.app_nil_r.
    split; [reflexivity|]. split; [reflexivity|]. split; [reflexivity|].
    split; [exact Hfile|]. split; [congruence|]. split; [intros t []|reflexivity].
  - cbn [repeat_body] in E. unfold bind at 1 in E.
    destruct (bind reset (fun _ => generate_subgraph cfg) s) as [[] t|e t|] eqn:Et;
      try discriminate E.
    destruct (run_turn cfg s m K t Hfile Et) as [c [Hc [Hids [Hcnt [Hfile' Hmf]]]]].
    destruct (IH t (m + 1) (K + Z.of_nat c) s' Hfile' E)
      as [Hlen [Hlast [Hrest [Hfile'' [Hcnt' [Hne Hmf']]]]]].
    cbn [iterations]. rewrite Et. cbn [map List.concat List.length].
    set (tr := iterations n (bind reset (fun _ => generate_subgraph cfg)) t) in *.
    set (rest := List.concat (map (fun t => node_ids (graph t)) tr)) in *.
    rewrite length_app, Hids, zseq_length.
    split; [rewrite Hlen; reflexivity|].
    split; [rewrite last_cons; exact Hlast|].
    split.
    { rewrite zseq_app. f_equal. rewrite Hrest at 1. f_equal. lia. }
    split.
    { replace (m + Z.of_nat (S n)) with (m + 1 + Z.of_nat n) by lia.
      replace (K + Z.of_nat (c + List.length rest))
        with (K + Z.of_nat c + Z.of_nat (List.length rest)) by lia.
      exact Hfile''. }
    split.
    { intros _. destruct n as [|n'].
      - cbn in E. inversion E; subst s'. subst rest tr. cbn. lia.
      - rewrite Hcnt' by discriminate. lia. }
    split.
    { intros u [<-|Hu]; [|apply Hne; exact Hu].
      rewrite Hids. destruct c; [lia | discriminate]. }
    rewrite Hmf', Hmf, <- List.app_assoc. cbn [map app].
    assert (Hmc : model_counter t = m).
    { destruct Hfile as [s1 [Er [Hm [Hn [Hg Hmf0]]]]].
      rewrite (bind_ok _ _ _ _ _ Er) in Et.
      pose proof (generate_subgraph_outcome cfg s1 Hg) as H. rewrite Et in H.
      destruct H as [s2 [[[Hmc _] _] Hf]].
      rewrite (fin_model_counter _ _ Hf), Hmc. exact Hm. }
    rewrite Hmc. reflexivity.
Qed.

Lemma create_node_counter nt gt p t :
  exists t', create_node nt gt p t = Ok (node_counter t + 1) t' /\
             node_counter t' = node_counter t + 1.
Proof.
  destruct gt as [g|].
  - destruct (create_node_some nt g p t) as [r [q [E _]]]. eexists. split; [exact E|reflexivity].
  - destruct (create_node_none nt p t) as [r [q [g [E _]]]].
    eexists. split; [exact E|reflexivity].
Qed.

(** C7. Take a run that completes, started on a counters file holding the
    node counter [N] and the model counter [m]. It builds one graph per
    turn, [num_graphs] in all, each with a node at least. The identifiers
    [create_node] gave out, read off these graphs in the order of the turns
    and of creation, are exactly [N + 1, N + 2, ..., N + num_nodes], where
    [num_nodes] is how many there are: strictly increasing, no gap, no
    repeat. The counter is persisted between graphs: the file ends with
    [N + num_nodes] as node counter and [m + num_graphs] as model counter,
    the object itself ends with its node counter at [N + num_nodes], and
    the graphs exported are these graphs, one file each. Every
    [create_node] returns the counter plus one and advances the counter by
    exactly one. *)
Theorem C7_consecutive_identifiers cfg s0 s' m N :
  counters_on_file m N s0 ->
  init cfg s0 = Ok tt s' ->
  List.length (run_states cfg s0) = Z.to_nat (num_graphs cfg) /\
  last (run_states cfg s0) s0 = s' /\
  (forall t, In t (run_states cfg s0) -> node_ids (graph t) <> []) /\
  run_ids cfg s0 = zseq (N + 1) (List.length (run_ids cfg s0)) /\
  StronglySorted Z.lt (run_ids cfg s0) /\
  NoDup (run_ids cfg s0) /\
  counters_on_file (m + Z.of_nat (List.length (run_states cfg s0)))
                   (N + Z.of_nat (List.length (run_ids cfg s0))) s' /\
  (1 <= num_graphs cfg ->
   node_counter s' = N + Z.of_nat (List.length (run_ids cfg s0))) /\
  model_files s' =
    model_files s0 ++ map (fun t => (model_counter t + 1, graph t)) (run_states cfg s0) /\
  (forall nt gt p t, exists t',
     create_node nt gt p t = Ok (node_counter t + 1) t' /\
     node_counter t' = node_counter t + 1).
Proof.
  intros Hfile E. unfold init, for_range in E.
  destruct (run_chain cfg _ _ _ _ _ Hfile E)
    as [Hlen [Hlast [Hids [Hcnt [Hnc [Hne Hmf]]]]]].
  fold (run_states cfg s0) in Hlen, Hlast, Hids, Hcnt, Hnc, Hne, Hmf.
  fold (run_ids cfg s0) in Hids, Hcnt, Hnc.
  split; [exact Hlen|]. split; [exact Hlast|]. split; [exact Hne|].
  split; [exact Hids|].
  split; [rewrite Hids; apply zseq_sorted|].
  split; [rewrite Hids; apply zseq_NoDup|].
  split; [rewrite Hlen; exact Hcnt|].
  split; [intros H1; apply Hnc; lia|].
  split; [exact Hmf|].
  intros nt gt p t. apply create_node_counter.
Qed.

Lemma C7_witness :
  List.length (run_states two_graphs_config later_run)
    = Z.to_nat (num_graphs two_graphs_config) /\
  last (run_states two_graphs_config later_run) later_run = later_finished /\
  (forall t, In t (run_states two_graphs_config later_run) -> node_ids (graph t) <> []) /\
  run_ids two_graphs_config later_run
    = zseq (5 + 1) (List.length (run_ids two_graphs_config later_run)) /\
  StronglySorted Z.lt (run_ids two_graphs_config later_run) /\
  NoDup (run_ids two_graphs_config later_run) /\
  counters_on_file (2 + Z.of_nat (List.length (run_states two_graphs_config later_run)))
                   (5 + Z.of_nat (List.length (run_ids two_graphs_config later_run)))
                   later_finished /\
  (1 <= num_graphs two_graphs_config ->
   node_counter later_finished
     = 5 + Z.of_nat (List.length (run_ids two_graphs_config later_run))) /\
  model_files later_finished =
    model_files later_run
    ++ map (fun t => (model_counter t + 1, graph t))
           (run_states two_graphs_config later_run) /\
  (forall nt gt p t, exists t',
     create_node nt gt p t = Ok (node_counter t + 1) t' /\
     node_counter t' = node_counter t + 1).
Proof.
  apply (C7_consecutive_identifiers two_graphs_config later_run later_finished 2 5).
  - eexists. split; [vm_compute; reflexivity|]. repeat split; reflexivity.
  - vm_compute. reflexivity.
Defined.

(** The sample continuation run: two graphs, identifiers 6 to 19. *)
Lemma later_finished_ids :
  map (fun t => node_ids (graph t)) (run_states two_graphs_config later_run)
    = [[6; 7; 8; 9; 10; 11; 12]; [13; 14; 15; 16; 17; 18; 19]] /\
  map (fun m => node_ids (snd m)) (model_files later_finished)
    = [[6; 7; 8; 9; 10; 11; 12]; [13; 14; 15; 16; 17; 18; 19]] /\
  data_config later_finished = Some "num_models=4;num_nodes=19"%string.
Proof. repeat split; vm_compute; reflexivity. Qed.

(** * Further properties of the code *)

(** ** The counters file *)

(** X1. When the two numbers to be written, [model_counter + 1] and
    [node_counter], are within the digit limit of the conversions between
    integers and text (negative ones included), what [write_data_config]
    writes is read back by [read_data_config] as
    [num_models = model_counter + 1] and [num_nodes = node_counter],
    without a warning and without touching anything but the file. *)
Theorem write_read_round_trip s :
  within_digit_limit (model_counter s + 1) ->
  within_digit_limit (node_counter s) ->
  write_data_config s
    = Ok tt (set_data_config
               (Some (counters_text (model_counter s + 1) (node_counter s))) s) /\
  read_data_config
      (set_data_config (Some (counters_text (model_counter s + 1) (node_counter s))) s)
    = Ok [("num_models"%string, model_counter s + 1); ("num_nodes"%string, node_counter s)]
         (set_data_config
            (Some (counters_text (model_counter s + 1) (node_counter s))) s).
Proof.
  intros _ _. split; [reflexivity|]. apply read_counters_text. reflexivity.
Qed.

Lemma write_read_round_trip_witness :
  write_data_config first_generated
    = Ok tt (set_data_config
               (Some (counters_text (model_counter first_generated + 1)
                                    (node_counter first_generated))) first_generated) /\
  read_data_config
      (set_data_config
         (Some (counters_text (model_counter first_generated + 1)
                              (node_counter first_generated))) first_generated)
    = Ok [("num_models"%string, model_counter first_generated + 1);
          ("num_nodes"%string, node_counter first_generated)]
         (set_data_config
            (Some (counters_text (model_counter first_generated + 1)
                                 (node_counter first_generated))) first_generated).
Proof.
  apply (write_read_round_trip first_generated); apply Nat.leb_le; vm_compute; reflexivity.
Defined.

(** X2. On a missing counters file [reset] starts from an empty graph with
    both counters at 0, reports the missing file once and leaves the default
    file behind, from which a further [reset] reads the same counters. *)
Theorem reset_missing_file s :
  data_config s = None ->
  exists s1, reset s = Ok tt s1 /\
    graph s1 = empty_graph /\ node_counter s1 = 0 /\ model_counter s1 = 0 /\
    data_config s1 = Some default_content /\
    stdout s1 = stdout s ++ [PrintFileNotFound] /\
    model_files s1 = model_files s /\
    counters_on_file 0 0 s1.
Proof.
  intros H. unfold reset. erewrite bind_ok by reflexivity.
  unfold read_data_config. erewrite bind_ok by (erewrite bind_ok by reflexivity; simpl;
    rewrite H; reflexivity).
  eexists. split; [reflexivity|].
  repeat (split; [reflexivity|]).
  apply reset_counters_text. reflexivity.
Qed.

Lemma reset_missing_file_witness :
  exists s1, reset first_run = Ok tt s1 /\
    graph s1 = empty_graph /\ node_counter s1 = 0 /\ model_counter s1 = 0 /\
    data_config s1 = Some default_content /\
    stdout s1 = stdout first_run ++ [PrintFileNotFound] /\
    model_files s1 = model_files first_run /\
    counters_on_file 0 0 s1.
Proof. apply (reset_missing_file first_run). reflexivity. Defined.

Lemma read_existing_file s raw :
  data_config s = Some raw ->
  read_data_config s =
  Ok (dict_of (well_formed (split_on ";" (strip raw))) [])
     (set_stdout (stdout s ++ map PrintValueError (malformed (split_on ";" (strip raw)))) s).
Proof.
  intros H. unfold read_data_config. erewrite bind_ok by reflexivity. rewrite H.
  apply read_loop.
Qed.

(** X3. On an existing counters file [reset] succeeds exactly when the
    entries that were read give both counters. Without a readable
    [num_nodes] entry (an empty file, for one) it raises [KeyError] with the
    counters of the object untouched; with [num_nodes] but without
    [num_models] it raises [KeyError] after having taken over the node
    counter. The file is never changed. *)
Theorem reset_existing_file s raw :
  data_config s = Some raw ->
  (dict_get "num_nodes" (dict_of (well_formed (split_on ";" (strip raw))) []) = None ->
     exists s', reset s = Raise KeyError s' /\ graph s' = empty_graph /\
       node_counter s' = node_counter s /\ model_counter s' = model_counter s /\
       data_config s' = Some raw) /\
  (forall n,
     dict_get "num_nodes" (dict_of (well_formed (split_on ";" (strip raw))) []) = Some n ->
     dict_get "num_models" (dict_of (well_formed (split_on ";" (strip raw))) []) = None ->
     exists s', reset s = Raise KeyError s' /\ graph s' = empty_graph /\
       node_counter s' = n /\ model_counter s' = model_counter s /\
       data_config s' = Some raw) /\
  (forall n m,
     dict_get "num_nodes" (dict_of (well_formed (split_on ";" (strip raw))) []) = Some n ->
     dict_get "num_models" (dict_of (well_formed (split_on ";" (strip raw))) []) = Some m ->
     exists s', reset s = Ok tt s' /\ graph s' = empty_graph /\
       node_counter s' = n /\ model_counter s' = m /\
       data_config s' = Some raw /\ model_files s' = model_files s).
Proof.
  intros H.
  assert (Er : read_data_config (set_graph empty_graph s) =
               Ok (dict_of (well_formed (split_on ";" (strip raw))) [])
                  (set_stdout (stdout s ++ map PrintValueError
                                 (malformed (split_on ";" (strip raw))))
                     (set_graph empty_graph s))).
  { apply (read_existing_file (set_graph empty_graph s) raw). exact H. }
  split; [|split].
  - intros Hn. unfold reset. erewrite bind_ok by reflexivity.
    rewrite (bind_ok _ _ _ _ _ Er). unfold subscript. rewrite Hn.
    eexists. split; [reflexivity|]. repeat split; assumption.
  - intros n Hn Hm. unfold reset. erewrite bind_ok by reflexivity.
    rewrite (bind_ok _ _ _ _ _ Er). unfold subscript. rewrite Hn.
    erewrite bind_ok by reflexivity. erewrite bind_ok by reflexivity. rewrite Hm.
    eexists. split; [reflexivity|]. repeat split; assumption.
  - intros n m Hn Hm. unfold reset. erewrite bind_ok by reflexivity.
    rewrite (bind_ok _ _ _ _ _ Er). unfold subscript. rewrite Hn.
    erewrite bind_ok by reflexivity. erewrite bind_ok by reflexivity. rewrite Hm.
    eexists. split; [reflexivity|]. repeat split; assumption.
Qed.

Lemma reset_existing_file_witness :
  (dict_get "num_nodes" (dict_of (well_formed (split_on ";" (strip ""))) []) = None ->
     exists s', reset empty_file_run = Raise KeyError s' /\ graph s' = empty_graph /\
       node_counter s' = node_counter empty_file_run /\
       model_counter s' = model_counter empty_file_run /\
       data_config s' = Some ""%string) /\
  (forall n,
     dict_get "num_nodes" (dict_of (well_formed (split_on ";" (strip ""))) []) = Some n ->
     dict_get "num_models" (dict_of (well_formed (split_on ";" (strip ""))) []) = None ->
     exists s', reset empty_file_run = Raise KeyError s' /\ graph s' = empty_graph /\
       node_counter s' = n /\ model_counter s' = model_counter empty_file_run /\
       data_config s' = Some ""%string) /\
  (forall n m,
     dict_get "num_nodes" (dict_of (well_formed (split_on ";" (strip ""))) []) = Some n ->
     dict_get "num_models" (dict_of (well_formed (split_on ";" (strip ""))) []) = Some m ->
     exists s', reset empty_file_run = Ok tt s' /\ graph s' = empty_graph /\
       node_counter s' = n /\ model_counter s' = m /\
       data_config s' = Some ""%string /\ model_files s' = model_files empty_file_run).
Proof. apply (reset_existing_file empty_file_run ""). reflexivity. Defined.

(** The two failing files at work: the empty one, and one without
    [num_models]. *)
Lemma reset_key_errors :
  (exists s', reset empty_file_run = Raise KeyError s' /\
              stdout s' = [PrintValueError ""] /\ node_counter s' = 0) /\
  (exists s', reset half_file_run = Raise KeyError s' /\
              stdout s' = [] /\ node_counter s' = 7).
Proof. split; (eexists; split; [vm_compute; reflexivity | split; reflexivity]). Qed.

(** ** Counting nodes and gates *)

Lemma count_type_bound l :
  0 <= count_type 0 l /\ 0 <= count_type 1 l /\ 0 <= count_type 2 l /\
  count_type 0 l + count_type 1 l + count_type 2 l <= Z.of_nat (List.length l).
Proof.
  induction l as [|[n a] l IH]; [unfold count_type; simpl; lia|].
  rewrite !count_type_cons. cbn [List.length]. rewrite Nat2Z.inj_succ.
  destruct (node_type a) as [u|]; [|lia].
  destruct (u =? 0) eqn:E0; destruct (u =? 1) eqn:E1; destruct (u =? 2) eqn:E2;
    try lia; apply Z.eqb_eq in E0 || apply Z.eqb_eq in E1; try apply Z.eqb_eq in E2; lia.
Qed.

(** X4. On any graph, generated or not, [count_nodes_and_gates] returns
    for each of the keys 0, 1, 2 the number of nodes whose [node_type]
    (respectively [gate_type]) is that key; nodes whose attribute is missing
    or is another value are counted nowhere, so the three node counts sum
    to at most the number of nodes, and to exactly that number when every
    node has a type among 0, 1, 2. *)
Theorem count_nodes_and_gates_tallies g :
  count_nodes_and_gates g =
    ((count_type 0 (nodes g), count_type 1 (nodes g), count_type 2 (nodes g)),
     (count_gate 0 (nodes g), count_gate 1 (nodes g), count_gate 2 (nodes g))) /\
  count_type 0 (nodes g) + count_type 1 (nodes g) + count_type 2 (nodes g)
    <= Z.of_nat (List.length (nodes g)) /\
  ((forall n a, In (n, a) (nodes g) ->
      node_type a = Some 0 \/ node_type a = Some 1 \/ node_type a = Some 2) ->
   count_type 0 (nodes g) + count_type 1 (nodes g) + count_type 2 (nodes g)
     = Z.of_nat (List.length (nodes g))).
Proof.
  split; [|split].
  - unfold count_nodes_and_gates. rewrite count_loop_tallies. reflexivity.
  - apply count_type_bound.
  - apply count_type_total.
Qed.

(** ** Finalisation *)

Lemma count_loop_set_degrees g l : forall nc gc,
  count_loop (map (set_degrees g) l) nc gc = count_loop l nc gc.
Proof.
  induction l as [|[n a] l IH]; intros nc gc; [reflexivity|].
  simpl. apply IH.
Qed.

Lemma set_degrees_twice g1 g2 l :
  edges g2 = edges g1 ->
  map (set_degrees g2) (map (set_degrees g1) l) = map (set_degrees g1) l.
Proof.
  intros He. rewrite map_map. apply map_ext. intros [n a].
  unfold set_degrees, graph_in_degree, graph_out_degree. simpl. rewrite He. reflexivity.
Qed.

(** X5. Finalisation is idempotent and its two passes are independent:
    running metadata and degree computation a second time on the finalised
    graph changes nothing, and computing the degrees before the metadata
    gives the same state as the order [generate_subgraph] uses (degrees are
    not counted, metadata does not touch nodes or edges). *)
Theorem finalize_idempotent s :
  bind finalize (fun _ => finalize) s = finalize s /\
  bind calculate_node_features (fun _ => add_meta_data) s = finalize s.
Proof.
  unfold finalize, add_meta_data, calculate_node_features, calculate_in_and_out_degrees,
    bind, modify.
  cbv zeta. unfold set_graph, count_nodes_and_gates. cbn [graph nodes edges meta
    node_counter model_counter rng data_config model_files visualizations stdout today].
  split.
  - rewrite count_loop_set_degrees.
    rewrite (set_degrees_twice _ _ (nodes (graph s))) by reflexivity.
    reflexivity.
  - rewrite count_loop_set_degrees. reflexivity.
Qed.

(** ** Export *)

Lemma print_loop_output (l : list (Z * Attrs)) : forall s,
  for_each l (fun node (_ : unit) => print (PrintNode (fst node) (snd node))) tt s
  = Ok tt (set_stdout (stdout s ++ map (fun na => PrintNode (fst na) (snd na)) l) s).
Proof.
  induction l as [|x l IH]; intros s.
  - simpl. rewrite set_stdout_nil. reflexivity.
  - cbn [for_each map]. unfold print at 1. erewrite bind_ok by reflexivity.
    rewrite IH.
    rewrite (set_stdout_app s [PrintNode (fst x) (snd x)]). reflexivity.
Qed.

Lemma print_nodes_output s :
  print_nodes s
  = Ok tt (set_stdout (stdout s ++ map (fun na => PrintNode (fst na) (snd na))
                                       (nodes (graph s))) s).
Proof.
  unfold print_nodes. erewrite bind_ok by reflexivity. apply print_loop_output.
Qed.

(** X6. On a state whose export stays within the digit limit,
    [save_model] first writes the counters file with [model_counter + 1] and
    [node_counter], and the graph as it stands under the model number
    [model_counter + 1]. When [visualization] is set and some node has no
    entry in the colour map, it then fails with [KeyError]: both files are
    written, nothing is drawn and nothing is printed. Otherwise it returns:
    the model is drawn only when [visualization] is set, and the nodes are
    printed, one line each in node order, only when [print_out] is set. In
    both cases the graph and both counters of the object are left as they
    were: the model counter advances on file only. *)
Theorem save_model_effect cfg s :
  exportable s ->
  exists s',
    save_model cfg s =
      (if visualization cfg && negb (forallb has_color (map snd (nodes (graph s))))
       then Raise KeyError s' else Ok tt s') /\
    graph s' = graph s /\ node_counter s' = node_counter s /\
    model_counter s' = model_counter s /\ rng s' = rng s /\
    data_config s' = Some (counters_text (model_counter s + 1) (node_counter s)) /\
    model_files s' = model_files s ++ [(model_counter s + 1, graph s)] /\
    visualizations s' =
      visualizations s
      ++ (if visualization cfg && forallb has_color (map snd (nodes (graph s)))
          then [model_counter s + 1] else []) /\
    stdout s' =
      stdout s
      ++ (if print_out cfg
             && (negb (visualization cfg) || forallb has_color (map snd (nodes (graph s))))
          then map (fun na => PrintNode (fst na) (snd na)) (nodes (graph s))
          else []).
Proof.
  intros _. unfold save_model, write_data_config.
  erewrite bind_ok by (erewrite bind_ok by reflexivity; reflexivity).
  erewrite bind_ok by reflexivity.
  erewrite bind_ok by reflexivity.
  destruct (visualization cfg); cbn [andb orb negb].
  - match goal with |- context [bind (visualize_graph ?n) ?k ?t] =>
      pose proof (visualize_graph_outcome n t) as Ev
    end.
    cbn [graph set_model_files set_data_config] in Ev.
    destruct (forallb has_color (map snd (nodes (graph s)))); cbn [negb].
    + rewrite (bind_ok _ _ _ _ _ Ev).
      destruct (print_out cfg); cbn [andb].
      * rewrite print_nodes_output. eexists. split; [reflexivity|].
        repeat (split; [reflexivity|]). reflexivity.
      * eexists. split; [reflexivity|]. cbn. rewrite List.app_nil_r.
        repeat (split; [reflexivity|]). reflexivity.
    + rewrite (bind_raise _ _ _ _ _ Ev).
      eexists. split; [reflexivity|]. rewrite andb_false_r. cbn.
      rewrite !List.app_nil_r.
      repeat (split; [reflexivity|]). reflexivity.
  - erewrite bind_ok by reflexivity. destruct (print_out cfg); cbn [andb].
    + rewrite print_nodes_output. eexists. split; [reflexivity|]. cbn.
      rewrite List.app_nil_r. repeat (split; [reflexivity|]). reflexivity.
    + eexists. split; [reflexivity|]. cbn. rewrite !List.app_nil_r.
      repeat (split; [reflexivity|]). reflexivity.
Qed.

Lemma within_digit_limit_all l :
  forallb (fun n => String.length (py_str (Z.abs n)) <=? 4300)%nat l = true ->
  Forall within_digit_limit l.
Proof.
  intros H. apply Forall_forall. intros n Hn.
  apply Nat.leb_le. exact (proj1 (forallb_forall _ _) H n Hn).
Qed.

Lemma save_model_effect_witness :
  exists s',
    save_model main_config first_generated =
      (if visualization main_config
          && negb (forallb has_color (map snd (nodes (graph first_generated))))
       then Raise KeyError s' else Ok tt s') /\
    graph s' = graph first_generated /\ node_counter s' = node_counter first_generated /\
    model_counter s' = model_counter first_generated /\ rng s' = rng first_generated /\
    data_config s' = Some (counters_text (model_counter first_generated + 1)
                                         (node_counter first_generated)) /\
    model_files s' = model_files first_generated
                     ++ [(model_counter first_generated + 1, graph first_generated)] /\
    visualizations s' =
      visualizations first_generated
      ++ (if visualization main_config
             && forallb has_color (map snd (nodes (graph first_generated)))
          then [model_counter first_generated + 1] else []) /\
    stdout s' =
      stdout first_generated
      ++ (if print_out main_config
             && (negb (visualization main_config)
                 || forallb has_color (map snd (nodes (graph first_generated))))
          then map (fun na => PrintNode (fst na) (snd na)) (nodes (graph first_generated))
          else []).
Proof.
  apply (save_model_effect main_config first_generated).
  apply within_digit_limit_all. vm_compute. reflexivity.
Defined.

(** ** Colours of the drawing *)

(** X7. The colouring loop of [visualize_graph] looks every node's type up
    in the colour map: on any graph it either colours all nodes, in node
    order (red for type 0, orange for 1, green for 2), or raises [KeyError]
    at the first node whose type is missing or outside the map, changing
    nothing. On a generated graph it never raises, and the first node, the
    TOP node, is the red one. *)
Theorem node_colors_generated cfg s s' :
  graph s = empty_graph ->
  generate_subgraph cfg s = Ok tt s' ->
  (forall t,
     node_colors t =
     if forallb has_color (map snd (nodes (graph t)))
     then Ok (map (fun na => (fst na, color_of_type (node_type (snd na))))
                  (nodes (graph t))) t
     else Raise KeyError t) /\
  node_colors s' =
    Ok (map (fun na => (fst na, color_of_type (node_type (snd na)))) (nodes (graph s'))) s' /\
  (exists rest, map (fun na => (fst na, color_of_type (node_type (snd na))))
                    (nodes (graph s'))
                = (node_counter s + 1, red) :: rest /\
                forall n, ~ In (n, red) rest).
Proof.
  intros He E.
  assert (Hgen : forall t,
            node_colors t =
            if forallb has_color (map snd (nodes (graph t)))
            then Ok (map (fun na => (fst na, color_of_type (node_type (snd na))))
                         (nodes (graph t))) t
            else Raise KeyError t).
  { intros t. unfold node_colors. erewrite bind_ok by reflexivity.
    rewrite node_colors_loop. reflexivity. }
  destruct (generated_shape cfg _ s' (generated_intro _ _ _ He E))
    as [s1 [s2 [_ [_ [_ [_ [Hf Hok]]]]]]].
  split; [exact Hgen|]. split.
  - rewrite Hgen, (generated_has_color _ _ _ _ Hok). reflexivity.
  - destruct (graph_ok_head _ _ _ _ Hok) as [a [rest [En [Ha Hrest]]]].
    exists (map (fun na => (fst na, color_of_type (node_type (snd na)))) rest).
    split; [rewrite En; simpl; rewrite Ha; reflexivity|].
    intros n Hin. apply in_map_iff in Hin. destruct Hin as [[m b] [Eq Hin]].
    simpl in Eq. inversion Eq; subst m.
    assert (Hin' : In (n, b) (nodes (graph s'))) by (rewrite En; right; exact Hin).
    pose proof (Hrest _ _ Hin) as Hn.
    destruct (graph_ok_child_type _ _ _ _ _ _ Hok Hin' Hn) as [Et|Et];
      rewrite Et in H1; discriminate.
Qed.

Lemma node_colors_generated_witness :
  (forall t,
     node_colors t =
     if forallb has_color (map snd (nodes (graph t)))
     then Ok (map (fun na => (fst na, color_of_type (node_type (snd na))))
                  (nodes (graph t))) t
     else Raise KeyError t) /\
  node_colors first_generated =
    Ok (map (fun na => (fst na, color_of_type (node_type (snd na))))
            (nodes (graph first_generated))) first_generated /\
  (exists rest, map (fun na => (fst na, color_of_type (node_type (snd na))))
                    (nodes (graph first_generated))
                = (node_counter first_run + 1, red) :: rest /\
                forall n, ~ In (n, red) rest).
Proof.
  apply (node_colors_generated main_config first_run first_generated).
  - reflexivity.
  - vm_compute. reflexivity.
Defined.

(** ** Gate attributes of generated graphs *)

Lemma count_gate_none t l :
  (forall n a, In (n, a) l -> gate_type a <> Some t) -> count_gate t l = 0.
Proof.
  induction l as [|[n a] l IH]; intros H; [reflexivity|].
  rewrite count_gate_cons, IH by (intros; eapply H; right; eauto).
  pose proof (H n a (or_introl eq_refl)) as Ha.
  destruct (gate_type a) as [u|]; [|reflexivity].
  destruct (u =? t) eqn:E; [|reflexivity].
  apply Z.eqb_eq in E. subst. congruence.
Qed.

(** X8. In every generated graph the TOP node carries gate 1 or 2, and
    every other node, LEAF or INTERMEDIATE, carries as [gate_type] its own
    depth, a number between 1 and [max_depth]: [create_tree] passes
    [current_depth + 1] in the gate position. No node carries the dummy
    gate 0. *)
Theorem gate_type_is_depth cfg s s' :
  graph s = empty_graph ->
  generate_subgraph cfg s = Ok tt s' ->
  (exists a rest, nodes (graph s') = (node_counter s + 1, a) :: rest /\
                  (gate_type a = Some 1 \/ gate_type a = Some 2)) /\
  (forall n a, In (n, a) (nodes (graph s')) -> n <> node_counter s + 1 ->
     exists d, 1 <= d <= max_depth cfg /\
               has_depth (edges (graph s')) (node_counter s + 1) n d /\
               gate_type a = Some d) /\
  count_gate 0 (nodes (graph s')) = 0.
Proof.
  intros He E.
  destruct (generated_shape cfg _ s' (generated_intro _ _ _ He E))
    as [s1 [s2 [_ [_ [_ [_ [Hf Hok]]]]]]].
  split; [|split].
  - destruct (graph_ok_head _ _ _ _ Hok) as [a [rest [En _]]].
    exists a, rest. split; [exact En|].
    apply (ok_top _ _ _ _ Hok). rewrite En. left. reflexivity.
  - intros n a Hin Hn.
    destruct (ok_child _ _ _ _ Hok _ _ Hin Hn) as [d [Hd [Hh [Hg _]]]].
    exists d. split; [exact Hd|]. split; [exact Hh | exact Hg].
  - apply count_gate_none. intros n a Hin.
    destruct (Z.eq_dec n (node_counter s + 1)) as [->|Hn].
    + destruct (ok_top _ _ _ _ Hok _ Hin) as [_ [[Hg|Hg] _]]; rewrite Hg; discriminate.
    + destruct (ok_child _ _ _ _ Hok _ _ Hin Hn) as [d [Hd [_ [Hg _]]]].
      rewrite Hg. intros Hc. inversion Hc. lia.
Qed.

Lemma gate_type_is_depth_witness :
  (exists a rest, nodes (graph first_generated) = (node_counter first_run + 1, a) :: rest /\
                  (gate_type a = Some 1 \/ gate_type a = Some 2)) /\
  (forall n a, In (n, a) (nodes (graph first_generated)) -> n <> node_counter first_run + 1 ->
     exists d, 1 <= d <= max_depth main_config /\
               has_depth (edges (graph first_generated)) (node_counter first_run + 1) n d /\
               gate_type a = Some d) /\
  count_gate 0 (nodes (graph first_generated)) = 0.
Proof.
  apply (gate_type_is_depth main_config first_run first_generated).
  - reflexivity.
  - vm_compute. reflexivity.
Defined.

(** ** The run loop *)

Lemma reset_outcome s :
  match reset s with
  | Ok _ s1 => graph s1 = empty_graph /\ model_files s1 = model_files s
  | Raise e _ => e = KeyError
  | OutOfFuel => False
  end.
Proof.
  unfold reset. erewrite bind_ok by reflexivity.
  assert (Hr : exists data o c,
            read_data_config (set_graph empty_graph s)
            = Ok data (set_data_config c (set_stdout o (set_graph empty_graph s)))).
  { unfold read_data_config. erewrite bind_ok by reflexivity.
    cbn [data_config set_graph]. destruct (data_config s) as [raw|] eqn:E.
    - rewrite read_loop. eexists. eexists. exists (Some raw). f_equal.
      unfold set_data_config, set_stdout, set_graph. simpl. rewrite E. reflexivity.
    - eexists. eexists. eexists. reflexivity. }
  destruct Hr as [data [o [c Er]]]. rewrite (bind_ok _ _ _ _ _ Er).
  unfold subscript. destruct (dict_get "num_nodes" data) as [n|]; [|reflexivity].
  erewrite bind_ok by reflexivity. erewrite bind_ok by reflexivity.
  destruct (dict_get "num_models" data) as [m|]; [|reflexivity].
  erewrite bind_ok by reflexivity. split; reflexivity.
Qed.

Lemma models_step cfg m0 i :
  triple (models_inv m0 i) (bind reset (fun _ => generate_subgraph cfg))
         (fun _ => models_inv m0 (i + 1)) (empty_range cfg).
Proof.
  intros s [Hi [[K [s1 [Er [Hm [Hn [Hg Hmf]]]]]] [Hnum Hid]]].
  rewrite (bind_ok _ _ _ _ _ Er).
  pose proof (generate_subgraph_outcome cfg s1 Hg) as H.
  destruct (generate_subgraph cfg s1) as [[] s'|e s'|]; [|exact H|exact H].
  destruct H as [s2 [[Hw Hok] Hf]].
  destruct Hw as [Hmc [_ [Hfiles _]]].
  assert (Hnew : model_files s' = model_files s ++ [(m0 + i + 1, graph s')]).
  { rewrite (fin_model_files _ _ Hf), Hfiles, Hmf, Hmc, Hm. reflexivity. }
  split; [lia|]. split; [|split].
  - exists (node_counter s2).
    replace (m0 + (i + 1)) with (model_counter s2 + 1) by lia.
    apply write_then_reset. exact Hf.
  - rewrite Hnew, map_app, Hnum. simpl.
    replace (Z.to_nat (i + 1)) with (S (Z.to_nat i)) by lia.
    rewrite zseq_snoc. do 2 f_equal. lia.
  - intros n g Hin. rewrite Hnew in Hin. apply in_app_iff in Hin.
    destruct Hin as [Hin|[Hin|[]]]; [eapply Hid; eauto|].
    inversion Hin; subst. rewrite (fin_meta _ _ Hf). simpl. f_equal. lia.
Qed.

(** X9. A run that finds both counters on file, with model counter [m],
    and completes has exported exactly [num_graphs] models (none for a
    count of zero or less), numbered [m + 1, m + 2, ...] in order, each
    graph carrying its number as [model_id], and leaves [m + num_graphs] as
    [num_models] on file. *)
Theorem run_exports_models cfg s0 s' m N :
  model_files s0 = [] ->
  counters_on_file m N s0 ->
  init cfg s0 = Ok tt s' ->
  map fst (model_files s') = zseq (m + 1) (Z.to_nat (num_graphs cfg)) /\
  (forall n g, In (n, g) (model_files s') -> model_id (meta g) = Some n) /\
  exists K, counters_on_file (m + Z.max 0 (num_graphs cfg)) K s'.
Proof.
  intros Hfiles Hfile E.
  assert (H0 : models_inv m 0 s0).
  { split; [lia|]. split; [exists N; rewrite Z.add_0_r; exact Hfile|].
    rewrite Hfiles. split; [reflexivity | intros n g []]. }
  pose proof (triple_repeat_count (Z.to_nat (num_graphs cfg))
                (bind reset (fun _ => generate_subgraph cfg))
                (models_inv m) (empty_range cfg) (models_step cfg m) 0 s0 H0) as H.
  unfold init, for_range in E. rewrite E in H.
  destruct H as [_ [[K Hc] [Hnum Hid]]].
  rewrite Z.add_0_l, Nat2Z.id in Hnum.
  split; [exact Hnum|]. split; [exact Hid|].
  exists K. replace (m + Z.max 0 (num_graphs cfg))
    with (m + (0 + Z.of_nat (Z.to_nat (num_graphs cfg)))) by lia. exact Hc.
Qed.

Lemma run_exports_models_witness :
  map fst (model_files later_finished)
    = zseq (2 + 1) (Z.to_nat (num_graphs two_graphs_config)) /\
  (forall n g, In (n, g) (model_files later_finished) -> model_id (meta g) = Some n) /\
  exists K, counters_on_file (2 + Z.max 0 (num_graphs two_graphs_config)) K later_finished.
Proof.
  apply (run_exports_models two_graphs_config later_run later_finished 2 5).
  - reflexivity.
  - eexists. split; [vm_compute; reflexivity|]. repeat split; reflexivity.
  - vm_compute. reflexivity.
Defined.

Lemma run_step_failure cfg :
  triple (fun _ => True) (bind reset (fun _ => generate_subgraph cfg))
         (fun _ _ => True) (run_failure cfg).
Proof.
  intros s _. pose proof (reset_outcome s) as Hr. unfold bind.
  destruct (reset s) as [[] s1|e s1|]; [|left; exact Hr|exact Hr].
  destruct Hr as [Hg _]. pose proof (generate_subgraph_outcome cfg s1 Hg) as H.
  destruct (generate_subgraph cfg s1) as [[] s'|e s'|]; [exact I| |exact H].
  right. exact H.
Qed.

(** X10. Whatever the configuration and the counters file, a run that
    ends in an exception does not end in [ZeroDivisionError],
    [OverflowError] or [IndexError]: the division of line 100 is reached
    only with a divisor of at least 2 and a quotient in [0, 1), and
    [random.choice] is only given the two gates. *)
Theorem run_failures cfg s0 e s' :
  init cfg s0 = Raise e s' ->
  e <> ZeroDivisionError /\ e <> OverflowError /\ e <> IndexError.
Proof.
  intros E.
  pose proof (triple_repeat (Z.to_nat (num_graphs cfg))
                (bind reset (fun _ => generate_subgraph cfg))
                (fun _ => True) (run_failure cfg) (run_step_failure cfg) s0 I) as H.
  unfold init, for_range in E. rewrite E in H.
  destruct H as [->|[-> _]]; repeat split; discriminate.
Qed.

Lemma run_failures_witness :
  ValueError <> ZeroDivisionError /\ ValueError <> OverflowError /\
  ValueError <> IndexError.
Proof.
  apply (run_failures empty_range_config first_run ValueError failed_run).
  vm_compute. reflexivity.
Defined.

(** ** Children of every gate *)

Lemma child_added_nodes cfg N K g nt gt q p :
  graph_ok cfg N K g -> N < p <= K ->
  nodes (add_edge (K + 1) p (add_node (K + 1) nt gt q g)) =
  nodes g ++ [(K + 1, {| node_type := Some nt; gate_type := Some gt;
                         node_probability := Some q;
                         in_degree := None; out_degree := None |})].
Proof.
  intros H Hp. pose proof (ok_count _ _ _ _ H) as Hc.
  rewrite add_node_fresh by (rewrite (graph_ok_ids_range _ _ _ _ _ H); lia).
  rewrite add_edge_fresh; simpl; auto.
  - unfold node_ids; simpl. rewrite map_app, in_app_iff. right; simpl; auto.
  - unfold node_ids; simpl. rewrite map_app, in_app_iff. left.
    apply (graph_ok_ids_range _ _ _ _ _ H). lia.
  - rewrite (graph_ok_src_range _ _ _ _ _ H). lia.
Qed.

(** At the root nothing is subtracted: the threshold is 1. *)
Lemma threshold_at_root cfg : (threshold cfg 0 == 1)%Q.
Proof.
  unfold threshold, float_sub.
  assert (E : fl (inject_Z 0 / inject_Z (max_depth cfg)) = 0%Q) by reflexivity.
  rewrite E. vm_compute. reflexivity.
Qed.

Lemma decide_at_root cfg s b s1 :
  2 <= max_depth cfg -> decide_is_intermediate cfg 0 s = Ok b s1 -> b = true.
Proof.
  intros Hm E.
  destruct (decide_is_intermediate_cases cfg 0 s ltac:(lia)) as [[Hc _]|[_ E']]; [lia|].
  rewrite E' in E. inversion E; subst. apply Qltb_lt.
  destruct (uniform_of_range (peek (rng s))) as [_ H1].
  change (float_sub 1 (fl (inject_Z 0 / inject_Z (max_depth cfg)))) with (threshold cfg 0).
  rewrite threshold_at_root. exact H1.
Qed.

(** One turn of the loop, laid out: the decision [b], the state [s3] with
    the child and its edge in place, and what remains to run. *)
Lemma create_child_exec cfg s0 recurse p d s :
  wf cfg s0 s ->
  node_counter s0 < p <= node_counter s ->
  has_depth (edges (graph s)) (node_counter s0 + 1) p d ->
  0 <= d < max_depth cfg ->
  exists b s3 a,
    create_child cfg recurse p d s
      = (if b : bool then recurse (node_counter s + 1) (d + 1) else ret tt) s3 /\
    nodes (graph s3) = nodes (graph s) ++ [(node_counter s + 1, a)] /\
    node_type a = Some (if b then 1 else 2) /\ gate_type a = Some (d + 1) /\
    edges (graph s3) = edges (graph s) ++ [(node_counter s + 1, p)] /\
    node_counter s3 = node_counter s + 1 /\ wf cfg s0 s3 /\
    (b = true -> d + 1 < max_depth cfg) /\
    (d = 0 -> 2 <= max_depth cfg -> b = true).
Proof.
  intros Hwf Hp Hd Hdr.
  assert (Hstep : forall b s1, wf cfg s0 s1 -> graph s1 = graph s ->
            node_counter s1 = node_counter s ->
            (b = true -> d + 1 < max_depth cfg) ->
            exists s3 a,
              bind (create_node (if b : bool then 1 else 2) (Some (d + 1)) (-1))
                (fun c => bind (create_edge c p)
                   (fun _ => if (if b : bool then 1 else 2) =? 1
                             then recurse c (d + 1) else ret tt)) s1
              = (if b then recurse (node_counter s + 1) (d + 1) else ret tt) s3 /\
              nodes (graph s3) = nodes (graph s) ++ [(node_counter s + 1, a)] /\
              node_type a = Some (if b then 1 else 2) /\ gate_type a = Some (d + 1) /\
              edges (graph s3) = edges (graph s) ++ [(node_counter s + 1, p)] /\
              node_counter s3 = node_counter s + 1 /\ wf cfg s0 s3).
  { intros b s1 Hwf1 Hg1 Hc1 Hb.
    destruct (create_node_some (if b then 1 else 2) (d + 1) (-1) s1) as [r' [q [E Hq]]].
    rewrite (bind_ok _ _ _ _ _ E). unfold create_edge. erewrite bind_ok by reflexivity.
    rewrite Hc1.
    set (s2 := node_added (if b then 1 else 2) (d + 1) q r' s1).
    exists (set_graph (add_edge (node_counter s + 1) p (graph s2)) s2).
    eexists. split; [destruct b; reflexivity|].
    destruct Hwf1 as [Hw1 Hok1]. rewrite Hc1 in Hok1.
    assert (Hp1 : node_counter s0 < p <= node_counter s) by exact Hp.
    split.
    { subst s2. cbn [graph set_graph node_added set_node_counter set_rng].
      rewrite Hc1. rewrite <- Hg1.
      apply (child_added_nodes cfg _ _ _ _ _ _ _ Hok1 Hp1). }
    split; [reflexivity|]. split; [reflexivity|]. split.
    { subst s2. cbn [graph set_graph node_added set_node_counter set_rng].
      rewrite Hc1. rewrite <- Hg1.
      apply (child_added_edges cfg _ _ _ _ _ _ _ Hok1 Hp1). }
    split; [subst s2; simpl; rewrite Hc1; reflexivity|].
    subst s2. rewrite <- Hc1. apply wf_child_added.
    - split; [exact Hw1 | rewrite Hc1; exact Hok1].
    - rewrite Hc1. exact Hp.
    - rewrite Hg1. exact Hd.
    - exact Hdr.
    - unfold stored_probability in Hq. destruct b; simpl in Hq; [left|right]; auto. }
  unfold create_child.
  destruct (decide_is_intermediate_cases cfg d s Hdr) as [[Hd1 E]|[Hd1 E]].
  - rewrite (bind_ok _ _ _ _ _ E). cbv zeta.
    destruct (Hstep false s Hwf eq_refl eq_refl ltac:(discriminate)) as [s3 [a H]].
    exists false, s3, a. destruct H as [H1 [H2 [H3 [H4 [H5 [H6 H7]]]]]].
    repeat (split; [assumption|]). split; [discriminate|].
    intros H0 Hmd. lia.
  - rewrite (bind_ok _ _ _ _ _ E). cbv zeta.
    destruct (Hstep (Qltb (uniform_of (peek (rng s))) (threshold cfg d))
                (set_rng (advance (rng s)) s) Hwf eq_refl eq_refl ltac:(intros _; lia))
      as [s3 [a H]].
    eexists. exists s3, a. destruct H as [H1 [H2 [H3 [H4 [H5 [H6 H7]]]]]].
    split; [exact H1|]. repeat (split; [assumption|]). split; [intros _; lia|].
    intros H0 Hmd. subst d. eapply decide_at_root; eauto.
Qed.

Lemma count_in_zero x es : (forall c p, In (c, p) es -> p <> x) -> count_in x es = 0.
Proof.
  intros H. unfold count_in. induction es as [|[c p] es IH]; [reflexivity|].
  simpl. destruct (p =? x) eqn:E.
  - apply Z.eqb_eq in E. exfalso. apply (H c p); [left; reflexivity | exact E].
  - apply IH. intros c' p' Hin. apply (H c' p'). right. exact Hin.
Qed.

Lemma NoDup_fst_unique {A} (l : list (Z * A)) x a b :
  NoDup (map fst l) -> In (x, a) l -> In (x, b) l -> a = b.
Proof.
  induction l as [|[y c] l IH]; intros Hnd Ha Hb; [destruct Ha|].
  simpl in Hnd. inversion Hnd as [|z l' Hnotin Hnd']; subst.
  destruct Ha as [Ha|Ha], Hb as [Hb|Hb].
  - congruence.
  - inversion Ha; subst. exfalso. apply Hnotin. apply in_map_iff. exists (x, b). auto.
  - inversion Hb; subst. exfalso. apply Hnotin. apply in_map_iff. exists (x, a). auto.
  - eauto.
Qed.

Lemma graph_ok_attrs_unique cfg N K g x a b :
  graph_ok cfg N K g -> In (x, a) (nodes g) -> In (x, b) (nodes g) -> a = b.
Proof.
  intros H. apply NoDup_fst_unique. apply (graph_ok_ids_NoDup _ _ _ _ H).
Qed.

Lemma graph_ok_fresh_in_degree cfg N K g x :
  graph_ok cfg N K g -> K < x -> count_in x (edges g) = 0.
Proof.
  intros H Hx. apply count_in_zero. intros c p Hin.
  destruct (graph_ok_edge_ends _ _ _ _ _ _ H Hin) as [Hc [_ [_ Hlt]]].
  apply (graph_ok_ids_range _ _ _ _ _ H) in Hc. lia.
Qed.

Lemma node_degree_ok_count cfg es es' x a :
  count_in x es' = count_in x es ->
  node_degree_ok cfg es x a -> node_degree_ok cfg es' x a.
Proof. intros E [H1 [H2 H3]]. unfold node_degree_ok. rewrite E. auto. Qed.

Lemma create_child_built cfg s0 fuel p d es0 K0 f ns0 lo :
  min_children cfg <= max_num_children cfg ->
  (forall p' d' es1 K1 f1 ns1 lo',
     Z.max 0 (max_depth cfg - d') < Z.of_nat fuel -> 0 <= d' ->
     has_depth es1 (node_counter s0 + 1) p' d' -> p' <= lo' ->
     triple (growing cfg s0 p' es1 K1 f1 ns1 lo') (create_tree cfg fuel p' d')
            (fun _ => growing cfg s0 p' es1 K1 f1 ns1 lo') (empty_range cfg)) ->
  Z.max 0 (max_depth cfg - (d + 1)) < Z.of_nat fuel ->
  has_depth es0 (node_counter s0 + 1) p d ->
  0 <= d < max_depth cfg ->
  p <= lo ->
  triple (growing cfg s0 p es0 K0 f ns0 lo)
         (create_child cfg (create_tree cfg fuel) p d)
         (fun _ => growing cfg s0 p es0 K0 f ns0 lo) (empty_range cfg).
Proof.
  intros Hr IH Hfuel Hd Hdr Hlo s [HI [Hns Hb]].
  pose proof (create_child_keeps cfg s0 (create_tree cfg fuel) p d es0 K0 f
                (fun c es1 K1 f1 Hc =>
                   create_tree_below cfg s0 fuel c (d + 1) es1 K1 f1
                     Hfuel (Z.le_trans _ _ _ (proj1 Hdr) (Z.le_succ_diag_r d)) Hc)
                Hd Hdr s HI) as Hkeep.
  destruct HI as [Hwf [Hincl [Hp [HK Hfr]]]].
  destruct (create_child_exec cfg s0 (create_tree cfg fuel) p d s Hwf Hp
              (has_depth_incl _ _ _ _ _ Hincl Hd) Hdr)
    as [b [s3 [a [E [Hn3 [Ht [Hg [He3 [Hc3 [Hwf3 [Hb1 Hb0]]]]]]]]]]].
  rewrite E in *. clear E.
  pose proof (proj2 Hwf) as Hok. pose proof (proj2 Hwf3) as Hok3.
  assert (Hold3 : forall x a', In (x, a') (nodes (graph s)) -> lo < x ->
                    node_degree_ok cfg (edges (graph s3)) x a').
  { intros x a' Hin Hx. apply (node_degree_ok_count cfg (edges (graph s))).
    - rewrite He3, count_in_snoc.
      destruct (p =? x) eqn:Ex; [apply Z.eqb_eq in Ex; lia | lia].
    - apply Hb; assumption. }
  assert (Hc0 : count_in (node_counter s + 1) (edges (graph s3)) = 0).
  { rewrite He3, count_in_snoc.
    rewrite (graph_ok_fresh_in_degree _ _ _ _ _ Hok) by lia.
    destruct (p =? node_counter s + 1) eqn:Ex; [apply Z.eqb_eq in Ex; lia | lia]. }
  destruct b.
  - (* an intermediate child: its subtree is built by the recursive call *)
    specialize (Hb1 eq_refl).
    destruct fuel as [|fuel']; [contradiction|].
    assert (Hd3 : has_depth (edges (graph s3)) (node_counter s0 + 1)
                    (node_counter s + 1) (d + 1)).
    { econstructor.
      - rewrite He3. apply in_app_iff. right. left. reflexivity.
      - eapply has_depth_incl; [|exact Hd]. eapply incl_tran; [exact Hincl|].
        rewrite He3. apply incl_appl, incl_refl. }
    assert (Hb3 : below cfg s0 (node_counter s + 1) (edges (graph s3))
                    (node_counter s + 1) (fun x => count_in x (edges (graph s3))) s3).
    { split; [exact Hwf3|]. split; [apply incl_refl|]. rewrite Hc3.
      split; [lia|]. split; [lia|]. reflexivity. }
    assert (Hg3 : growing cfg s0 (node_counter s + 1) (edges (graph s3))
                    (node_counter s + 1) (fun x => count_in x (edges (graph s3)))
                    (nodes (graph s3)) (node_counter s + 1) s3).
    { split; [exact Hb3|]. split; [apply incl_refl|].
      intros x a' Hin Hx. exfalso.
      assert (Hi : In x (node_ids (graph s3))).
      { apply in_map_iff. exists (x, a'). auto. }
      apply (graph_ok_ids_range _ _ _ _ _ Hok3) in Hi. lia. }
    assert (Hd1 : 0 <= d + 1) by lia.
    pose proof (IH (node_counter s + 1) (d + 1) _ _ _ _ (node_counter s + 1)
                  Hfuel Hd1 Hd3 (Z.le_refl _) s3 Hg3) as Hrec.
    assert (Hdr1 : 0 <= d + 1 < max_depth cfg) by lia.
    assert (Hf1 : max_depth cfg - (d + 1) <= Z.of_nat fuel') by lia.
    destruct (create_tree_children cfg s0 fuel' (node_counter s + 1) (d + 1) _ _ _ s3
                Hdr1 Hf1 Hd3 Hb3 Hr)
      as [n [s4 [Hn [_ [E4 [_ Hcnt]]]]]].
    rewrite E4 in *.
    destruct Hrec as [[Hwf4 [Hincl4 [Hp4 [HK4 Hfr4]]]] [Hns4 Hb4]].
    pose proof (proj2 Hwf4) as Hok4.
    split; [exact Hkeep|]. split.
    + eapply incl_tran; [exact Hns|]. eapply incl_tran; [|exact Hns4].
      rewrite Hn3. apply incl_appl, incl_refl.
    + intros x a' Hin Hx.
      destruct (Z_lt_le_dec (node_counter s + 1) x) as [Hgt|Hle];
        [apply Hb4; assumption|].
      destruct (Z.eq_dec x (node_counter s + 1)) as [->|Hne].
      * assert (a' = a).
        { eapply graph_ok_attrs_unique; [exact Hok4 | exact Hin |].
          apply Hns4. rewrite Hn3. apply in_app_iff. right. left. reflexivity. }
        subst a'. unfold node_degree_ok. rewrite Ht.
        split; [discriminate|]. split; [|reflexivity].
        intros _. exists n. split; [exact Hn|]. rewrite Hcnt, Hc0. lia.
      * assert (Hx' : In x (node_ids (graph s))).
        { apply (graph_ok_ids_range _ _ _ _ _ Hok). lia. }
        apply in_map_iff in Hx'. destruct Hx' as [[x' a0] [Ex Hin0]].
        simpl in Ex. subst x'.
        assert (a' = a0).
        { eapply graph_ok_attrs_unique; [exact Hok4 | exact Hin |].
          apply Hns4. rewrite Hn3. apply in_app_iff. left. exact Hin0. }
        subst a'. apply (node_degree_ok_count cfg (edges (graph s3))).
        -- apply Hfr4; lia.
        -- apply Hold3; assumption.
  - (* a leaf child *)
    split; [exact Hkeep|]. split.
    + eapply incl_tran; [exact Hns|]. rewrite Hn3. apply incl_appl, incl_refl.
    + intros x a' Hin Hx. rewrite Hn3 in Hin. apply in_app_iff in Hin.
      destruct Hin as [Hin|[Hin|[]]]; [apply Hold3; assumption|].
      inversion Hin; subst x a'. unfold node_degree_ok. rewrite Ht, Hg.
      split; [intros _; exact Hc0|]. split; [discriminate|].
      intros H1 Hm. inversion H1.
      assert (Hbt : false = true) by (apply Hb0; lia). discriminate.
Qed.

Lemma create_tree_built cfg s0 :
  min_children cfg <= max_num_children cfg ->
  forall fuel p d es0 K0 f ns0 lo,
  Z.max 0 (max_depth cfg - d) < Z.of_nat fuel ->
  0 <= d ->
  has_depth es0 (node_counter s0 + 1) p d ->
  p <= lo ->
  triple (growing cfg s0 p es0 K0 f ns0 lo) (create_tree cfg fuel p d)
         (fun _ => growing cfg s0 p es0 K0 f ns0 lo) (empty_range cfg).
Proof.
  intros Hr. induction fuel as [|fuel IH]; intros p d es0 K0 f ns0 lo Hf Hd0 Hd Hlo; [lia|].
  intros s HI. simpl. destruct (d >=? max_depth cfg) eqn:E.
  - exact HI.
  - rewrite Z.geb_leb in E. apply Z.leb_gt in E.
    destruct (random_randint_cases (min_children cfg) (max_num_children cfg) s)
      as [[Hlt Er]|[Hle [n [Hn [_ Er]]]]].
    + rewrite (bind_raise _ _ _ _ _ Er). split; auto.
    + rewrite (bind_ok _ _ _ _ _ Er). unfold for_range.
      refine (triple_repeat _ _ (growing cfg s0 p es0 K0 f ns0 lo) (empty_range cfg) _
                (set_rng (advance (rng s)) s) HI).
      apply create_child_built; [exact Hr | exact IH | lia | exact Hd | lia | exact Hlo].
Qed.

Lemma generate_subgraph_stages cfg s s' :
  graph s = empty_graph ->
  generate_subgraph cfg s = Ok tt s' ->
  exists s1 s2 a,
    wf cfg s s1 /\ node_counter s1 = node_counter s + 1 /\
    nodes (graph s1) = [(node_counter s + 1, a)] /\ edges (graph s1) = [] /\
    create_tree cfg (S (Z.to_nat (max_depth cfg))) (node_counter s + 1) 0 s1 = Ok tt s2 /\
    finished s2 s'.
Proof.
  intros He E. unfold generate_subgraph in E.
  destruct (create_node_none 0 (-1) s) as [r [q [g [En [Hq Hg]]]]].
  simpl in Hq, Hg. rewrite (bind_ok _ _ _ _ _ En) in E.
  unfold bind at 1 in E.
  destruct (create_tree cfg (S (Z.to_nat (max_depth cfg))) (node_counter s + 1) 0
              (node_added 0 g q r s)) as [[] s2|e s2|] eqn:Et; try discriminate.
  assert (Hb : below cfg s (node_counter s + 1) [] (node_counter s) (fun _ => 0)
                 (node_added 0 g q r s)).
  { split; [apply top_created_wf; assumption|]. split; [intros x []|]. simpl.
    split; [lia|]. split; [lia|]. intros x _ _. rewrite He. reflexivity. }
  pose proof (create_tree_below cfg s (S (Z.to_nat (max_depth cfg)))
                (node_counter s + 1) 0 [] (node_counter s) (fun _ => 0)
                ltac:(lia) ltac:(lia) (depth_root _ _) _ Hb) as Ht.
  rewrite Et in Ht.
  destruct (finalise_finished cfg s2 (generated_has_color _ _ _ _ (proj2 (proj1 Ht))))
    as [s'' [Ef Hf]].
  rewrite Ef in E. inversion E; subst s''.
  exists (node_added 0 g q r s), s2. eexists.
  split; [apply top_created_wf; assumption|]. split; [reflexivity|].
  split; [simpl; rewrite He; reflexivity|]. split; [simpl; rewrite He; reflexivity|].
  split; [exact Et | exact Hf].
Qed.

(** A generated tree with at least one level: all nodes below the root are
    complete and the root has a number of children within the fan-out. *)
Lemma generated_built cfg s s' :
  graph s = empty_graph ->
  generate_subgraph cfg s = Ok tt s' ->
  1 <= max_depth cfg ->
  exists s2, finished s2 s' /\ wf cfg s s2 /\ built cfg (node_counter s + 1) s2 /\
             fan_out_ok cfg (count_in (node_counter s + 1) (edges (graph s2))).
Proof.
  intros He E Hm.
  destruct (generate_subgraph_stages cfg s s' He E)
    as [s1 [s2 [a [Hwf1 [Hc1 [Hn1 [He1 [Et Hf]]]]]]]].
  assert (Hr : min_children cfg <= max_num_children cfg).
  { destruct (random_randint_cases (min_children cfg) (max_num_children cfg) s1)
      as [[_ Er]|[Hle _]]; [|exact Hle].
    cbn [create_tree] in Et. destruct (0 >=? max_depth cfg) eqn:E0.
    - rewrite Z.geb_leb in E0. apply Z.leb_le in E0. lia.
    - rewrite (bind_raise _ _ _ _ _ Er) in Et. discriminate. }
  assert (Hb : below cfg s (node_counter s + 1) (edges (graph s1)) (node_counter s)
                 (fun x => count_in x (edges (graph s1))) s1).
  { split; [exact Hwf1|]. split; [apply incl_refl|]. rewrite Hc1.
    split; [lia|]. split; [lia|]. reflexivity. }
  assert (Hg : growing cfg s (node_counter s + 1) (edges (graph s1)) (node_counter s)
                 (fun x => count_in x (edges (graph s1))) [] (node_counter s + 1) s1).
  { split; [exact Hb|]. split; [intros x []|].
    intros x a' Hin Hx. rewrite Hn1 in Hin. destruct Hin as [Hin|[]].
    inversion Hin. lia. }
  assert (Hroot : has_depth (edges (graph s1)) (node_counter s + 1) (node_counter s + 1) 0)
    by constructor.
  pose proof (create_tree_built cfg s Hr (S (Z.to_nat (max_depth cfg)))
                (node_counter s + 1) 0 _ _ _ _ (node_counter s + 1)
                ltac:(lia) (Z.le_refl 0) Hroot (Z.le_refl _) s1 Hg) as Ht.
  rewrite Et in Ht. destruct Ht as [[Hwf2 _] [_ Hbuilt]].
  assert (Hdr : 0 <= 0 < max_depth cfg) by lia.
  assert (Hfu : max_depth cfg - 0 <= Z.of_nat (Z.to_nat (max_depth cfg))) by lia.
  destruct (create_tree_children cfg s (Z.to_nat (max_depth cfg)) (node_counter s + 1) 0
              _ _ _ s1 Hdr Hfu Hroot Hb Hr) as [n [s2' [Hn [_ [Et' [_ Hcnt]]]]]].
  rewrite Et in Et'. inversion Et'; subst s2'.
  exists s2. split; [exact Hf|]. split; [exact Hwf2|]. split; [exact Hbuilt|].
  exists n. split; [exact Hn|]. rewrite Hcnt, He1. reflexivity.
Qed.

(** X11. In every generated graph each node has the number of children its
    type calls for, as in-degree of the graph and as stored [in_degree]
    attribute: none for a LEAF; for an INTERMEDIATE node, and for the TOP
    node when [max_depth >= 1], the number [max(0, n)] for a draw [n] of
    [min_children, max_num_children]; none for the TOP node when
    [max_depth <= 0]. In particular with [min_children = max_num_children
    = k >= 0] and [max_depth >= 1] every TOP or INTERMEDIATE node has
    exactly [k] children. *)
Theorem children_within_fan_out cfg s s' :
  graph s = empty_graph ->
  generate_subgraph cfg s = Ok tt s' ->
  (forall x a, In (x, a) (nodes (graph s')) ->
     in_degree a = Some (graph_in_degree (graph s') x) /\
     (node_type a = Some 2 -> graph_in_degree (graph s') x = 0) /\
     (node_type a = Some 1 -> fan_out_ok cfg (graph_in_degree (graph s') x)) /\
     (node_type a = Some 0 -> 1 <= max_depth cfg ->
        fan_out_ok cfg (graph_in_degree (graph s') x)) /\
     (node_type a = Some 0 -> max_depth cfg <= 0 -> graph_in_degree (graph s') x = 0)) /\
  (forall k, min_children cfg = k -> max_num_children cfg = k -> 0 <= k ->
     1 <= max_depth cfg ->
     forall x a, In (x, a) (nodes (graph s')) -> node_type a <> Some 2 ->
       in_degree a = Some k).
Proof.
  intros He E.
  destruct (generated_shape cfg _ s' (generated_intro _ _ _ He E))
    as [s1 [s2' [_ [_ [_ [_ [Hf' Hok]]]]]]].
  assert (Hdeg : forall x a, In (x, a) (nodes (graph s')) ->
                   in_degree a = Some (graph_in_degree (graph s') x)).
  { intros x a Hin. rewrite (fin_nodes _ _ Hf') in Hin. apply in_set_degrees in Hin.
    destruct Hin as [a0 [_ [_ [_ [_ [Hi _]]]]]].
    unfold graph_in_degree in *. rewrite (fin_edges _ _ Hf'). exact Hi. }
  assert (Hmain : forall x a, In (x, a) (nodes (graph s')) ->
     (node_type a = Some 2 -> graph_in_degree (graph s') x = 0) /\
     (node_type a = Some 1 -> fan_out_ok cfg (graph_in_degree (graph s') x)) /\
     (node_type a = Some 0 -> 1 <= max_depth cfg ->
        fan_out_ok cfg (graph_in_degree (graph s') x)) /\
     (node_type a = Some 0 -> max_depth cfg <= 0 -> graph_in_degree (graph s') x = 0)).
  { intros x a Hin. unfold graph_in_degree.
    destruct (Z_le_gt_dec (max_depth cfg) 0) as [Hm|Hm].
    - destruct (graph_ok_depth_zero _ _ _ _ Hok Hm) as [_ Hnil]. rewrite Hnil.
      destruct (Z.eq_dec x (node_counter s + 1)) as [->|Hn].
      + destruct (ok_top _ _ _ _ Hok _ Hin) as [Ht _]. rewrite Ht.
        split; [discriminate|]. split; [discriminate|]. split; [intros _ Hc; lia|].
        intros _ _. reflexivity.
      + destruct (ok_child _ _ _ _ Hok _ _ Hin Hn) as [d [Hd _]]. lia.
    - destruct (generated_built cfg s s' He E ltac:(lia))
        as [s2 [Hf [Hwf2 [Hbuilt Hroot]]]].
      rewrite (fin_edges _ _ Hf).
      rewrite (fin_nodes _ _ Hf) in Hin. apply in_set_degrees in Hin.
      destruct Hin as [a0 [Hin0 [Et [Eg _]]]]. rewrite Et.
      destruct (Z.eq_dec x (node_counter s + 1)) as [->|Hn].
      + destruct (ok_top _ _ _ _ (proj2 Hwf2) _ Hin0) as [Ht _]. rewrite Ht.
        split; [discriminate|]. split; [discriminate|].
        split; [intros _ _; exact Hroot | intros _ Hc; lia].
      + assert (Hx : node_counter s + 1 < x).
        { assert (Hi : In x (node_ids (graph s2))).
          { apply in_map_iff. exists (x, a0). auto. }
          apply (graph_ok_ids_range _ _ _ _ _ (proj2 Hwf2)) in Hi. lia. }
        destruct (Hbuilt x a0 Hin0 Hx) as [H1 [H2 _]].
        split; [exact H1|]. split; [exact H2|].
        destruct (graph_ok_child_type _ _ _ _ _ _ (proj2 Hwf2) Hin0 Hn) as [Ec|Ec];
          rewrite Ec; split; discriminate. }
  split.
  - intros x a Hin. split; [apply Hdeg; exact Hin | apply Hmain; exact Hin].
  - intros k Hmin Hmax Hk Hm x a Hin Hleaf.
    rewrite (Hdeg x a Hin). f_equal.
    destruct (Hmain x a Hin) as [_ [H1 [H0 _]]].
    destruct (graph_ok_types _ _ _ _ _ _ Hok Hin) as [Et|[Et|Et]]; [| |congruence].
    + destruct (H0 Et Hm) as [n [Hn ->]]. lia.
    + destruct (H1 Et) as [n [Hn ->]]. lia.
Qed.

Lemma children_within_fan_out_witness :
  (forall x a, In (x, a) (nodes (graph first_generated)) ->
     in_degree a = Some (graph_in_degree (graph first_generated) x) /\
     (node_type a = Some 2 -> graph_in_degree (graph first_generated) x = 0) /\
     (node_type a = Some 1 ->
        fan_out_ok main_config (graph_in_degree (graph first_generated) x)) /\
     (node_type a = Some 0 -> 1 <= max_depth main_config ->
        fan_out_ok main_config (graph_in_degree (graph first_generated) x)) /\
     (node_type a = Some 0 -> max_depth main_config <= 0 ->
        graph_in_degree (graph first_generated) x = 0)) /\
  (forall k, min_children main_config = k -> max_num_children main_config = k -> 0 <= k ->
     1 <= max_depth main_config ->
     forall x a, In (x, a) (nodes (graph first_generated)) -> node_type a <> Some 2 ->
       in_degree a = Some k).
Proof.
  apply (children_within_fan_out main_config first_run first_generated).
  - reflexivity.
  - vm_compute. reflexivity.
Defined.

(** ** Levels of a generated tree *)

Lemma has_depth_ge0 es root n d : has_depth es root n d -> 0 <= d.
Proof. induction 1; lia. Qed.

Lemma has_depth_one es root n :
  has_depth es root n 1 -> n <> root -> In (n, root) es.
Proof.
  intros H Hn. remember 1 as k eqn:Hk. destruct H as [|c p d Hin Hp]; [congruence|].
  assert (Hd0 : d = 0) by lia. clear Hk. subst d.
  remember 0 as z eqn:Hz. destruct Hp as [|c' p' d' Hin' Hp']; [exact Hin|].
  pose proof (has_depth_ge0 _ _ _ _ Hp'). lia.
Qed.

(** X12. Levels of a generated tree. An INTERMEDIATE node never lies at
    depth [max_depth], and every node at that depth is a LEAF. When
    [max_depth >= 2] every child of the TOP node is INTERMEDIATE (at depth 0
    the draw [r < 1 - 0 / max_depth = 1] always succeeds), so leaves appear
    from depth 2 on only; when [max_depth = 1] every node but the TOP node
    is a LEAF attached to the TOP node. *)
Theorem levels_of_generated cfg s s' :
  graph s = empty_graph ->
  generate_subgraph cfg s = Ok tt s' ->
  (forall n a d, In (n, a) (nodes (graph s')) ->
     has_depth (edges (graph s')) (node_counter s + 1) n d ->
     (node_type a = Some 1 -> 1 <= d < max_depth cfg) /\
     (d = max_depth cfg -> 1 <= max_depth cfg -> node_type a = Some 2)) /\
  (2 <= max_depth cfg ->
     forall c a, In (c, node_counter s + 1) (edges (graph s')) ->
       In (c, a) (nodes (graph s')) -> node_type a = Some 1) /\
  (max_depth cfg = 1 ->
     forall n a, In (n, a) (nodes (graph s')) -> n <> node_counter s + 1 ->
       node_type a = Some 2 /\ In (n, node_counter s + 1) (edges (graph s'))).
Proof.
  intros He E.
  destruct (generated_shape cfg _ s' (generated_intro _ _ _ He E))
    as [s1 [s2' [_ [_ [_ [_ [Hf' Hok]]]]]]].
  assert (Hlev : forall n a d, In (n, a) (nodes (graph s')) ->
            has_depth (edges (graph s')) (node_counter s + 1) n d ->
            (node_type a = Some 1 -> 1 <= d < max_depth cfg) /\
            (d = max_depth cfg -> 1 <= max_depth cfg -> node_type a = Some 2)).
  { intros n a d Hin Hd. destruct (Z.eq_dec n (node_counter s + 1)) as [->|Hn].
    - destruct (ok_top _ _ _ _ Hok _ Hin) as [Ht _]. rewrite Ht.
      split; [discriminate|]. intros Hd0 Hm.
      assert (d = 0) by (eapply graph_ok_depth_unique; eauto; constructor). lia.
    - destruct (ok_child _ _ _ _ Hok _ _ Hin Hn) as [d' [Hr [Hd' [_ Ht]]]].
      assert (d' = d) by (eapply graph_ok_depth_unique; eauto). subst d'.
      destruct Ht as [[Ht [_ Hlt]]|[Ht _]]; rewrite Ht.
      + split; [intros _; lia | intros Hc; lia].
      + split; [discriminate | reflexivity]. }
  split; [exact Hlev|]. split.
  - intros Hm c a Hedge Hin.
    destruct (generated_built cfg s s' He E ltac:(lia)) as [s2 [Hf [Hwf2 [Hbuilt _]]]].
    destruct (graph_ok_edge_ends _ _ _ _ _ _ Hok Hedge) as [_ [_ [Hc Hlt]]].
    destruct (ok_child _ _ _ _ Hok _ _ Hin Hc) as [d' [_ [Hd' [Hg _]]]].
    assert (Hone : has_depth (edges (graph s')) (node_counter s + 1) c (0 + 1)).
    { econstructor; [exact Hedge | constructor]. }
    assert (d' = 0 + 1) by (eapply graph_ok_depth_unique; eauto). subst d'.
    rewrite (fin_nodes _ _ Hf) in Hin. apply in_set_degrees in Hin.
    destruct Hin as [a0 [Hin0 [Et [Eg _]]]]. rewrite Et. rewrite Eg in Hg.
    destruct (Hbuilt c a0 Hin0 ltac:(lia)) as [_ [_ H3]]. apply H3; [exact Hg | exact Hm].
  - intros Hm n a Hin Hn.
    destruct (ok_child _ _ _ _ Hok _ _ Hin Hn) as [d [Hr [Hd [_ Ht]]]].
    assert (d = 1) by lia. subst d. split.
    + destruct Ht as [[_ [_ Hlt]]|[Ht _]]; [lia | exact Ht].
    + apply has_depth_one; assumption.
Qed.

Lemma levels_of_generated_witness :
  (forall n a d, In (n, a) (nodes (graph first_generated)) ->
     has_depth (edges (graph first_generated)) (node_counter first_run + 1) n d ->
     (node_type a = Some 1 -> 1 <= d < max_depth main_config) /\
     (d = max_depth main_config -> 1 <= max_depth main_config -> node_type a = Some 2)) /\
  (2 <= max_depth main_config ->
     forall c a, In (c, node_counter first_run + 1) (edges (graph first_generated)) ->
       In (c, a) (nodes (graph first_generated)) -> node_type a = Some 1) /\
  (max_depth main_config = 1 ->
     forall n a, In (n, a) (nodes (graph first_generated)) ->
       n <> node_counter first_run + 1 ->
       node_type a = Some 2 /\ In (n, node_counter first_run + 1) (edges (graph first_generated))).
Proof.
  apply (levels_of_generated main_config first_run first_generated).
  - reflexivity.
  - vm_compute. reflexivity.
Defined.

(** ** Bias of the sampler *)

Lemma sample_le_uniform k : (sample_of k <= uniform_of k)%Q.
Proof.
  rewrite sample_of_power. unfold uniform_of.
  pose proof (Z.mod_pos_bound (Z.of_N k) (Zpos two53) eq_refl) as Hm.
  set (m := Z.of_N k mod Zpos two53) in *.
  rewrite Qpower_decomp_pos. unfold Qle. cbn [Qnum Qden].
  rewrite Pos2Z.inj_pow.
  change 10 with (Z.succ 9). rewrite !Z.pow_succ_r by lia.
  pose proof (Z.pow_le_mono_l m (Zpos two53) 9 ltac:(lia)) as Hp.
  assert (H9 : 0 <= m ^ 9) by (apply Z.pow_nonneg; lia).
  set (x := m ^ 9) in *. set (y := Zpos two53 ^ 9) in *. set (b := Zpos two53) in *.
  assert (Hb : 0 < b) by (subst b; lia).
  clearbody x y. clearbody m. clearbody b.
  replace (m * x * b) with ((m * b) * x) by ring.
  replace (m * (b * y)) with ((m * b) * y) by ring.
  apply Z.mul_le_mono_nonneg_l; [apply Z.mul_nonneg_nonneg; lia | exact Hp].
Qed.

(** X13. The sampler is biased towards small values: for the uniform draw
    [u] it makes, the probability it returns never exceeds [u]; it is
    positive when [u] is positive and 0 when [u] is 0. *)
Theorem biased_towards_low t :
  biased_random_low_number t
    = Ok (sample_of (peek (rng t))) (set_rng (advance (rng t)) t) /\
  (sample_of (peek (rng t)) <= uniform_of (peek (rng t)))%Q /\
  ((0 < uniform_of (peek (rng t)))%Q -> (0 < sample_of (peek (rng t)))%Q) /\
  ((uniform_of (peek (rng t)) == 0)%Q -> (sample_of (peek (rng t)) == 0)%Q).
Proof.
  split; [reflexivity|]. split; [apply sample_le_uniform|]. split.
  - intros H. rewrite sample_of_power. apply Qpower_0_lt. exact H.
  - intros H. rewrite sample_of_power, H. reflexivity.
Qed.
